(** * AWS validation rules of kops ([pkg/apis/kops/validation/aws.go])

    A shallow embedding of the provider-specific validation pass for
    clusters and instance groups, together with the properties that its
    specification states about it.

    Go strings are byte strings: they are modelled by [string], whose
    characters are the bytes.  Go's [int], [int32] and [int64] values are
    only compared and printed by this code, never combined arithmetically,
    so they are modelled by [Z].  A pointer that may be [nil] is an
    [option]. *)

From Stdlib Require Import ZArith String Ascii List Bool Lia.
From stdpp Require Import base decidable option list strings gmap pretty.
Local Open Scope string_scope.
Local Open Scope list_scope.
Local Open Scope Z_scope.

(** ** Bytes of a string *)

Definition byte_of (c : ascii) : Z := Z.of_N (N_of_ascii c).

Fixpoint bytes (s : string) : list Z :=
  match s with
  | EmptyString => []
  | String c s' => byte_of c :: bytes s'
  end.

(** [s[lo:hi]], for [lo <= hi <= len(s)]. *)
Definition slice (s : string) (lo hi : nat) : string :=
  String.substring lo (hi - lo) s.

(** ** Package [unicode/utf8] *)

Module utf8.

Definition RuneError : Z := 0xFFFD.

Definition RuneSelf : Z := 0x80.

Definition UTFMax : nat := 4.

(** The entries of the table [first]: [as] is 0xF0, [xx] is 0xF1, the
    others carry the accept-range index in the high nibble and the
    length of the sequence in the low one. *)
Definition first (b : Z) : Z :=
  if b <? 0x80 then 0xF0
  else if b <? 0xC2 then 0xF1
  else if b <? 0xE0 then 0x02
  else if b =? 0xE0 then 0x13
  else if b <? 0xED then 0x03
  else if b =? 0xED then 0x23
  else if b <? 0xF0 then 0x03
  else if b =? 0xF0 then 0x34
  else if b <? 0xF4 then 0x04
  else if b =? 0xF4 then 0x44
  else 0xF1.

Definition locb : Z := 0x80.

Definition hicb : Z := 0xBF.

Definition acceptRanges (k : Z) : Z * Z :=
  if k =? 0 then (locb, hicb)
  else if k =? 1 then (0xA0, hicb)
  else if k =? 2 then (locb, 0x9F)
  else if k =? 3 then (0x90, hicb)
  else if k =? 4 then (locb, 0x8F)
  else (0, 0).

(** [DecodeRuneInString], on the bytes of the string: the rune and its
    width in bytes. *)
Definition DecodeRune (p : list Z) : Z * nat :=
  match p with
  | [] => (RuneError, 0%nat)
  | s0 :: p1 =>
    let x := first s0 in
    if 0xF0 <=? x then
      (if Z.odd x then RuneError else s0, 1%nat)
    else
      let sz := Z.land x 7 in
      let accept := acceptRanges (Z.shiftr x 4) in
      if (Z.of_nat (length p) <? sz) then (RuneError, 1%nat)
      else
        match p1 with
        | [] => (RuneError, 1%nat)
        | s1 :: p2 =>
          if (s1 <? fst accept) || (snd accept <? s1) then (RuneError, 1%nat)
          else if sz <=? 2 then
            (Z.lor (Z.shiftl (Z.land s0 0x1F) 6) (Z.land s1 0x3F), 2%nat)
          else
            match p2 with
            | [] => (RuneError, 1%nat)
            | s2 :: p3 =>
              if (s2 <? locb) || (hicb <? s2) then (RuneError, 1%nat)
              else if sz <=? 3 then
                (Z.lor (Z.lor (Z.shiftl (Z.land s0 0x0F) 12)
                              (Z.shiftl (Z.land s1 0x3F) 6))
                       (Z.land s2 0x3F), 3%nat)
              else
                match p3 with
                | [] => (RuneError, 1%nat)
                | s3 :: _ =>
                  if (s3 <? locb) || (hicb <? s3) then (RuneError, 1%nat)
                  else
                    (Z.lor (Z.lor (Z.lor (Z.shiftl (Z.land s0 0x07) 18)
                                         (Z.shiftl (Z.land s1 0x3F) 12))
                                  (Z.shiftl (Z.land s2 0x3F) 6))
                           (Z.land s3 0x3F), 4%nat)
                end
            end
        end
  end.

Definition RuneStart (b : Z) : bool := negb (Z.land b 0xC0 =? 0x80).

(** The backwards search of [DecodeLastRuneInString] for the start of
    the last rune: from [start], down to [lim]. *)
Fixpoint lastStart (p : list Z) (lim : nat) (start : Z) (fuel : nat) : Z :=
  match fuel with
  | O => start
  | S fuel' =>
    if start <? Z.of_nat lim then start
    else if RuneStart (nth (Z.to_nat start) p 0) then start
    else lastStart p lim (start - 1) fuel'
  end.

Definition DecodeLastRune (p : list Z) : Z * nat :=
  let end_ := length p in
  if Nat.eqb end_ 0 then (RuneError, 0%nat)
  else
    let r := nth (end_ - 1) p 0 in
    if r <? RuneSelf then (r, 1%nat)
    else
      let lim := (end_ - UTFMax)%nat in
      let start := lastStart p lim (Z.of_nat end_ - 2) (S UTFMax) in
      let start := if start <? 0 then 0%nat else Z.to_nat start in
      let '(r, size) := DecodeRune (drop start p) in
      if Nat.eqb (start + size) end_ then (r, size) else (RuneError, 1%nat).

End utf8.

(** ** Package [unicode] *)

Module unicode.

Definition MaxLatin1 : Z := 0xFF.

(** [White_Space] outside Latin-1. *)
Definition White_Space_excludingLatin (r : Z) : bool :=
  (r =? 0x1680) || ((0x2000 <=? r) && (r <=? 0x200A))
  || (r =? 0x2028) || (r =? 0x2029) || (r =? 0x202F) || (r =? 0x205F)
  || (r =? 0x3000).

Definition IsSpace (r : Z) : bool :=
  if r <=? MaxLatin1 then
    (r =? 0x09) || (r =? 0x0A) || (r =? 0x0B) || (r =? 0x0C) || (r =? 0x0D)
    || (r =? 0x20) || (r =? 0x85) || (r =? 0xA0)
  else White_Space_excludingLatin r.

End unicode.

(** ** Package [strings] *)

Module strings.

Definition HasPrefix (s prefix : string) : bool := String.prefix prefix s.

(** [asciiSpace]: the bytes '\t', '\n', '\v', '\f', '\r' and ' '. *)
Definition asciiSpace (c : Z) : bool :=
  (c =? 0x09) || (c =? 0x0A) || (c =? 0x0B) || (c =? 0x0C) || (c =? 0x0D)
  || (c =? 0x20).

(** [indexFunc(s, f, false)]: the offset of the first rune on which [f]
    is false, counted from [i]; [None] stands for -1.  The fuel bounds
    the number of runes, each of which takes at least one byte. *)
Fixpoint indexFunc (f : Z -> bool) (p : list Z) (i : nat) (fuel : nat)
  : option nat :=
  match fuel with
  | O => None
  | S fuel' =>
    match p with
    | [] => None
    | _ =>
      let '(r, size) := utf8.DecodeRune p in
      if negb (f r) then Some i
      else indexFunc f (drop size p) (i + size) fuel'
    end
  end.

(** [lastIndexFunc(s, f, false)], looking at [s[0:i]]. *)
Fixpoint lastIndexFunc (f : Z -> bool) (p : list Z) (i : nat) (fuel : nat)
  : option nat :=
  match fuel with
  | O => None
  | S fuel' =>
    if Nat.leb i 0 then None
    else
      let '(r, size) := utf8.DecodeLastRune (take i p) in
      let i := (i - size)%nat in
      if negb (f r) then Some i else lastIndexFunc f p i fuel'
  end.

Definition TrimLeftFunc (s : string) (f : Z -> bool) : string :=
  match indexFunc f (bytes s) 0 (String.length s) with
  | None => ""
  | Some i => slice s i (String.length s)
  end.

Definition TrimRightFunc (s : string) (f : Z -> bool) : string :=
  let p := bytes s in
  match lastIndexFunc f p (String.length s) (String.length s) with
  | Some i =>
    if utf8.RuneSelf <=? nth i p 0 then
      let '(_, wid) := utf8.DecodeRune (drop i p) in
      slice s 0 (i + wid)
    else slice s 0 (i + 1)
  | None => slice s 0 0
  end.

Definition TrimFunc (s : string) (f : Z -> bool) : string :=
  TrimRightFunc (TrimLeftFunc s f) f.

(** The two scans of [TrimSpace].  Each either stops at an offset or
    meets a byte outside ASCII and hands over to the rune-aware
    functions. *)
Inductive scan := Stop (i : nat) | NonASCII (i : nat).

Fixpoint scanStart (p : list Z) (start : nat) : scan :=
  match p with
  | [] => Stop start
  | c :: p' =>
    if utf8.RuneSelf <=? c then NonASCII start
    else if negb (asciiSpace c) then Stop start
    else scanStart p' (S start)
  end.

(** [rp] holds the bytes of [s[start:stop]] in reverse order. *)
Fixpoint scanStop (rp : list Z) (stop : nat) : scan :=
  match rp with
  | [] => Stop stop
  | c :: rp' =>
    if utf8.RuneSelf <=? c then NonASCII stop
    else if negb (asciiSpace c) then Stop stop
    else scanStop rp' (stop - 1)
  end.

Definition TrimSpace (s : string) : string :=
  let len := String.length s in
  match scanStart (bytes s) 0 with
  | NonASCII start => TrimFunc (slice s start len) unicode.IsSpace
  | Stop start =>
    match scanStop (rev (drop start (bytes s))) len with
    | NonASCII stop => TrimRightFunc (slice s start stop) unicode.IsSpace
    | Stop stop => slice s start stop
    end
  end.

(** [Split(s, sep)] for a separator of one byte: the fields between
    the occurrences of [sep]; always at least one field. *)
Fixpoint Split1 (s : string) (sep : ascii) : list string :=
  match s with
  | EmptyString => [EmptyString]
  | String c s' =>
    if Ascii.eqb c sep then EmptyString :: Split1 s' sep
    else
      match Split1 s' sep with
      | [] => [String c EmptyString]
      | w :: ws => String c w :: ws
      end
  end.

End strings.

(** ** Package [strconv] *)

Module strconv.

(** [FormatInt(i, 10)] and [Itoa(i)]: the decimal digits, after a minus
    sign when [i] is negative. *)
Definition FormatInt10 (i : Z) : string := pretty i.

Definition Itoa (i : Z) : string := pretty i.

End strconv.

(** ** Package [kops]: the configuration aggregates *)

Module kops.

(** Modelled from the spec: the type declarations of package [kops] are
    not among the sources at hand.  Each record carries the fields that
    the validation rules and their tests read, with the types the code
    uses them at. *)
Record LoadBalancerSubnetSpec := {
  lbs_Name : string;
  lbs_PrivateIPv4Address : option string;
  lbs_AllocationID : option string
}.

Record ClusterSubnetSpec := {
  cs_Name : string;
  cs_CIDR : string
}.

Definition LoadBalancerClass := string.

Definition LoadBalancerType := string.

(** Modelled from the spec: the constants [LoadBalancerClassNetwork],
    [LoadBalancerClassClassic], [LoadBalancerTypeInternal] and
    [LoadBalancerTypePublic] are declared with the types above; the spec
    spells them "network", "classic" and "internal".  The rules only
    compare a field with a constant, so nothing below depends on the
    spelling. *)
Definition LoadBalancerClassClassic : LoadBalancerClass := "classic".

Definition LoadBalancerClassNetwork : LoadBalancerClass := "network".

Definition LoadBalancerTypePublic : LoadBalancerType := "public".

Definition LoadBalancerTypeInternal : LoadBalancerType := "internal".

Record LoadBalancerAccessSpec := {
  lb_Class : LoadBalancerClass;
  lb_Type : LoadBalancerType;
  lb_AdditionalSecurityGroups : list string;
  lb_SSLCertificate : string;
  lb_SSLPolicy : option string;
  lb_Subnets : list LoadBalancerSubnetSpec
}.

Record AccessSpec := {
  LoadBalancer : option LoadBalancerAccessSpec
}.

Record CloudControllerManagerConfig := { }.

Record KubeControllerManagerConfig := {
  ExternalCloudVolumePlugin : string
}.

Record AWSEBSCSIDriver := {
  Enabled : option bool
}.

Record CloudConfiguration := {
  cc_AWSEBSCSIDriver : option AWSEBSCSIDriver
}.

Record ClusterSpec := {
  API : option AccessSpec;
  Subnets : list ClusterSubnetSpec;
  ExternalCloudControllerManager : option CloudControllerManagerConfig;
  KubeControllerManager : option KubeControllerManagerConfig;
  CloudConfig : option CloudConfiguration
}.

Record Cluster := {
  c_Spec : ClusterSpec
}.

Record MixedInstancesPolicySpec := {
  Instances : list string;
  OnDemandBase : option Z;
  OnDemandAboveBase : option Z;
  SpotAllocationStrategy : option string
}.

Record InstanceMetadataOptions := {
  HTTPPutResponseHopLimit : option Z;
  HTTPTokens : option string
}.

Record InstanceGroupSpec := {
  MaxSize : option Z;
  MachineType : string;
  AdditionalSecurityGroups : list string;
  SpotDurationInMinutes : option Z;
  InstanceInterruptionBehavior : option string;
  MixedInstancesPolicy : option MixedInstancesPolicySpec;
  InstanceMetadata : option InstanceMetadataOptions
}.

Record InstanceGroup := {
  ObjectMeta_Name : string;
  ig_Spec : InstanceGroupSpec
}.

Definition GetName (ig : InstanceGroup) : string := ObjectMeta_Name ig.

End kops.

(** ** Package [fi]: reading optional values *)

Module fi.

(** Modelled from the spec: the helpers of package [fi] are not among
    the sources at hand.  A CSI driver counts as enabled only when its
    flag is present and true, and a size that is not configured reads
    as the zero value of its type. *)
Definition BoolValue (v : option bool) : bool := default false v.

Definition Int64Value (v : option Z) : Z := default 0 v.

Definition Int32Value (v : option Z) : Z := default 0 v.

End fi.

(** ** Package [field]: paths and errors *)

Module field.

(** A path is a chain of elements, each with a name or an index, linked
    to its parent. *)
#[warnings="-register-all"] Inductive Path := mkPath {
  name : string;
  index : string;
  parent : option Path
}.

Definition NewPath (name : string) (moreNames : list string) : Path :=
  fold_left (fun r anotherName => mkPath anotherName "" (Some r))
            moreNames (mkPath name "" None).

Definition Child (p : Path) (name : string) : Path :=
  mkPath name "" (Some p).

Definition Index (p : Path) (index : Z) : Path :=
  mkPath "" (strconv.Itoa index) (Some p).

(** [String]: the elements from the root down; a named element that has
    a parent follows a dot, an element without a name prints its index
    between brackets. *)
Fixpoint String (p : Path) : string :=
  match p with
  | mkPath name index parent =>
    match parent with
    | Some q =>
      String q +:+ (if String.eqb name "" then "[" +:+ index +:+ "]"
                    else "." +:+ name)
    | None => if String.eqb name "" then "[" +:+ index +:+ "]" else name
    end
  end.

Inductive ErrorType :=
| ErrorTypeNotFound
| ErrorTypeRequired
| ErrorTypeDuplicate
| ErrorTypeInvalid
| ErrorTypeNotSupported
| ErrorTypeForbidden.

Definition ErrorType_String (t : ErrorType) : string :=
  match t with
  | ErrorTypeNotFound => "Not found"
  | ErrorTypeRequired => "Required value"
  | ErrorTypeDuplicate => "Duplicate value"
  | ErrorTypeInvalid => "Invalid value"
  | ErrorTypeNotSupported => "Unsupported value"
  | ErrorTypeForbidden => "Forbidden"
  end.

(** The offending value of an error is an [interface{}]; these are the
    values the rules store in it.  A string built by [fmt.Sprintf] is
    kept as its format and arguments. *)
Inductive Value :=
| VString (s : string)
| VInt64Ptr (p : option Z)
| VSubnet (s : kops.LoadBalancerSubnetSpec)
| VSprintf (format : string) (args : list string).

(** The detail of an error is a message; the one of [NotSupported]
    lists the quoted supported values and is kept as that list. *)
Inductive DetailText :=
| Text (s : string)
| SupportedValues (validValues : list string).

Record Error := {
  Type_ : ErrorType;
  Field : string;
  BadValue : Value;
  Detail : DetailText
}.

Definition ErrorList := list Error.

Definition Invalid (field : Path) (value : Value) (detail : string) : Error :=
  {| Type_ := ErrorTypeInvalid; Field := String field;
     BadValue := value; Detail := Text detail |}.

Definition Required (field : Path) (detail : string) : Error :=
  {| Type_ := ErrorTypeRequired; Field := String field;
     BadValue := VString ""; Detail := Text detail |}.

Definition Forbidden (field : Path) (detail : string) : Error :=
  {| Type_ := ErrorTypeForbidden; Field := String field;
     BadValue := VString ""; Detail := Text detail |}.

Definition NotFound (field : Path) (value : Value) : Error :=
  {| Type_ := ErrorTypeNotFound; Field := String field;
     BadValue := value; Detail := Text "" |}.

Definition Duplicate (field : Path) (value : Value) : Error :=
  {| Type_ := ErrorTypeDuplicate; Field := String field;
     BadValue := value; Detail := Text "" |}.

Definition NotSupported (field : Path) (value : Value)
           (validValues : list string) : Error :=
  {| Type_ := ErrorTypeNotSupported; Field := String field;
     BadValue := value;
     Detail := match validValues with
               | [] => Text ""
               | _ => SupportedValues validValues
               end |}.

End field.

(** The form in which the tests compare errors: ["<kind>::<path>"]. *)
Definition errString (e : field.Error) : string :=
  field.ErrorType_String (field.Type_ e) +:+ "::" +:+ field.Field e.

(** ** The generic enumeration check *)

(** Modelled from the spec: [IsValidValue] belongs to this package but is
    not among the sources at hand.  A present value that is not, by
    exact string match, one of the allowed values yields one Unsupported
    error carrying the value and the allowed set; otherwise, and for an
    absent value, the result is empty. *)
Definition IsValidValue (fldPath : field.Path) (v : option string)
           (validValues : list string) : field.ErrorList :=
  match v with
  | Some s =>
    if existsb (String.eqb s) validValues then []
    else [field.NotSupported fldPath (field.VString s) validValues]
  | None => []
  end.

(** ** Additional security groups *)

Fixpoint awsValidateAdditionalSecurityGroups_range
         (fieldPath : field.Path) (i : Z) (groups : list string)
         (names : gset string) (allErrs : field.ErrorList) : field.ErrorList :=
  match groups with
  | [] => allErrs
  | s :: groups' =>
    let allErrs :=
      if decide (s ∈ names)
      then allErrs ++ [field.Duplicate (field.Index fieldPath i) (field.VString s)]
      else allErrs in
    let names := {[ s ]} ∪ names in
    if String.eqb (strings.TrimSpace s) "" then
      awsValidateAdditionalSecurityGroups_range fieldPath (i + 1) groups' names
        (allErrs ++ [field.Invalid (field.Index fieldPath i) (field.VString s)
                       "security group cannot be empty, if specified"])
    else
      let allErrs :=
        if negb (strings.HasPrefix s "sg-")
        then allErrs ++ [field.Invalid (field.Index fieldPath i) (field.VString s)
                           "security group does not match the expected AWS format"]
        else allErrs in
      awsValidateAdditionalSecurityGroups_range fieldPath (i + 1) groups' names allErrs
  end.

Definition awsValidateAdditionalSecurityGroups
           (fieldPath : field.Path) (groups : list string) : field.ErrorList :=
  awsValidateAdditionalSecurityGroups_range fieldPath 0 groups ∅ [].

(** ** The cloud capability port *)

Module ec2.

Record InstanceTypeInfo := { InstanceType : string }.

(** [InstanceInterruptionBehavior_Values()] of the AWS SDK. *)
Definition InstanceInterruptionBehavior_Values : list string :=
  ["hibernate"; "stop"; "terminate"].

End ec2.

Module awsup.

(** A Go [error]: [None] is [nil]. *)
Definition error := option string.

(** The one method of the [AWSCloud] interface that validation calls.
    It answers with a descriptor and an error. *)
Record AWSCloud := {
  DescribeInstanceType : string -> option ec2.InstanceTypeInfo * error
}.

End awsup.

(** ** Machine types *)

Fixpoint awsValidateInstanceType_range
         (fieldPath : field.Path) (cloud : awsup.AWSCloud)
         (typs : list string) (allErrs : field.ErrorList) : field.ErrorList :=
  match typs with
  | [] => allErrs
  | typ :: typs' =>
    let '(_, err) := awsup.DescribeInstanceType cloud typ in
    let allErrs :=
      match err with
      | Some _ => allErrs ++ [field.Invalid fieldPath (field.VString typ)
                                "machine type specified is invalid"]
      | None => allErrs
      end in
    awsValidateInstanceType_range fieldPath cloud typs' allErrs
  end.

(** The port is an interface value: [None] is the [nil] interface. *)
Definition awsValidateInstanceType
           (fieldPath : field.Path) (instanceType : string)
           (cloud : option awsup.AWSCloud) : field.ErrorList :=
  let allErrs := [] in
  match cloud with
  | Some cloud' =>
    if negb (String.eqb instanceType "") then
      awsValidateInstanceType_range fieldPath cloud'
        (strings.Split1 instanceType ",") allErrs
    else allErrs
  | None => allErrs
  end.

(** ** Spot duration and interruption behaviour *)

Definition validSpotDurations : list string :=
  ["60"; "120"; "180"; "240"; "300"; "360"].

Definition awsValidateSpotDurationInMinute
           (fieldPath : field.Path) (ig : kops.InstanceGroup) : field.ErrorList :=
  let allErrs := [] in
  match kops.SpotDurationInMinutes (kops.ig_Spec ig) with
  | Some d =>
    let spotDurationStr := strconv.FormatInt10 d in
    allErrs ++ IsValidValue fieldPath (Some spotDurationStr) validSpotDurations
  | None => allErrs
  end.

Definition awsValidateInstanceInterruptionBehavior
           (fieldPath : field.Path) (ig : kops.InstanceGroup) : field.ErrorList :=
  let allErrs := [] in
  match kops.InstanceInterruptionBehavior (kops.ig_Spec ig) with
  | Some instanceInterruptionBehavior =>
    allErrs ++ IsValidValue fieldPath (Some instanceInterruptionBehavior)
                            ec2.InstanceInterruptionBehavior_Values
  | None => allErrs
  end.

(** ** Instance metadata options *)

Definition awsValidateInstanceMetadata
           (fieldPath : field.Path)
           (instanceMetadata : kops.InstanceMetadataOptions) : field.ErrorList :=
  let allErrs := [] in
  let allErrs :=
    match kops.HTTPTokens instanceMetadata with
    | Some _ =>
      allErrs ++ IsValidValue (field.Child fieldPath "httpTokens")
                              (kops.HTTPTokens instanceMetadata)
                              ["optional"; "required"]
    | None => allErrs
    end in
  let allErrs :=
    match kops.HTTPPutResponseHopLimit instanceMetadata with
    | Some _ =>
      let httpPutResponseHopLimit :=
        fi.Int64Value (kops.HTTPPutResponseHopLimit instanceMetadata) in
      if (httpPutResponseHopLimit <? 1) || (64 <? httpPutResponseHopLimit) then
        allErrs ++ [field.Invalid (field.Child fieldPath "httpPutResponseHopLimit")
                      (field.VInt64Ptr (kops.HTTPPutResponseHopLimit instanceMetadata))
                      "HTTPPutResponseLimit must be a value between 1 and 64"]
      else allErrs
    | None => allErrs
    end in
  allErrs.

(** ** Mixed-instances policy and the instance-group pass *)

Section InstanceGroupRules.

(** The table [kops.SpotAllocationStrategies] is declared outside the
    sources at hand; the rules are stated for any table. *)
Variable SpotAllocationStrategies : list string.

Fixpoint awsValidateMixedInstancesPolicy_range
         (path : field.Path) (cloud : option awsup.AWSCloud)
         (i : Z) (instances : list string) (errs : field.ErrorList)
  : field.ErrorList :=
  match instances with
  | [] => errs
  | x :: instances' =>
    awsValidateMixedInstancesPolicy_range path cloud (i + 1) instances'
      (errs ++ awsValidateInstanceType
                 (field.Index (field.Child path "instances") i) x cloud)
  end.

Definition awsValidateMixedInstancesPolicy
           (path : field.Path) (spec : kops.MixedInstancesPolicySpec)
           (ig : kops.InstanceGroup) (cloud : option awsup.AWSCloud)
  : field.ErrorList :=
  let errs := [] in
  let errs :=
    awsValidateMixedInstancesPolicy_range path cloud 0 (kops.Instances spec) errs in
  let errs :=
    match kops.OnDemandBase spec with
    | Some _ =>
      let errs :=
        if fi.Int64Value (kops.OnDemandBase spec) <? 0 then
          errs ++ [field.Invalid (field.Child path "onDemandBase")
                     (field.VInt64Ptr (kops.OnDemandBase spec))
                     "cannot be less than zero"]
        else errs in
      if fi.Int32Value (kops.MaxSize (kops.ig_Spec ig))
         <? fi.Int64Value (kops.OnDemandBase spec) then
        errs ++ [field.Invalid (field.Child path "onDemandBase")
                   (field.VInt64Ptr (kops.OnDemandBase spec))
                   "cannot be greater than max size"]
      else errs
    | None => errs
    end in
  let errs :=
    match kops.OnDemandAboveBase spec with
    | Some _ =>
      let errs :=
        if fi.Int64Value (kops.OnDemandAboveBase spec) <? 0 then
          errs ++ [field.Invalid (field.Child path "onDemandAboveBase")
                     (field.VInt64Ptr (kops.OnDemandAboveBase spec))
                     "cannot be less than 0"]
        else errs in
      if 100 <? fi.Int64Value (kops.OnDemandAboveBase spec) then
        errs ++ [field.Invalid (field.Child path "onDemandAboveBase")
                   (field.VInt64Ptr (kops.OnDemandAboveBase spec))
                   "cannot be greater than 100"]
      else errs
    | None => errs
    end in
  errs ++ IsValidValue (field.Child path "spotAllocationStrategy")
                       (kops.SpotAllocationStrategy spec)
                       SpotAllocationStrategies.

Definition awsValidateInstanceGroup
           (ig : kops.InstanceGroup) (cloud : option awsup.AWSCloud)
  : field.ErrorList :=
  let allErrs := [] in
  let allErrs :=
    allErrs ++ awsValidateAdditionalSecurityGroups
                 (field.NewPath "spec" ["additionalSecurityGroups"])
                 (kops.AdditionalSecurityGroups (kops.ig_Spec ig)) in
  let allErrs :=
    allErrs ++ awsValidateInstanceType
                 (field.NewPath (kops.GetName ig) ["spec"; "machineType"])
                 (kops.MachineType (kops.ig_Spec ig)) cloud in
  let allErrs :=
    allErrs ++ awsValidateSpotDurationInMinute
                 (field.NewPath (kops.GetName ig) ["spec"; "spotDurationInMinutes"])
                 ig in
  let allErrs :=
    allErrs ++ awsValidateInstanceInterruptionBehavior
                 (field.NewPath (kops.GetName ig)
                                ["spec"; "instanceInterruptionBehavior"])
                 ig in
  let allErrs :=
    match kops.MixedInstancesPolicy (kops.ig_Spec ig) with
    | Some policy =>
      allErrs ++ awsValidateMixedInstancesPolicy
                   (field.NewPath "spec" ["mixedInstancesPolicy"]) policy ig cloud
    | None => allErrs
    end in
  let allErrs :=
    match kops.InstanceMetadata (kops.ig_Spec ig) with
    | Some opts =>
      allErrs ++ awsValidateInstanceMetadata
                   (field.NewPath "spec" ["instanceMetadata"]) opts
    | None => allErrs
    end in
  allErrs.

End InstanceGroupRules.

(** ** TLS policy and the external cloud-controller-manager *)

Definition awsValidateSSLPolicy
           (fieldPath : field.Path) (spec : kops.LoadBalancerAccessSpec)
  : field.ErrorList :=
  let allErrs := [] in
  match kops.lb_SSLPolicy spec with
  | Some _ =>
    let allErrs :=
      if negb (String.eqb (kops.lb_Class spec) kops.LoadBalancerClassNetwork) then
        allErrs ++ [field.Forbidden fieldPath
                      "sslPolicy should be specified with Network Load Balancer"]
      else allErrs in
    if String.eqb (kops.lb_SSLCertificate spec) "" then
      allErrs ++ [field.Forbidden fieldPath
                    "sslPolicy should not be specified without SSLCertificate"]
    else allErrs
  | None => allErrs
  end.

(** The two disjunctions of the source: the left operand decides when a
    pointer is [nil], so that the right one is only read through a
    pointer that is there. *)
Definition awsValidateExternalCloudControllerManager
           (c : kops.ClusterSpec) : field.ErrorList :=
  let allErrs := [] in
  match kops.ExternalCloudControllerManager c with
  | Some _ =>
    if match kops.KubeControllerManager c with
       | None => true
       | Some kcm => negb (String.eqb (kops.ExternalCloudVolumePlugin kcm) "aws")
       end
    then
      if match kops.CloudConfig c with
         | None => true
         | Some cc =>
           match kops.cc_AWSEBSCSIDriver cc with
           | None => true
           | Some driver => negb (fi.BoolValue (kops.Enabled driver))
           end
         end
      then
        allErrs ++ [field.Forbidden
                      (field.NewPath "spec" ["externalCloudControllerManager"])
                      "AWS external CCM cannot be used without enabling spec.cloudConfig.AWSEBSCSIDriver or setting spec.kubeControllerManaager.externalCloudVolumePlugin set to `aws`"]
      else allErrs
    else allErrs
  | None => allErrs
  end.

(** ** Package [net]: addresses and networks *)

(** [s[n:]]. *)
Fixpoint sdrop (n : nat) (s : string) : string :=
  match n, s with
  | O, _ => s
  | S n', String _ s' => sdrop n' s'
  | S _, EmptyString => EmptyString
  end.

(** [s[n] == c], false beyond the end of [s]. *)
Definition byteIs (s : string) (n : nat) (c : ascii) : bool :=
  match String.get n s with
  | Some c' => Ascii.eqb c' c
  | None => false
  end.

Module net.

Definition IPv4len : nat := 4.

Definition IPv6len : nat := 16.

(** An [IP] is a slice of 4 or 16 bytes; lookups beyond its length do
    not occur in the code below and read 0 here. *)
Definition IP := list Z.

Definition IPMask := list Z.

Record IPNet := {
  net_IP : IP;
  Mask : IPMask
}.

Definition at_ (p : list Z) (i : nat) : Z := nth i p 0.

Definition big : Z := 0xFFFFFF.

(** [dtoi]: decimal to integer; the number, the bytes consumed and
    whether it succeeded. *)
Fixpoint dtoi_from (s : string) (n : Z) (i : nat) : Z * nat * bool :=
  match s with
  | String c s' =>
    let b := byte_of c in
    if (48 <=? b) && (b <=? 57) then
      let n := n * 10 + (b - 48) in
      if big <=? n then (big, i, false) else dtoi_from s' n (S i)
    else if Nat.eqb i 0 then (0, 0%nat, false) else (n, i, true)
  | EmptyString => if Nat.eqb i 0 then (0, 0%nat, false) else (n, i, true)
  end.

Definition dtoi (s : string) : Z * nat * bool := dtoi_from s 0 0.

(** [xtoi]: hexadecimal to integer. *)
Definition hexDigit (b : Z) : option Z :=
  if (48 <=? b) && (b <=? 57) then Some (b - 48)
  else if (97 <=? b) && (b <=? 102) then Some (b - 97 + 10)
  else if (65 <=? b) && (b <=? 70) then Some (b - 65 + 10)
  else None.

Fixpoint xtoi_from (s : string) (n : Z) (i : nat) : Z * nat * bool :=
  match s with
  | String c s' =>
    match hexDigit (byte_of c) with
    | Some d =>
      let n := n * 16 + d in
      if big <=? n then (0, i, false) else xtoi_from s' n (S i)
    | None => if Nat.eqb i 0 then (0, i, false) else (n, i, true)
    end
  | EmptyString => if Nat.eqb i 0 then (0, i, false) else (n, i, true)
  end.

Definition xtoi (s : string) : Z * nat * bool := xtoi_from s 0 0.

Definition v4InV6Prefix : list Z := [0; 0; 0; 0; 0; 0; 0; 0; 0; 0; 0xff; 0xff].

Definition IPv4 (a b c d : Z) : IP := v4InV6Prefix ++ [a; b; c; d].

(** [parseIPv4]: four decimal fields of at most 255, separated by dots.
    A field of several digits may not start with a zero (the rule of
    Go 1.17 and later).  [i] counts the fields read, [todo] those still
    to read, [p] holds the fields read so far. *)
Fixpoint parseIPv4_fields (s : string) (i todo : nat) (p : list Z)
  : option IP :=
  match todo with
  | O =>
    if negb (Nat.eqb (String.length s) 0) then None
    else Some (IPv4 (at_ p 0) (at_ p 1) (at_ p 2) (at_ p 3))
  | S todo' =>
    if Nat.eqb (String.length s) 0 then None
    else
      let dot :=
        if Nat.ltb 0 i then
          if negb (byteIs s 0 ".") then None else Some (sdrop 1 s)
        else Some s in
      match dot with
      | None => None
      | Some s =>
        let '(n, c, ok) := dtoi s in
        if negb ok || (0xFF <? n) then None
        else if Nat.ltb 1 c && byteIs s 0 "0" then None
        else parseIPv4_fields (sdrop c s) (S i) todo' (p ++ [n])
      end
  end.

Definition parseIPv4 (s : string) : option IP :=
  parseIPv4_fields s 0 IPv4len [].

(** The loop of [parseIPv6], reading 16-bit groups separated by colons.
    The state is the address under construction, the number [i] of
    bytes filled, the position of the ellipsis (-1 when there is none)
    and the rest of the input.  Every turn fills two bytes, so eight
    turns fill the address. *)
Fixpoint parseIPv6_loop (fuel : nat) (ip : IP) (i : nat) (ellipsis : Z)
         (s : string) : option (IP * nat * Z * string) :=
  match fuel with
  | O => None
  | S fuel' =>
    if negb (Nat.ltb i IPv6len) then Some (ip, i, ellipsis, s)
    else
      let '(n, c, ok) := xtoi s in
      if negb ok || (0xFFFF <? n) then None
      else if Nat.ltb c (String.length s) && byteIs s c "." then
        (* a trailing IPv4 address *)
        if (ellipsis <? 0) && negb (Nat.eqb i (IPv6len - IPv4len)) then None
        else if Nat.ltb IPv6len (i + IPv4len) then None
        else
          match parseIPv4 s with
          | None => None
          | Some ip4 =>
            let ip := <[i := at_ ip4 12]> ip in
            let ip := <[S i := at_ ip4 13]> ip in
            let ip := <[S (S i) := at_ ip4 14]> ip in
            let ip := <[S (S (S i)) := at_ ip4 15]> ip in
            Some (ip, (i + IPv4len)%nat, ellipsis, "")
          end
      else
        let ip := <[i := Z.shiftr n 8]> ip in
        let ip := <[S i := Z.land n 0xFF]> ip in
        let i := (i + 2)%nat in
        let s := sdrop c s in
        if Nat.eqb (String.length s) 0 then Some (ip, i, ellipsis, s)
        else if negb (byteIs s 0 ":") || Nat.eqb (String.length s) 1 then None
        else
          let s := sdrop 1 s in
          if byteIs s 0 ":" then
            if 0 <=? ellipsis then None
            else
              let ellipsis := Z.of_nat i in
              let s := sdrop 1 s in
              if Nat.eqb (String.length s) 0 then Some (ip, i, ellipsis, s)
              else parseIPv6_loop fuel' ip i ellipsis s
          else parseIPv6_loop fuel' ip i ellipsis s
  end.

Definition parseIPv6 (s : string) : option IP :=
  let ip := replicate IPv6len 0 in
  let leading :=
    Nat.leb 2 (String.length s) && byteIs s 0 ":" && byteIs s 1 ":" in
  let ellipsis := if leading then 0 else -1 in
  let s := if leading then sdrop 2 s else s in
  if leading && Nat.eqb (String.length s) 0 then Some ip
  else
    match parseIPv6_loop 9 ip 0 ellipsis s with
    | None => None
    | Some (ip, i, ellipsis, s) =>
      if negb (Nat.eqb (String.length s) 0) then None
      else if Nat.ltb i IPv6len then
        if ellipsis <? 0 then None
        else
          (* the groups after the ellipsis move to the end, zeros
             fill the gap *)
          let e := Z.to_nat ellipsis in
          Some (take e ip ++ replicate (IPv6len - i) 0
                  ++ take (i - e) (drop e ip))
      else if 0 <=? ellipsis then None
      else Some ip
    end.

(** [ParseIP]: the first dot or colon decides between the two
    parsers. *)
Fixpoint ParseIP_scan (s rest : string) : option IP :=
  match rest with
  | EmptyString => None
  | String c rest' =>
    if Ascii.eqb c "." then parseIPv4 s
    else if Ascii.eqb c ":" then parseIPv6 s
    else ParseIP_scan s rest'
  end.

Definition ParseIP (s : string) : option IP := ParseIP_scan s s.

Definition isZeros (p : list Z) : bool := forallb (Z.eqb 0) p.

Definition To4 (ip : IP) : option IP :=
  if Nat.eqb (length ip) IPv4len then Some ip
  else if Nat.eqb (length ip) IPv6len && isZeros (take 10 ip)
          && (at_ ip 10 =? 0xff) && (at_ ip 11 =? 0xff)
  then Some (take 4 (drop 12 ip))
  else None.

(** One byte of [CIDRMask]: [n] ones are left to place. *)
Fixpoint CIDRMask_bytes (l : nat) (n : Z) : IPMask :=
  match l with
  | O => []
  | S l' =>
    if 8 <=? n then 0xff :: CIDRMask_bytes l' (n - 8)
    else Z.land (Z.lnot (Z.shiftr 0xff n)) 0xff :: CIDRMask_bytes l' 0
  end.

Definition CIDRMask (ones bits : Z) : option IPMask :=
  if negb (bits =? 8 * Z.of_nat IPv4len) && negb (bits =? 8 * Z.of_nat IPv6len)
  then None
  else if (ones <? 0) || (bits <? ones) then None
  else Some (CIDRMask_bytes (Z.to_nat (bits / 8)) ones).

Definition allFF (b : list Z) : bool := forallb (Z.eqb 0xff) b.

Definition bytesEqual (a b : list Z) : bool :=
  Nat.eqb (length a) (length b) && forallb (fun '(x, y) => x =? y) (zip a b).

Definition IP_Mask (ip : IP) (mask : IPMask) : option IP :=
  let mask :=
    if Nat.eqb (length mask) IPv6len && Nat.eqb (length ip) IPv4len
       && allFF (take 12 mask)
    then drop 12 mask else mask in
  let ip :=
    if Nat.eqb (length mask) IPv4len && Nat.eqb (length ip) IPv6len
       && bytesEqual (take 12 ip) v4InV6Prefix
    then drop 12 ip else ip in
  if negb (Nat.eqb (length ip) (length mask)) then None
  else Some (zip_with Z.land ip mask).

(** [ParseCIDR]: [None] is the result with a non-nil error. *)
Definition ParseCIDR (s : string) : option (IP * IPNet) :=
  match String.index 0 "/" s with
  | None => None
  | Some i =>
    let addr := slice s 0 i in
    let mask := sdrop (S i) s in
    let '(iplen, ip) :=
      match parseIPv4 addr with
      | Some ip => (IPv4len, Some ip)
      | None => (IPv6len, parseIPv6 addr)
      end in
    let '(n, i, ok) := dtoi mask in
    match ip with
    | None => None
    | Some ip =>
      if negb ok || negb (Nat.eqb i (String.length mask)) || (n <? 0)
         || (8 * Z.of_nat iplen <? n)
      then None
      else
        match CIDRMask n (8 * Z.of_nat iplen) with
        | Some m =>
          match IP_Mask ip m with
          | Some masked => Some (ip, {| net_IP := masked; Mask := m |})
          | None => None
          end
        | None => None
        end
    end
  end.

Definition networkNumberAndMask (n : IPNet) : option (IP * IPMask) :=
  let ip := match To4 (net_IP n) with Some ip => Some ip
            | None => if negb (Nat.eqb (length (net_IP n)) IPv6len) then None
                      else Some (net_IP n)
            end in
  match ip with
  | None => None
  | Some ip =>
    if Nat.eqb (length (Mask n)) IPv4len then
      if negb (Nat.eqb (length ip) IPv4len) then None else Some (ip, Mask n)
    else if Nat.eqb (length (Mask n)) IPv6len then
      if Nat.eqb (length ip) IPv4len then Some (ip, drop 12 (Mask n))
      else Some (ip, Mask n)
    else None
  end.

Definition Contains (n : IPNet) (ip : IP) : bool :=
  let '(nn, m) := default ([], []) (networkNumberAndMask n) in
  let ip := match To4 ip with Some x => x | None => ip end in
  if negb (Nat.eqb (length ip) (length nn)) then false
  else forallb (fun '(a, b, k) => Z.land a k =? Z.land b k)
               (zip (zip nn ip) m).

End net.

(** ** Load-balancer subnets *)

(** The search for the cluster subnet of a binding: the first declared
    subnet of that name, [None] while the pointer stays [nil]. *)
Fixpoint awsValidateLoadBalancerSubnets_find
         (subnet : kops.LoadBalancerSubnetSpec)
         (subnets : list kops.ClusterSubnetSpec) : option kops.ClusterSubnetSpec :=
  match subnets with
  | [] => None
  | cs :: subnets' =>
    if String.eqb (kops.lbs_Name subnet) (kops.cs_Name cs) then Some cs
    else awsValidateLoadBalancerSubnets_find subnet subnets'
  end.

(** The negation of the test [ip == nil || ip.To4() == nil]: the parse
    gave an address, and the address has a four-byte form. *)
Definition isIPv4 (ip : option net.IP) : bool :=
  match ip with
  | None => false
  | Some ip' => match net.To4 ip' with Some _ => true | None => false end
  end.

(** One turn of the loop over the bindings. *)
Definition awsValidateLoadBalancerSubnets_body
           (fieldPath : field.Path) (spec : kops.ClusterSpec)
           (lbSpec : kops.LoadBalancerAccessSpec)
           (i : Z) (subnet : kops.LoadBalancerSubnetSpec)
           (allErrs : field.ErrorList) : field.ErrorList :=
  let '(clusterSubnet, allErrs) :=
    if String.eqb (kops.lbs_Name subnet) "" then
      (None, allErrs ++ [field.Required (field.Child (field.Index fieldPath i) "name")
                           "subnet name can't be empty"])
    else
      let clusterSubnet :=
        awsValidateLoadBalancerSubnets_find subnet (kops.Subnets spec) in
      match clusterSubnet with
      | None =>
        (clusterSubnet,
         allErrs ++ [field.NotFound (field.Child (field.Index fieldPath i) "name")
                       (field.VSprintf "subnet %q not found in cluster subnets"
                                       [kops.lbs_Name subnet])])
      | Some _ => (clusterSubnet, allErrs)
      end in
  let allErrs :=
    match kops.lbs_PrivateIPv4Address subnet with
    | Some address =>
      let allErrs :=
        if String.eqb address "" then
          allErrs ++ [field.Required
                        (field.Child (field.Index fieldPath i) "privateIPv4Address")
                        "privateIPv4Address can't be empty"]
        else allErrs in
      let ip := net.ParseIP address in
      let allErrs :=
        if isIPv4 ip then
          match clusterSubnet with
          | Some cs =>
            match net.ParseCIDR (kops.cs_CIDR cs) with
            | Some (_, ipNet) =>
              if negb (net.Contains ipNet (default [] ip)) then
                allErrs ++ [field.Invalid
                              (field.Child (field.Index fieldPath i)
                                           "privateIPv4Address")
                              (field.VSubnet subnet)
                              "privateIPv4Address is not part of the subnet CIDR"]
              else allErrs
            | None => allErrs
            end
          | None => allErrs
          end
        else
          allErrs ++ [field.Invalid
                        (field.Child (field.Index fieldPath i) "privateIPv4Address")
                        (field.VSubnet subnet)
                        "privateIPv4Address is not a valid IPv4 address"] in
      if negb (String.eqb (kops.lb_Class lbSpec) kops.LoadBalancerClassNetwork)
         || negb (String.eqb (kops.lb_Type lbSpec) kops.LoadBalancerTypeInternal)
      then
        allErrs ++ [field.Forbidden
                      (field.Child (field.Index fieldPath i) "privateIPv4Address")
                      "privateIPv4Address only allowed for internal NLBs"]
      else allErrs
    | None => allErrs
    end in
  let allErrs :=
    match kops.lbs_AllocationID subnet with
    | Some allocationID =>
      let allErrs :=
        if String.eqb allocationID "" then
          allErrs ++ [field.Required
                        (field.Child (field.Index fieldPath i) "allocationID")
                        "allocationID can't be empty"]
        else allErrs in
      if negb (String.eqb (kops.lb_Class lbSpec) kops.LoadBalancerClassNetwork)
         || String.eqb (kops.lb_Type lbSpec) kops.LoadBalancerTypeInternal
      then
        allErrs ++ [field.Forbidden
                      (field.Child (field.Index fieldPath i) "allocationID")
                      "allocationID only allowed for Public NLBs"]
      else allErrs
    | None => allErrs
    end in
  allErrs.

Fixpoint awsValidateLoadBalancerSubnets_range
         (fieldPath : field.Path) (spec : kops.ClusterSpec)
         (lbSpec : kops.LoadBalancerAccessSpec)
         (i : Z) (subnets : list kops.LoadBalancerSubnetSpec)
         (allErrs : field.ErrorList) : field.ErrorList :=
  match subnets with
  | [] => allErrs
  | subnet :: subnets' =>
    awsValidateLoadBalancerSubnets_range fieldPath spec lbSpec (i + 1) subnets'
      (awsValidateLoadBalancerSubnets_body fieldPath spec lbSpec i subnet allErrs)
  end.

(** The function reads [spec.API.LoadBalancer] without a check: [None]
    is the run-time panic of a [nil] dereference. *)
Definition awsValidateLoadBalancerSubnets
           (fieldPath : field.Path) (spec : kops.ClusterSpec)
  : option field.ErrorList :=
  let allErrs := [] in
  api ← kops.API spec;
  lbSpec ← kops.LoadBalancer api;
  Some (awsValidateLoadBalancerSubnets_range fieldPath spec lbSpec 0
          (kops.lb_Subnets lbSpec) allErrs).

(** ** The cluster pass *)

Definition awsValidateCluster (c : kops.Cluster) : option field.ErrorList :=
  let allErrs := [] in
  allErrs ←
    match kops.API (kops.c_Spec c) with
    | Some api =>
      match kops.LoadBalancer api with
      | Some lb =>
        let allErrs :=
          allErrs ++ awsValidateAdditionalSecurityGroups
                       (field.NewPath "spec" ["api"; "loadBalancer";
                                              "additionalSecurityGroups"])
                       (kops.lb_AdditionalSecurityGroups lb) in
        let allErrs :=
          allErrs ++ awsValidateSSLPolicy
                       (field.NewPath "spec" ["api"; "loadBalancer"; "sslPolicy"])
                       lb in
        subnetErrs ← awsValidateLoadBalancerSubnets
                       (field.NewPath "spec" ["api"; "loadBalancer"; "subnets"])
                       (kops.c_Spec c);
        Some (allErrs ++ subnetErrs)
      | None => Some allErrs
      end
    | None => Some allErrs
    end;
  Some (allErrs ++ awsValidateExternalCloudControllerManager (kops.c_Spec c)).

(** ** The cases of the package's tests *)

(** The tests require every expected string among the errors, and no
    error at all where none is expected. *)
Definition testErrors (errs : field.ErrorList) (expected : list string) : bool :=
  match expected with
  | [] => bool_decide (errs = [])
  | _ => forallb (fun x => existsb (String.eqb x) (map errString errs)) expected
  end.

(** The cluster that the load-balancer test builds for each case: three
    subnets a, b and c on 10.0.0.0/24, and an internal network load
    balancer unless the case overrides its class or type. *)
Definition testCluster (lbType class : option string)
           (lbSubnets : list kops.LoadBalancerSubnetSpec) : kops.Cluster :=
  let cidr := "10.0.0.0/24" in
  {| kops.c_Spec := {|
       kops.API := Some {| kops.LoadBalancer := Some {|
         kops.lb_Class := default kops.LoadBalancerClassNetwork class;
         kops.lb_Type := default kops.LoadBalancerTypeInternal lbType;
         kops.lb_AdditionalSecurityGroups := [];
         kops.lb_SSLCertificate := "";
         kops.lb_SSLPolicy := None;
         kops.lb_Subnets := lbSubnets |} |};
       kops.Subnets :=
         map (fun s => {| kops.cs_Name := s; kops.cs_CIDR := cidr |}) ["a"; "b"; "c"];
       kops.ExternalCloudControllerManager := None;
       kops.KubeControllerManager := None;
       kops.CloudConfig := None |} |}.

Definition binding (name : string) (address allocation : option string)
  : kops.LoadBalancerSubnetSpec :=
  {| kops.lbs_Name := name; kops.lbs_PrivateIPv4Address := address;
     kops.lbs_AllocationID := allocation |}.

Definition runLoadBalancerTest (lbType class : option string)
           (lbSubnets : list kops.LoadBalancerSubnetSpec)
           (expected : list string) : bool :=
  match awsValidateCluster (testCluster lbType class lbSubnets) with
  | Some errs => testErrors errs expected
  | None => false
  end.

(** * Vocabulary of the properties *)

(** The details of the two Invalid errors of the rule. *)
Definition msgEmptyGroup : string := "security group cannot be empty, if specified".

Definition msgGroupFormat : string :=
  "security group does not match the expected AWS format".

(** What the rule says about the entry [s] at index [i], given the
    entries before it: a Duplicate when it repeats one of them, then
    either the blank check or the prefix check. *)
Definition securityGroupErrs (fieldPath : field.Path) (i : Z)
           (earlier : list string) (s : string) : field.ErrorList :=
  (if bool_decide (s ∈ earlier)
   then [field.Duplicate (field.Index fieldPath i) (field.VString s)] else [])
  ++ (if String.eqb (strings.TrimSpace s) ""
      then [field.Invalid (field.Index fieldPath i) (field.VString s) msgEmptyGroup]
      else if negb (strings.HasPrefix s "sg-")
           then [field.Invalid (field.Index fieldPath i) (field.VString s)
                   msgGroupFormat]
           else []).

(** The detail of the Invalid error of the machine-type rule. *)
Definition msgMachineType : string := "machine type specified is invalid".

(** The lookup of a candidate failed: the port answered with an error. *)
Definition unresolvable (cloud : awsup.AWSCloud) (typ : string) : bool :=
  match snd (awsup.DescribeInstanceType cloud typ) with
  | Some _ => true
  | None => false
  end.

(** A port for the examples: it knows three instance types and fails on
    every other name. *)
Definition mockCloud : awsup.AWSCloud :=
  {| awsup.DescribeInstanceType typ :=
       if existsb (String.eqb typ) ["t2.micro"; "m5.large"; "c5.large"]
       then (Some {| ec2.InstanceType := typ |}, None)
       else (None, Some "instance type not found") |}.

(** The durations, in minutes, that the rule accepts. *)
Definition supportedSpotDurations : list Z := [60; 120; 180; 240; 300; 360].

(** An instance group of a given name and spec. *)
Definition instanceGroupWith (name : string) (spec : kops.InstanceGroupSpec)
  : kops.InstanceGroup :=
  {| kops.ObjectMeta_Name := name; kops.ig_Spec := spec |}.

(** A spec that sets nothing but the spot duration. *)
Definition spotSpec (d : option Z) : kops.InstanceGroupSpec :=
  {| kops.MaxSize := None; kops.MachineType := "";
     kops.AdditionalSecurityGroups := [];
     kops.SpotDurationInMinutes := d;
     kops.InstanceInterruptionBehavior := None;
     kops.MixedInstancesPolicy := None;
     kops.InstanceMetadata := None |}.

(** The detail of the Invalid error of the hop limit. *)
Definition msgHopLimit : string :=
  "HTTPPutResponseLimit must be a value between 1 and 64".

(** Instance metadata options with a hop limit and a token policy. *)
Definition metadataOptions (hops : option Z) (tokens : option string)
  : kops.InstanceMetadataOptions :=
  {| kops.HTTPPutResponseHopLimit := hops; kops.HTTPTokens := tokens |}.

(** The errors of the two fields, one after the other. *)
Definition metadataErrs (fieldPath : field.Path)
           (instanceMetadata : kops.InstanceMetadataOptions) : field.ErrorList :=
  match kops.HTTPTokens instanceMetadata with
  | Some tokens =>
    if bool_decide (tokens ∈ ["optional"; "required"]) then []
    else [field.NotSupported (field.Child fieldPath "httpTokens")
            (field.VString tokens) ["optional"; "required"]]
  | None => []
  end
  ++ match kops.HTTPPutResponseHopLimit instanceMetadata with
     | Some hops =>
       if bool_decide (1 <= hops <= 64) then []
       else [field.Invalid (field.Child fieldPath "httpPutResponseHopLimit")
               (field.VInt64Ptr (Some hops)) msgHopLimit]
     | None => []
     end.

(** The errors of the four parts of the policy, in the order of the
    checks. *)
Definition mixedInstancesErrs
           (strategies : list string) (path : field.Path)
           (spec : kops.MixedInstancesPolicySpec) (ig : kops.InstanceGroup)
           (cloud : option awsup.AWSCloud) : field.ErrorList :=
  concat (imap (fun i x =>
    awsValidateInstanceType
      (field.Index (field.Child path "instances") (Z.of_nat i)) x cloud)
    (kops.Instances spec))
  ++ match kops.OnDemandBase spec with
     | Some base =>
       (if bool_decide (base < 0)
        then [field.Invalid (field.Child path "onDemandBase")
                (field.VInt64Ptr (Some base)) "cannot be less than zero"]
        else [])
       ++ (if bool_decide (fi.Int32Value (kops.MaxSize (kops.ig_Spec ig)) < base)
           then [field.Invalid (field.Child path "onDemandBase")
                   (field.VInt64Ptr (Some base)) "cannot be greater than max size"]
           else [])
     | None => []
     end
  ++ match kops.OnDemandAboveBase spec with
     | Some above =>
       (if bool_decide (above < 0)
        then [field.Invalid (field.Child path "onDemandAboveBase")
                (field.VInt64Ptr (Some above)) "cannot be less than 0"]
        else [])
       ++ (if bool_decide (100 < above)
           then [field.Invalid (field.Child path "onDemandAboveBase")
                   (field.VInt64Ptr (Some above)) "cannot be greater than 100"]
           else [])
     | None => []
     end
  ++ IsValidValue (field.Child path "spotAllocationStrategy")
                  (kops.SpotAllocationStrategy spec) strategies.

(** A path below [p]: its string continues the string of [p]. *)
Definition below (p : field.Path) (e : field.Error) : Prop :=
  exists suffix, field.Field e = field.String p +:+ "." +:+ suffix.

(** The errors of the optional rules: nothing when the field is absent. *)
Definition mixedInstancesPolicyErrs (strategies : list string)
           (ig : kops.InstanceGroup) (cloud : option awsup.AWSCloud)
  : field.ErrorList :=
  match kops.MixedInstancesPolicy (kops.ig_Spec ig) with
  | Some policy =>
    awsValidateMixedInstancesPolicy strategies
      (field.NewPath "spec" ["mixedInstancesPolicy"]) policy ig cloud
  | None => []
  end.

(** The same for the instance metadata options. *)
Definition instanceMetadataErrs (ig : kops.InstanceGroup) : field.ErrorList :=
  match kops.InstanceMetadata (kops.ig_Spec ig) with
  | Some opts =>
    awsValidateInstanceMetadata (field.NewPath "spec" ["instanceMetadata"]) opts
  | None => []
  end.

(** An instance group that every rule but the mixed-instances policy
    objects to. *)
Definition testNodes : kops.InstanceGroup :=
  instanceGroupWith "test-nodes"
    {| kops.MaxSize := None; kops.MachineType := "t2.invalidType";
       kops.AdditionalSecurityGroups := ["--invalid"];
       kops.SpotDurationInMinutes := Some 55;
       kops.InstanceInterruptionBehavior := Some "invalidValue";
       kops.MixedInstancesPolicy := None;
       kops.InstanceMetadata := Some (metadataOptions None (Some "abc")) |}.

(** The details of the errors of a private address and of an allocation
    ID. *)
Definition msgNotIPv4 : string := "privateIPv4Address is not a valid IPv4 address".

Definition msgNotInCIDR : string :=
  "privateIPv4Address is not part of the subnet CIDR".

Definition msgInternalOnly : string :=
  "privateIPv4Address only allowed for internal NLBs".

Definition msgPublicOnly : string := "allocationID only allowed for Public NLBs".

(** The cluster subnet that a binding resolves to. *)
Definition resolvedSubnet (spec : kops.ClusterSpec)
           (subnet : kops.LoadBalancerSubnetSpec) : option kops.ClusterSubnetSpec :=
  if String.eqb (kops.lbs_Name subnet) "" then None
  else awsValidateLoadBalancerSubnets_find subnet (kops.Subnets spec).

(** The errors of the three blocks of the loop body: the name, the
    private address and the allocation ID of a binding. *)
Definition nameErrs (fieldPath : field.Path) (spec : kops.ClusterSpec)
           (i : Z) (subnet : kops.LoadBalancerSubnetSpec) : field.ErrorList :=
  let path := field.Child (field.Index fieldPath i) "name" in
  if String.eqb (kops.lbs_Name subnet) "" then
    [field.Required path "subnet name can't be empty"]
  else
    match awsValidateLoadBalancerSubnets_find subnet (kops.Subnets spec) with
    | None => [field.NotFound path
                 (field.VSprintf "subnet %q not found in cluster subnets"
                                 [kops.lbs_Name subnet])]
    | Some _ => []
    end.

(** The address lies outside the network that the CIDR of the resolved
    subnet denotes. *)
Definition outsideCIDR (cs : kops.ClusterSubnetSpec) (address : string) : bool :=
  match net.ParseCIDR (kops.cs_CIDR cs) with
  | Some (_, ipNet) => negb (net.Contains ipNet (default [] (net.ParseIP address)))
  | None => false
  end.

(** The load balancer is an internal network load balancer; it is a
    public network load balancer. *)
Definition internalNetwork (lbSpec : kops.LoadBalancerAccessSpec) : bool :=
  String.eqb (kops.lb_Class lbSpec) kops.LoadBalancerClassNetwork
  && String.eqb (kops.lb_Type lbSpec) kops.LoadBalancerTypeInternal.

Definition publicNetwork (lbSpec : kops.LoadBalancerAccessSpec) : bool :=
  String.eqb (kops.lb_Class lbSpec) kops.LoadBalancerClassNetwork
  && negb (String.eqb (kops.lb_Type lbSpec) kops.LoadBalancerTypeInternal).

Definition addressErrs (fieldPath : field.Path) (spec : kops.ClusterSpec)
           (lbSpec : kops.LoadBalancerAccessSpec)
           (i : Z) (subnet : kops.LoadBalancerSubnetSpec) : field.ErrorList :=
  let path := field.Child (field.Index fieldPath i) "privateIPv4Address" in
  match kops.lbs_PrivateIPv4Address subnet with
  | Some address =>
    (if String.eqb address ""
     then [field.Required path "privateIPv4Address can't be empty"] else [])
    ++ (if isIPv4 (net.ParseIP address) then
          match resolvedSubnet spec subnet with
          | Some cs =>
            if outsideCIDR cs address
            then [field.Invalid path (field.VSubnet subnet) msgNotInCIDR] else []
          | None => []
          end
        else [field.Invalid path (field.VSubnet subnet) msgNotIPv4])
    ++ (if internalNetwork lbSpec then []
        else [field.Forbidden path msgInternalOnly])
  | None => []
  end.

Definition allocationErrs (fieldPath : field.Path)
           (lbSpec : kops.LoadBalancerAccessSpec)
           (i : Z) (subnet : kops.LoadBalancerSubnetSpec) : field.ErrorList :=
  let path := field.Child (field.Index fieldPath i) "allocationID" in
  match kops.lbs_AllocationID subnet with
  | Some allocationID =>
    (if String.eqb allocationID ""
     then [field.Required path "allocationID can't be empty"] else [])
    ++ (if publicNetwork lbSpec then []
        else [field.Forbidden path msgPublicOnly])
  | None => []
  end.

Definition bindingErrs (fieldPath : field.Path) (spec : kops.ClusterSpec)
           (lbSpec : kops.LoadBalancerAccessSpec)
           (i : Z) (subnet : kops.LoadBalancerSubnetSpec) : field.ErrorList :=
  nameErrs fieldPath spec i subnet
  ++ addressErrs fieldPath spec lbSpec i subnet
  ++ allocationErrs fieldPath lbSpec i subnet.

(** An error whose path lies at or below element [i] of the sequence at
    [p]. *)
Definition atIndex (p : field.Path) (i : Z) (e : field.Error) : Prop :=
  exists suffix, field.Field e = field.String (field.Index p i) +:+ suffix.

(** Membership of an error in a concatenation of singleton lists, and
    the case analysis of such a membership. *)
Ltac elem_here :=
  first [ apply list_elem_of_singleton; reflexivity
        | apply list_elem_of_here
        | apply elem_of_app; left; elem_here
        | apply elem_of_app; right; elem_here ].

Ltac singleton_cases H :=
  repeat match type of H with
         | _ ∈ _ ++ _ => apply elem_of_app in H as [H|H]
         | _ ∈ (if ?b then _ else _) => destruct b eqn:?
         | _ ∈ match ?o with Some _ => _ | None => _ end => destruct o eqn:?
         | _ ∈ [] => now apply elem_of_nil in H
         | _ ∈ [_] => apply list_elem_of_singleton in H; subst
         end.

(** A dotted-decimal IPv4 literal: four decimal fields of at most 255. *)
Definition dottedIPv4 (s : string) : Prop := is_Some (net.parseIPv4 s).


(** Cluster specs, load balancers and cluster subnets for the examples. *)
Definition clusterWith (subnets : list kops.ClusterSubnetSpec)
           (lbSpec : kops.LoadBalancerAccessSpec) : kops.ClusterSpec :=
  {| kops.API := Some {| kops.LoadBalancer := Some lbSpec |};
     kops.Subnets := subnets;
     kops.ExternalCloudControllerManager := None;
     kops.KubeControllerManager := None;
     kops.CloudConfig := None |}.

Definition loadBalancerWith (class : kops.LoadBalancerClass)
           (type : kops.LoadBalancerType)
           (subnets : list kops.LoadBalancerSubnetSpec)
  : kops.LoadBalancerAccessSpec :=
  {| kops.lb_Class := class; kops.lb_Type := type;
     kops.lb_AdditionalSecurityGroups := [];
     kops.lb_SSLCertificate := ""; kops.lb_SSLPolicy := None;
     kops.lb_Subnets := subnets |}.

Definition clusterSubnet (name cidr : string) : kops.ClusterSubnetSpec :=
  {| kops.cs_Name := name; kops.cs_CIDR := cidr |}.

Definition subnetsPath : field.Path :=
  field.NewPath "spec" ["api"; "loadBalancer"; "subnets"].


(** The detail of the Forbidden error of the controller-manager rule. *)
Definition msgExternalCCM : string :=
  "AWS external CCM cannot be used without enabling spec.cloudConfig.AWSEBSCSIDriver or setting spec.kubeControllerManaager.externalCloudVolumePlugin set to `aws`".

(** The controller manager names the provider as its external volume
    plugin. *)
Definition volumePluginIsAWS (c : kops.ClusterSpec) : Prop :=
  exists kcm, kops.KubeControllerManager c = Some kcm
              /\ kops.ExternalCloudVolumePlugin kcm = "aws".

(** The cloud configuration enables the EBS CSI driver. *)
Definition csiDriverEnabled (c : kops.ClusterSpec) : Prop :=
  exists cc driver, kops.CloudConfig c = Some cc
                    /\ kops.cc_AWSEBSCSIDriver cc = Some driver
                    /\ kops.Enabled driver = Some true.

(** An error of the rules of the load balancer: its path starts with
    spec.api.loadBalancer. *)
Definition underLoadBalancer (e : field.Error) : Prop :=
  exists suffix, field.Field e = "spec.api.loadBalancer." +:+ suffix.

(** A cluster that declares an external cloud-controller-manager and has
    no load balancer. *)
Definition clusterWithCCM (kcm : option kops.KubeControllerManagerConfig)
           (cc : option kops.CloudConfiguration) : kops.Cluster :=
  {| kops.c_Spec := {|
       kops.API := None; kops.Subnets := [];
       kops.ExternalCloudControllerManager :=
         Some kops.Build_CloudControllerManagerConfig;
       kops.KubeControllerManager := kcm;
       kops.CloudConfig := cc |} |}.

(** What [parseIPv4_fields] does with one decimal field in front of
    [rest]. *)
Definition fieldRead (a : Z) (rest : string) : Prop :=
  let s := pretty a +:+ rest in
  net.dtoi s = (a, String.length (pretty a), true)
  /\ sdrop (String.length (pretty a)) s = rest
  /\ (Nat.ltb 1 (String.length (pretty a)) && byteIs s 0 "0") = false
  /\ Nat.eqb (String.length s) 0 = false.

(** ** Vocabulary of the further properties *)

#[global] Instance ErrorType_eq_dec : EqDecision field.ErrorType.
Proof. solve_decision. Defined.

(** The errors of one kind in a list. *)
Definition errorsOfType (t : field.ErrorType) (errs : field.ErrorList)
  : field.ErrorList :=
  List.filter (fun e => bool_decide (field.Type_ e = t)) errs.

(** What of an error does not depend on where the list sits: its kind,
    its value and its detail. *)
Definition errorContent (e : field.Error)
  : field.ErrorType * field.Value * field.DetailText :=
  (field.Type_ e, field.BadValue e, field.Detail e).


(** The instance group without its machine types: the machine type is
    empty and the mixed-instances policy, if any, lists no instance
    type. *)
Definition withoutMachineTypes (ig : kops.InstanceGroup) : kops.InstanceGroup :=
  let spec := kops.ig_Spec ig in
  {| kops.ObjectMeta_Name := kops.ObjectMeta_Name ig;
     kops.ig_Spec := {|
       kops.MaxSize := kops.MaxSize spec;
       kops.MachineType := "";
       kops.AdditionalSecurityGroups := kops.AdditionalSecurityGroups spec;
       kops.SpotDurationInMinutes := kops.SpotDurationInMinutes spec;
       kops.InstanceInterruptionBehavior := kops.InstanceInterruptionBehavior spec;
       kops.MixedInstancesPolicy :=
         match kops.MixedInstancesPolicy spec with
         | Some policy =>
           Some {| kops.Instances := [];
                   kops.OnDemandBase := kops.OnDemandBase policy;
                   kops.OnDemandAboveBase := kops.OnDemandAboveBase policy;
                   kops.SpotAllocationStrategy :=
                     kops.SpotAllocationStrategy policy |}
         | None => None
         end;
       kops.InstanceMetadata := kops.InstanceMetadata spec |} |}.

(** * Properties *)

(** ** Sample evaluations *)

Example TrimSpace_samples :
  strings.TrimSpace "" = "" /\ strings.TrimSpace " " = "" /\
  strings.TrimSpace "  sg-1 " = "sg-1" /\
  strings.TrimSpace (String (ascii_of_nat 194) (String (ascii_of_nat 160) " a ")) = "a" /\
  strings.TrimSpace (String " " (String (ascii_of_nat 194) (String (ascii_of_nat 160) ""))) = "" /\
  strings.TrimSpace (String "a" (String (ascii_of_nat 226) (String (ascii_of_nat 128) (String (ascii_of_nat 131) " ")))) = String "a" "" /\
  strings.TrimSpace (String (ascii_of_nat 160) " ") = String (ascii_of_nat 160) "" /\
  strings.Split1 "a,b,,c" "," = ["a"; "b"; ""; "c"] /\
  strings.Split1 "" "," = [""] /\
  strconv.FormatInt10 (-120) = "-120" /\ strconv.Itoa 0 = "0".
Proof. vm_compute. repeat split. Qed.

Example sg_samples :
  let p := field.NewPath "spec" ["additionalSecurityGroups"] in
  map errString (awsValidateAdditionalSecurityGroups p ["sg-1234abcd"]) = [] /\
  map errString (awsValidateAdditionalSecurityGroups p ["sg-1234abcd"; ""])
    = ["Invalid value::spec.additionalSecurityGroups[1]"] /\
  map errString (awsValidateAdditionalSecurityGroups p [" "; ""])
    = ["Invalid value::spec.additionalSecurityGroups[0]";
       "Invalid value::spec.additionalSecurityGroups[1]"] /\
  map errString (awsValidateAdditionalSecurityGroups p ["--invalid"])
    = ["Invalid value::spec.additionalSecurityGroups[0]"] /\
  map errString (awsValidateAdditionalSecurityGroups p ["sg-1"; "sg-1"; ""; ""])
    = ["Duplicate value::spec.additionalSecurityGroups[1]";
       "Invalid value::spec.additionalSecurityGroups[2]";
       "Duplicate value::spec.additionalSecurityGroups[3]";
       "Invalid value::spec.additionalSecurityGroups[3]"].
Proof. vm_compute. repeat split. Qed.

Example net_samples :
  net.ParseIP "10.0.0.10" = Some (net.IPv4 10 0 0 10) /\
  net.ParseIP "invalidip" = None /\ net.ParseIP "" = None /\
  net.ParseIP "10.0.0.256" = None /\ net.ParseIP "10.0.0" = None /\
  net.ParseIP "10.0.0.1.2" = None /\ net.ParseIP "010.0.0.1" = None /\
  net.ParseIP "::1" = Some [0;0;0;0;0;0;0;0;0;0;0;0;0;0;0;1] /\
  net.ParseIP "2001:db8::8:1" = Some [0x20;1;0x0d;0xb8;0;0;0;0;0;0;0;0;0;8;0;1] /\
  net.ParseIP "::ffff:10.0.0.10" = Some (net.IPv4 10 0 0 10) /\
  net.ParseIP "1:2:3:4:5:6:7:8" = Some [0;1;0;2;0;3;0;4;0;5;0;6;0;7;0;8] /\
  net.ParseIP "1:2:3:4:5:6:7::8" = None /\
  net.ParseIP "1:2:3:4:5:6:7:8:9" = None /\
  net.ParseIP "1:2:3:4:5:6:1.2.3.4" = Some [0;1;0;2;0;3;0;4;0;5;0;6;1;2;3;4] /\
  net.ParseIP "::" = Some (replicate 16 0) /\
  net.ParseIP "1::" = Some [0;1;0;0;0;0;0;0;0;0;0;0;0;0;0;0] /\
  net.ParseIP ":1" = None /\ net.ParseIP "1:::2" = None /\
  net.To4 (net.IPv4 10 0 0 10) = Some [10;0;0;10] /\
  net.To4 [0;0;0;0;0;0;0;0;0;0;0;0;0;0;0;1] = None /\
  net.ParseCIDR "10.0.0.0/24"
    = Some (net.IPv4 10 0 0 0,
            {| net.net_IP := [10;0;0;0]; net.Mask := [255;255;255;0] |}) /\
  net.ParseCIDR "10.0.0.77/20"
    = Some (net.IPv4 10 0 0 77,
            {| net.net_IP := [10;0;0;0]; net.Mask := [255;255;240;0] |}) /\
  net.ParseCIDR "10.0.0.0/33" = None /\ net.ParseCIDR "10.0.0.0" = None /\
  net.ParseCIDR "10.0.0.0/" = None /\ net.ParseCIDR "10.0.0.0/2x" = None /\
  (forall ip n, net.ParseIP "11.0.0.10" = Some ip ->
     net.ParseCIDR "10.0.0.0/24" = Some n -> net.Contains n.2 ip = false) /\
  (forall ip n, net.ParseIP "10.0.0.10" = Some ip ->
     net.ParseCIDR "10.0.0.0/24" = Some n -> net.Contains n.2 ip = true).
Proof.
  repeat split; try (vm_compute; reflexivity);
    intros ip n Hip Hn; vm_compute in Hip, Hn; simplify_eq; vm_compute; reflexivity.
Qed.

Example TestLoadBalancerSubnets :
  runLoadBalancerTest None None [binding "a" None None; binding "b" None None] [] = true /\
  runLoadBalancerTest None None
    [binding "a" (Some "10.0.0.10") None; binding "b" None None] [] = true /\
  runLoadBalancerTest None None [binding "" None None]
    ["Required value::spec.api.loadBalancer.subnets[0].name"] = true /\
  runLoadBalancerTest None None [binding "d" None None]
    ["Not found::spec.api.loadBalancer.subnets[0].name"] = true /\
  runLoadBalancerTest None None [binding "a" (Some "") None]
    ["Required value::spec.api.loadBalancer.subnets[0].privateIPv4Address"] = true /\
  runLoadBalancerTest None None [binding "a" None (Some "")]
    ["Required value::spec.api.loadBalancer.subnets[0].allocationID"] = true /\
  runLoadBalancerTest None None [binding "a" (Some "invalidip") None]
    ["Invalid value::spec.api.loadBalancer.subnets[0].privateIPv4Address"] = true /\
  runLoadBalancerTest None None [binding "a" (Some "11.0.0.10") None]
    ["Invalid value::spec.api.loadBalancer.subnets[0].privateIPv4Address"] = true /\
  runLoadBalancerTest None (Some kops.LoadBalancerClassClassic)
    [binding "a" (Some "10.0.0.10") None]
    ["Forbidden::spec.api.loadBalancer.subnets[0].privateIPv4Address"] = true /\
  runLoadBalancerTest None (Some kops.LoadBalancerClassClassic)
    [binding "a" None (Some "eipalloc-222ghi789")]
    ["Forbidden::spec.api.loadBalancer.subnets[0].allocationID"] = true /\
  runLoadBalancerTest (Some kops.LoadBalancerTypePublic) None
    [binding "a" (Some "10.0.0.10") None]
    ["Forbidden::spec.api.loadBalancer.subnets[0].privateIPv4Address"] = true /\
  runLoadBalancerTest (Some kops.LoadBalancerTypeInternal) None
    [binding "a" None (Some "eipalloc-222ghi789")]
    ["Forbidden::spec.api.loadBalancer.subnets[0].allocationID"] = true.
Proof. vm_compute. repeat split. Qed.

(** ** Strings *)

Lemma append_cons (c : ascii) (s t : string) :
  String c s +:+ t = String c (s +:+ t).
Proof. reflexivity. Qed.

Lemma append_nil (t : string) : "" +:+ t = t.
Proof. reflexivity. Qed.

Lemma append_length (s t : string) :
  String.length (s +:+ t) = (String.length s + String.length t)%nat.
Proof.
  induction s as [|c s IH]; [reflexivity |].
  rewrite append_cons. simpl. now rewrite IH.
Qed.

Lemma append_inj_r (s1 s2 t : string) : s1 +:+ t = s2 +:+ t -> s1 = s2.
Proof.
  revert s2. induction s1 as [|c s1 IH]; intros [|d s2] H.
  - reflexivity.
  - apply (f_equal String.length) in H.
    rewrite !append_length in H. simpl in H. lia.
  - apply (f_equal String.length) in H.
    rewrite !append_length in H. simpl in H. lia.
  - rewrite !append_cons in H. injection H as -> H. f_equal. now apply IH.
Qed.

Lemma append_assoc (s t u : string) : (s +:+ t) +:+ u = s +:+ t +:+ u.
Proof.
  induction s as [|c s IH]; [reflexivity |].
  rewrite !append_cons. now rewrite IH.
Qed.

(** ** Blank strings *)

Lemma bytes_length (s : string) : length (bytes s) = String.length s.
Proof. induction s as [|c s IH]; simpl; [reflexivity | now rewrite IH]. Qed.

Lemma substring_0_len (n : nat) (s : string) : String.substring n 0 s = "".
Proof.
  revert n. induction s as [|c s IH]; intros [|n]; simpl; try reflexivity.
  apply IH.
Qed.

Lemma substring_nonempty (n m : nat) (s : string) :
  (n < String.length s)%nat -> String.substring n (S m) s <> "".
Proof.
  revert n. induction s as [|c s IH]; intros n Hn; simpl in Hn; [lia |].
  destruct n as [|n]; simpl; [discriminate |]. apply IH. lia.
Qed.

Lemma asciiSpace_ascii (c : Z) :
  strings.asciiSpace c = true -> (utf8.RuneSelf <=? c) = false.
Proof.
  unfold strings.asciiSpace, utf8.RuneSelf. intros H.
  repeat (apply orb_true_iff in H as [H|H]); apply Z.eqb_eq in H; subst;
    reflexivity.
Qed.

(** On bytes of ASCII, the forward scan stops after the leading spaces. *)
Lemma scanStart_ascii (p : list Z) :
  Forall (fun c => c < utf8.RuneSelf) p ->
  forall start, exists k : nat,
    strings.scanStart p start = strings.Stop (start + k)
    /\ (k <= length p)%nat
    /\ Forall (fun c => strings.asciiSpace c = true) (take k p)
    /\ ((k < length p)%nat -> strings.asciiSpace (nth k p 0) = false).
Proof.
  induction 1 as [|c p Hc Hp IH]; intros start; simpl.
  - exists 0%nat. rewrite Nat.add_0_r.
    split; [reflexivity | split; [lia | split; [constructor | lia]]].
  - replace (utf8.RuneSelf <=? c) with false by (symmetry; apply Z.leb_gt; lia).
    destruct (strings.asciiSpace c) eqn:Hsp; simpl.
    + destruct (IH (S start)) as (k & Hk & Hle & Hall & Hnext).
      exists (S k). rewrite Hk. split; [| split; [| split]].
      * f_equal. lia.
      * lia.
      * simpl. now constructor.
      * simpl. intros Hlt. apply Hnext. lia.
    + exists 0%nat. rewrite Nat.add_0_r.
      split; [reflexivity | split; [lia | split; [constructor |]]].
      now intros _.
Qed.

(** The backward scan does not pass a byte that is not a space. *)
Lemma scanStop_ascii (rp : list Z) :
  Forall (fun c => c < utf8.RuneSelf) rp ->
  forall stop, exists k : nat,
    strings.scanStop rp stop = strings.Stop (stop - k)
    /\ (k <= length rp)%nat
    /\ forall j, (j < length rp)%nat -> strings.asciiSpace (nth j rp 0) = false ->
                 (k <= j)%nat.
Proof.
  induction 1 as [|c rp Hc Hp IH]; intros stop; simpl.
  - exists 0%nat. rewrite Nat.sub_0_r.
    split; [reflexivity | split; [lia |]]. intros; lia.
  - replace (utf8.RuneSelf <=? c) with false by (symmetry; apply Z.leb_gt; lia).
    destruct (strings.asciiSpace c) eqn:Hsp; simpl.
    + destruct (IH (stop - 1)%nat) as (k & Hk & Hle & Hmin).
      exists (S k). rewrite Hk. split; [| split].
      * f_equal. lia.
      * lia.
      * intros [|j] Hj Hns; simpl in Hns; [congruence |].
        apply le_n_S, Hmin; [lia | assumption].
    + exists 0%nat. rewrite Nat.sub_0_r.
      split; [reflexivity | split; [lia |]]. intros; lia.
Qed.

(** A string of ASCII bytes is blank exactly when all its bytes are
    among tab, line feed, vertical tab, form feed, carriage return and
    space. *)
Lemma TrimSpace_empty_ascii (s : string) :
  Forall (fun c => c < utf8.RuneSelf) (bytes s) ->
  strings.TrimSpace s = ""
  <-> Forall (fun c => strings.asciiSpace c = true) (bytes s).
Proof.
  intros Hascii. unfold strings.TrimSpace.
  destruct (scanStart_ascii (bytes s) Hascii 0) as (k & Hk & Hle & Hall & Hnext).
  rewrite Hk. simpl (0 + k)%nat.
  assert (Hrev : Forall (fun c => c < utf8.RuneSelf) (rev (drop k (bytes s)))).
  { apply Forall_rev. now apply Forall_drop. }
  destruct (scanStop_ascii _ Hrev (String.length s)) as (m & Hm & Hmle & Hmin).
  rewrite Hm. rewrite length_rev, length_drop, bytes_length in Hmle, Hmin.
  rewrite bytes_length in Hle, Hnext.
  destruct (decide (k = String.length s)) as [->|Hne].
  - split.
    + intros _. rewrite <- bytes_length, firstn_all in Hall. exact Hall.
    + intros _. unfold slice.
      replace (String.length s - m - String.length s)%nat with 0%nat by lia.
      apply substring_0_len.
  - assert (Hlt : (k < String.length s)%nat) by lia.
    specialize (Hnext Hlt). split.
    + intros Hempty. exfalso.
      assert (Hm' : (m <= String.length s - k - 1)%nat).
      { apply Hmin; [lia |].
        rewrite rev_nth by (rewrite length_drop, bytes_length; lia).
        rewrite length_drop, bytes_length.
        replace (String.length s - k - S (String.length s - k - 1))%nat
          with 0%nat by lia.
        rewrite <- (Nat.add_0_r k) in Hnext.
        rewrite nth_lookup, lookup_drop, <- nth_lookup. exact Hnext. }
      unfold slice in Hempty.
      replace (String.length s - m - k)%nat
        with (S (String.length s - m - k - 1)) in Hempty by lia.
      now apply substring_nonempty in Hempty.
    + intros Hsp. exfalso.
      rewrite Forall_forall in Hsp.
      assert (Hin : nth k (bytes s) 0 ∈ bytes s).
      { apply list_elem_of_In, nth_In. rewrite bytes_length. lia. }
      apply Hsp in Hin. congruence.
Qed.

(** ** Paths *)

Lemma String_Index (p : field.Path) (i : Z) :
  field.String (field.Index p i) = field.String p +:+ "[" +:+ pretty i +:+ "]".
Proof. reflexivity. Qed.

Lemma String_Index_inj (p : field.Path) (i j : Z) :
  field.String (field.Index p i) = field.String (field.Index p j) -> i = j.
Proof.
  rewrite !String_Index. intros H.
  apply String.app_inj in H. injection H as H.
  rewrite !append_nil in H.
  apply append_inj_r in H. now apply pretty_Z_inj in H.
Qed.

Lemma String_Child (p : field.Path) (name : string) :
  name <> "" ->
  field.String (field.Child p name) = field.String p +:+ "." +:+ name.
Proof.
  intros H. simpl. destruct (String.eqb_spec name ""); [contradiction | reflexivity].
Qed.

(** ** Additional security groups *)

Lemma awsValidateAdditionalSecurityGroups_range_entries
      (fieldPath : field.Path) (groups : list string) :
  forall (pre : list string) (allErrs : field.ErrorList),
    awsValidateAdditionalSecurityGroups_range fieldPath (Z.of_nat (length pre))
      groups (list_to_set pre) allErrs
    = allErrs ++ concat (imap (fun k s =>
        securityGroupErrs fieldPath (Z.of_nat (length pre + k))
                          (pre ++ take k groups) s) groups).
Proof.
  induction groups as [|s groups IH]; intros pre allErrs.
  - simpl. now rewrite app_nil_r.
  - assert (Hnames : ({[ s ]} ∪ list_to_set pre : gset string)
                     = list_to_set (pre ++ [s])).
    { rewrite list_to_set_app_L. simpl.
      now rewrite union_empty_r_L, (comm_L (∪)). }
    assert (Hi : Z.of_nat (length pre) + 1 = Z.of_nat (length (pre ++ [s]))).
    { rewrite length_app. simpl. lia. }
    assert (Hrest : forall acc,
      awsValidateAdditionalSecurityGroups_range fieldPath
        (Z.of_nat (length pre) + 1) groups ({[ s ]} ∪ list_to_set pre) acc
      = acc ++ concat (imap (fun k s' =>
          securityGroupErrs fieldPath (Z.of_nat (length pre + S k))
                            (pre ++ take (S k) (s :: groups)) s') groups)).
    { intros acc. rewrite Hnames, Hi, IH. f_equal. f_equal.
      apply imap_ext. intros k s' _. simpl.
      rewrite length_app, <- app_assoc. simpl.
      now replace (length pre + 1 + k)%nat with (length pre + S k)%nat by lia. }
    cbn [awsValidateAdditionalSecurityGroups_range imap concat].
    unfold securityGroupErrs at 1. rewrite Nat.add_0_r, take_0, app_nil_r.
    unfold msgEmptyGroup, msgGroupFormat.
    destruct (decide (s ∈ (list_to_set pre : gset string))) as [Hin|Hin].
    + rewrite bool_decide_eq_true_2 by (now apply elem_of_list_to_set in Hin).
      destruct (String.eqb (strings.TrimSpace s) ""); cbn zeta.
      * rewrite Hrest. unfold compose. now rewrite <- !app_assoc.
      * destruct (negb (strings.HasPrefix s "sg-")); rewrite Hrest;
          unfold compose; now rewrite <- !app_assoc.
    + rewrite bool_decide_eq_false_2
        by (intros H; apply Hin; now apply elem_of_list_to_set).
      destruct (String.eqb (strings.TrimSpace s) ""); cbn zeta.
      * rewrite Hrest. unfold compose. now rewrite <- !app_assoc.
      * destruct (negb (strings.HasPrefix s "sg-")); rewrite Hrest;
          unfold compose; now rewrite <- !app_assoc.
Qed.

Lemma awsValidateAdditionalSecurityGroups_entries
      (fieldPath : field.Path) (groups : list string) :
  awsValidateAdditionalSecurityGroups fieldPath groups
  = concat (imap (fun k s =>
      securityGroupErrs fieldPath (Z.of_nat k) (take k groups) s) groups).
Proof.
  unfold awsValidateAdditionalSecurityGroups.
  exact (awsValidateAdditionalSecurityGroups_range_entries fieldPath groups [] []).
Qed.

Lemma elem_of_concat_imap {A B : Type} (f : nat -> A -> list B) (l : list A) (e : B) :
  e ∈ concat (imap f l) <-> exists k x, l !! k = Some x /\ e ∈ f k x.
Proof.
  rewrite list_elem_of_In, in_concat. split.
  - intros (y & Hy & He). apply list_elem_of_In, elem_of_lookup_imap in Hy.
    destruct Hy as (k & x & -> & Hk). exists k, x. split; [assumption |].
    now apply list_elem_of_In.
  - intros (k & x & Hk & He). exists (f k x). split.
    + apply list_elem_of_In, elem_of_lookup_imap. now exists k, x.
    + now apply list_elem_of_In.
Qed.

Lemma securityGroupErrs_Field (fieldPath : field.Path) (i : Z)
      (earlier : list string) (s : string) (e : field.Error) :
  e ∈ securityGroupErrs fieldPath i earlier s ->
  field.Field e = field.String (field.Index fieldPath i).
Proof.
  unfold securityGroupErrs. intros H.
  apply elem_of_app in H as [H|H].
  - destruct (bool_decide _); [| now apply elem_of_nil in H].
    apply list_elem_of_singleton in H. now subst.
  - destruct (String.eqb _ _); [| destruct (negb _)];
      try (now apply elem_of_nil in H);
      apply list_elem_of_singleton in H; now subst.
Qed.

(** The errors reported at the path of entry [i] are those of
    [securityGroupErrs] for that entry, whatever the other entries are. *)
Lemma awsValidateAdditionalSecurityGroups_at
      (fieldPath : field.Path) (groups : list string) (i : nat) (s : string)
      (e : field.Error) :
  groups !! i = Some s ->
  (e ∈ awsValidateAdditionalSecurityGroups fieldPath groups
   /\ field.Field e = field.String (field.Index fieldPath (Z.of_nat i)))
  <-> e ∈ securityGroupErrs fieldPath (Z.of_nat i) (take i groups) s.
Proof.
  intros Hi. rewrite awsValidateAdditionalSecurityGroups_entries,
    elem_of_concat_imap. split.
  - intros [(k & x & Hk & He) Hf].
    pose proof (securityGroupErrs_Field _ _ _ _ _ He) as Hf'.
    rewrite Hf in Hf'. apply String_Index_inj, Nat2Z.inj in Hf'. subst k.
    now replace s with x by congruence.
  - intros He. split; [now exists i, s |].
    now apply securityGroupErrs_Field in He.
Qed.

(** C2.  Additional security groups: an entry that repeats an earlier one
    gets a Duplicate error at its index; a blank entry gets the
    "cannot be empty" Invalid error at its index and no prefix error;
    an entry that is not blank and lacks the prefix "sg-" gets the format
    Invalid error at its index and no "cannot be empty" error.  This holds
    at every index, whatever the entries before it.  The four lists of
    the specification produce exactly the errors it names. *)
Theorem additional_security_groups_rule
        (fieldPath : field.Path) (groups : list string) :
  let errs := awsValidateAdditionalSecurityGroups fieldPath groups in
  (forall (i : nat) (s : string),
      groups !! i = Some s ->
      let path := field.Index fieldPath (Z.of_nat i) in
      (s ∈ take i groups -> field.Duplicate path (field.VString s) ∈ errs)
      /\ (strings.TrimSpace s = "" ->
          field.Invalid path (field.VString s) msgEmptyGroup ∈ errs
          /\ forall v, field.Invalid path v msgGroupFormat ∉ errs)
      /\ (strings.TrimSpace s <> "" -> strings.HasPrefix s "sg-" = false ->
          field.Invalid path (field.VString s) msgGroupFormat ∈ errs
          /\ forall v, field.Invalid path v msgEmptyGroup ∉ errs))
  /\ awsValidateAdditionalSecurityGroups fieldPath ["sg-1234abcd"] = []
  /\ awsValidateAdditionalSecurityGroups fieldPath ["sg-1234abcd"; ""]
     = [field.Invalid (field.Index fieldPath 1) (field.VString "") msgEmptyGroup]
  /\ awsValidateAdditionalSecurityGroups fieldPath [" "; ""]
     = [field.Invalid (field.Index fieldPath 0) (field.VString " ") msgEmptyGroup;
        field.Invalid (field.Index fieldPath 1) (field.VString "") msgEmptyGroup]
  /\ awsValidateAdditionalSecurityGroups fieldPath ["--invalid"]
     = [field.Invalid (field.Index fieldPath 0) (field.VString "--invalid")
          msgGroupFormat].
Proof.
  intros errs. split; [| repeat split; vm_compute; reflexivity].
  intros i s Hi path. subst errs path.
  pose proof (fun e => awsValidateAdditionalSecurityGroups_at
                         fieldPath groups i s e Hi) as Hat.
  unfold securityGroupErrs in Hat. split; [| split].
  - intros Hdup. apply (Hat (field.Duplicate _ _)).
    rewrite bool_decide_eq_true_2 by assumption.
    apply elem_of_app. left. apply list_elem_of_singleton. reflexivity.
  - intros Hblank. split.
    + apply (Hat (field.Invalid _ _ _)). rewrite Hblank, String.eqb_refl.
      apply elem_of_app. right. apply list_elem_of_singleton. reflexivity.
    + intros v Hv.
      assert (Hv' := proj1 (Hat _) (conj Hv eq_refl)).
      rewrite Hblank, String.eqb_refl in Hv'.
      apply elem_of_app in Hv' as [Hv'|Hv'].
      * destruct (bool_decide _); [| now apply elem_of_nil in Hv'].
        apply list_elem_of_singleton in Hv'. discriminate Hv'.
      * apply list_elem_of_singleton in Hv'. discriminate Hv'.
  - intros Hfilled Hprefix. apply String.eqb_neq in Hfilled. split.
    + apply (Hat (field.Invalid _ _ _)). rewrite Hfilled, Hprefix.
      apply elem_of_app. right. apply list_elem_of_singleton. reflexivity.
    + intros v Hv.
      assert (Hv' := proj1 (Hat _) (conj Hv eq_refl)).
      rewrite Hfilled, Hprefix in Hv'.
      apply elem_of_app in Hv' as [Hv'|Hv'].
      * destruct (bool_decide _); [| now apply elem_of_nil in Hv'].
        apply list_elem_of_singleton in Hv'. discriminate Hv'.
      * apply list_elem_of_singleton in Hv'. discriminate Hv'.
Qed.

Lemma additional_security_groups_rule_witness :
  let p := field.NewPath "spec" ["additionalSecurityGroups"] in
  field.Duplicate (field.Index p 2) (field.VString "")
    ∈ awsValidateAdditionalSecurityGroups p ["--invalid"; ""; ""]
  /\ field.Invalid (field.Index p 2) (field.VString "") msgEmptyGroup
    ∈ awsValidateAdditionalSecurityGroups p ["--invalid"; ""; ""]
  /\ field.Invalid (field.Index p 0) (field.VString "--invalid") msgGroupFormat
    ∈ awsValidateAdditionalSecurityGroups p ["--invalid"; ""; ""].
Proof.
  intros p.
  destruct (additional_security_groups_rule p ["--invalid"; ""; ""]) as [H _].
  destruct (H 2%nat "" eq_refl) as (Hdup & Hblank & _).
  destruct (H 0%nat "--invalid" eq_refl) as (_ & _ & Hformat).
  split; [| split].
  - apply Hdup. vm_compute. apply list_elem_of_In. simpl. tauto.
  - apply Hblank. vm_compute. reflexivity.
  - apply Hformat; [vm_compute; discriminate | vm_compute; reflexivity].
Defined.

(** ** Machine types *)

Lemma Split1_not_nil (s : string) (sep : ascii) : strings.Split1 s sep <> [].
Proof.
  destruct s as [|c s]; simpl; [discriminate |].
  destruct (Ascii.eqb c sep); [discriminate |].
  destruct (strings.Split1 s sep); discriminate.
Qed.

(** Joining the fields with the separator gives the string back. *)
Lemma Split1_concat (s : string) (sep : ascii) :
  String.concat (String sep "") (strings.Split1 s sep) = s.
Proof.
  induction s as [|c s IH]; [reflexivity |].
  simpl. destruct (Ascii.eqb_spec c sep) as [->|Hne].
  - pose proof (Split1_not_nil s sep) as Hnn.
    destruct (strings.Split1 s sep) as [|w ws]; [contradiction |].
    simpl in *. now rewrite IH.
  - pose proof (Split1_not_nil s sep) as Hnn.
    destruct (strings.Split1 s sep) as [|w ws]; [contradiction |].
    simpl in *. destruct ws as [|w' ws].
    + now rewrite IH.
    + rewrite append_cons. now rewrite IH.
Qed.

(** No field contains the separator. *)
Lemma Split1_no_sep (s : string) (sep : ascii) :
  Forall (fun w => sep ∉ list_ascii_of_string w) (strings.Split1 s sep).
Proof.
  induction s as [|c s IH]; simpl.
  - constructor; [apply not_elem_of_nil | constructor].
  - destruct (Ascii.eqb_spec c sep) as [->|Hne].
    + constructor; [apply not_elem_of_nil | assumption].
    + destruct (strings.Split1 s sep) as [|w ws].
      * constructor; [| constructor]. simpl.
        intros H. apply elem_of_cons in H as [H|H]; [congruence |].
        now apply elem_of_nil in H.
      * inversion IH as [|? ? Hw Hws]; subst. constructor; [| assumption].
        simpl. intros H. apply elem_of_cons in H as [H|H]; [congruence | auto].
Qed.

Lemma awsValidateInstanceType_range_filter
      (fieldPath : field.Path) (cloud : awsup.AWSCloud) (typs : list string) :
  forall allErrs,
    awsValidateInstanceType_range fieldPath cloud typs allErrs
    = allErrs ++ map (fun typ => field.Invalid fieldPath (field.VString typ)
                                               msgMachineType)
                     (List.filter (unresolvable cloud) typs).
Proof.
  induction typs as [|typ typs IH]; intros allErrs; simpl.
  - now rewrite app_nil_r.
  - unfold unresolvable at 1.
    destruct (awsup.DescribeInstanceType cloud typ) as [info [msg|]]; simpl.
    + rewrite IH. now rewrite <- app_assoc.
    + apply IH.
Qed.

(** C5.  Machine types: without a capability port, or for an empty value,
    there is no error.  Otherwise the value is split at its commas, and
    the result holds, in the order of the candidates, one Invalid error
    per candidate whose lookup failed, each at the path of the field
    itself and carrying the candidate; the lookups that follow a failed
    one are still made.  The candidates joined by commas are the value,
    and none of them contains a comma. *)
Theorem machine_type_rule
        (fieldPath : field.Path) (instanceType : string)
        (cloud : option awsup.AWSCloud) :
  awsValidateInstanceType fieldPath instanceType cloud
  = match cloud with
    | None => []
    | Some port =>
      if String.eqb instanceType "" then []
      else map (fun typ => field.Invalid fieldPath (field.VString typ)
                                         msgMachineType)
               (List.filter (unresolvable port) (strings.Split1 instanceType ","))
    end
  /\ String.concat "," (strings.Split1 instanceType ",") = instanceType
  /\ Forall (fun typ => ","%char ∉ list_ascii_of_string typ)
            (strings.Split1 instanceType ",")
  /\ Forall (fun e => field.Type_ e = field.ErrorTypeInvalid
                      /\ field.Field e = field.String fieldPath)
            (awsValidateInstanceType fieldPath instanceType cloud).
Proof.
  assert (Heq : awsValidateInstanceType fieldPath instanceType cloud
    = match cloud with
      | None => []
      | Some port =>
        if String.eqb instanceType "" then []
        else map (fun typ => field.Invalid fieldPath (field.VString typ)
                                           msgMachineType)
                 (List.filter (unresolvable port)
                              (strings.Split1 instanceType ","))
      end).
  { unfold awsValidateInstanceType. destruct cloud as [port|]; [| reflexivity].
    destruct (String.eqb instanceType ""); [reflexivity |]. simpl negb. cbv iota.
    now rewrite awsValidateInstanceType_range_filter. }
  split; [exact Heq |]. split; [apply Split1_concat |].
  split; [apply Split1_no_sep |].
  rewrite Heq. destruct cloud as [port|]; [| constructor].
  destruct (String.eqb instanceType ""); [constructor |].
  apply Forall_forall. intros e He. apply list_elem_of_In, in_map_iff in He.
  destruct He as (typ & <- & _). split; reflexivity.
Qed.

Example machine_type_samples :
  let p := field.NewPath "test-nodes" ["spec"; "machineType"] in
  awsValidateInstanceType p "t2.micro" (Some mockCloud) = [] /\
  map errString (awsValidateInstanceType p "t2.invalidType" (Some mockCloud))
    = ["Invalid value::test-nodes.spec.machineType"] /\
  awsValidateInstanceType p "bad1,t2.micro,,bad2" (Some mockCloud)
    = [field.Invalid p (field.VString "bad1") msgMachineType;
       field.Invalid p (field.VString "") msgMachineType;
       field.Invalid p (field.VString "bad2") msgMachineType] /\
  awsValidateInstanceType p "t2.invalidType" None = [] /\
  awsValidateInstanceType p "" (Some mockCloud) = [].
Proof. vm_compute. repeat split. Qed.

(** ** The enumeration check *)

Lemma existsb_eqb_elem_of (s : string) (l : list string) :
  existsb (String.eqb s) l = bool_decide (s ∈ l).
Proof.
  induction l as [|x l IH]; cbn [existsb].
  - symmetry. apply bool_decide_eq_false_2, not_elem_of_nil.
  - rewrite IH. destruct (String.eqb_spec s x) as [->|Hne]; cbn [orb].
    + symmetry. apply bool_decide_eq_true_2. left.
    + apply bool_decide_ext. rewrite elem_of_cons. tauto.
Qed.

Lemma IsValidValue_elem_of (fldPath : field.Path) (v : option string)
      (validValues : list string) :
  IsValidValue fldPath v validValues
  = match v with
    | Some s =>
      if bool_decide (s ∈ validValues) then []
      else [field.NotSupported fldPath (field.VString s) validValues]
    | None => []
    end.
Proof. destruct v as [s|]; simpl; [| reflexivity]. now rewrite existsb_eqb_elem_of. Qed.

(** ** Spot duration *)

Lemma validSpotDurations_pretty :
  validSpotDurations = map strconv.FormatInt10 supportedSpotDurations.
Proof. vm_compute. reflexivity. Qed.

Lemma FormatInt10_elem_of (d : Z) (l : list Z) :
  strconv.FormatInt10 d ∈ map strconv.FormatInt10 l <-> d ∈ l.
Proof.
  rewrite list_elem_of_fmap. split.
  - intros (y & Heq & Hy). apply pretty_Z_inj in Heq. now subst.
  - intros Hd. now exists d.
Qed.

(** C7.  Spot duration: an absent value gives no error; a present value
    among 60, 120, 180, 240, 300 and 360 gives no error; any other
    present value gives exactly one Unsupported error at the path of the
    field.  For the instance group of the tests, 120 gives no error and
    each of 55, 125 and 380 gives the Unsupported error at
    spotDurationInMinutes. *)
Theorem spot_duration_rule (fieldPath : field.Path) (ig : kops.InstanceGroup) :
  awsValidateSpotDurationInMinute fieldPath ig
  = match kops.SpotDurationInMinutes (kops.ig_Spec ig) with
    | None => []
    | Some d =>
      if bool_decide (d ∈ supportedSpotDurations) then []
      else [field.NotSupported fieldPath (field.VString (strconv.FormatInt10 d))
              validSpotDurations]
    end
  /\ (forall strategies,
        awsValidateInstanceGroup strategies
          (instanceGroupWith "test-nodes" (spotSpec (Some 120))) (Some mockCloud)
        = [])
  /\ (forall strategies,
        map errString
            (awsValidateInstanceGroup strategies
               (instanceGroupWith "test-nodes" (spotSpec (Some 55)))
               (Some mockCloud))
        = ["Unsupported value::test-nodes.spec.spotDurationInMinutes"])
  /\ (forall strategies,
        map errString
            (awsValidateInstanceGroup strategies
               (instanceGroupWith "test-nodes" (spotSpec (Some 125)))
               (Some mockCloud))
        = ["Unsupported value::test-nodes.spec.spotDurationInMinutes"])
  /\ (forall strategies,
        map errString
            (awsValidateInstanceGroup strategies
               (instanceGroupWith "test-nodes" (spotSpec (Some 380)))
               (Some mockCloud))
        = ["Unsupported value::test-nodes.spec.spotDurationInMinutes"]).
Proof.
  split; [| repeat split; intros strategies; vm_compute; reflexivity].
  unfold awsValidateSpotDurationInMinute.
  destruct (kops.SpotDurationInMinutes (kops.ig_Spec ig)) as [d|]; [| reflexivity].
  rewrite app_nil_l, IsValidValue_elem_of.
  rewrite (bool_decide_ext _ (d ∈ supportedSpotDurations)); [reflexivity |].
  rewrite validSpotDurations_pretty. apply FormatInt10_elem_of.
Qed.

(** ** Instance metadata options *)

Lemma awsValidateInstanceMetadata_parts
      (fieldPath : field.Path) (instanceMetadata : kops.InstanceMetadataOptions) :
  awsValidateInstanceMetadata fieldPath instanceMetadata
  = metadataErrs fieldPath instanceMetadata.
Proof.
  unfold awsValidateInstanceMetadata, metadataErrs.
  destruct instanceMetadata as [hops tokens]; simpl.
  rewrite IsValidValue_elem_of.
  assert (Hhops : forall h : Z,
             ((h <? 1) || (64 <? h)) = negb (bool_decide (1 <= h <= 64))).
  { intros h. destruct (bool_decide_reflect (1 <= h <= 64)); simpl; lia. }
  destruct tokens as [tokens|]; destruct hops as [h|]; simpl;
    rewrite ?Hhops, ?app_nil_r; try reflexivity;
    destruct (bool_decide (1 <= h <= 64)); simpl; now rewrite ?app_nil_r.
Qed.

(** C8.  Instance metadata options: the errors are those of httpTokens
    followed by those of httpPutResponseHopLimit.  A present httpTokens
    outside "optional" and "required" gives one Unsupported error at
    .httpTokens; a present hop limit below 1 or above 64 gives one Invalid
    error at .httpPutResponseHopLimit; absent fields and values within
    these sets give nothing.  The two option sets of the specification
    give exactly the error it names. *)
Theorem instance_metadata_rule
        (fieldPath : field.Path) (instanceMetadata : kops.InstanceMetadataOptions) :
  awsValidateInstanceMetadata fieldPath instanceMetadata
  = match kops.HTTPTokens instanceMetadata with
    | Some tokens =>
      if bool_decide (tokens ∈ ["optional"; "required"]) then []
      else [field.NotSupported (field.Child fieldPath "httpTokens")
              (field.VString tokens) ["optional"; "required"]]
    | None => []
    end
    ++ match kops.HTTPPutResponseHopLimit instanceMetadata with
       | Some hops =>
         if bool_decide (1 <= hops <= 64) then []
         else [field.Invalid (field.Child fieldPath "httpPutResponseHopLimit")
                 (field.VInt64Ptr (Some hops)) msgHopLimit]
       | None => []
       end
  /\ map errString (awsValidateInstanceMetadata
                      (field.NewPath "spec" ["instanceMetadata"])
                      (metadataOptions None (Some "abc")))
     = ["Unsupported value::spec.instanceMetadata.httpTokens"]
  /\ map errString (awsValidateInstanceMetadata
                      (field.NewPath "spec" ["instanceMetadata"])
                      (metadataOptions (Some 1) (Some "abc")))
     = ["Unsupported value::spec.instanceMetadata.httpTokens"]
  /\ map errString (awsValidateInstanceMetadata
                      (field.NewPath "spec" ["instanceMetadata"])
                      (metadataOptions (Some (-1)) (Some "required")))
     = ["Invalid value::spec.instanceMetadata.httpPutResponseHopLimit"].
Proof.
  split; [apply awsValidateInstanceMetadata_parts |].
  repeat split; vm_compute; reflexivity.
Qed.

(** ** Mixed-instances policy *)

Lemma awsValidateMixedInstancesPolicy_range_entries
      (path : field.Path) (cloud : option awsup.AWSCloud)
      (instances : list string) :
  forall (n : nat) (errs : field.ErrorList),
    awsValidateMixedInstancesPolicy_range path cloud (Z.of_nat n) instances errs
    = errs ++ concat (imap (fun k x =>
        awsValidateInstanceType
          (field.Index (field.Child path "instances") (Z.of_nat (n + k))) x cloud)
        instances).
Proof.
  induction instances as [|x instances IH]; intros n errs.
  - simpl. now rewrite app_nil_r.
  - cbn [awsValidateMixedInstancesPolicy_range imap concat].
    replace (Z.of_nat n + 1) with (Z.of_nat (S n)) by lia.
    rewrite IH, Nat.add_0_r, <- app_assoc. f_equal. f_equal. f_equal.
    apply imap_ext. intros k y _. simpl.
    now replace (S (n + k)) with (n + S k)%nat by lia.
Qed.

Lemma awsValidateMixedInstancesPolicy_parts
      (strategies : list string) (path : field.Path)
      (spec : kops.MixedInstancesPolicySpec) (ig : kops.InstanceGroup)
      (cloud : option awsup.AWSCloud) :
  awsValidateMixedInstancesPolicy strategies path spec ig cloud
  = mixedInstancesErrs strategies path spec ig cloud.
Proof.
  unfold awsValidateMixedInstancesPolicy, mixedInstancesErrs.
  rewrite (awsValidateMixedInstancesPolicy_range_entries path cloud _ 0%nat).
  rewrite app_nil_l.
  assert (Hlt : forall a b : Z, (a <? b) = bool_decide (a < b)).
  { intros a b. destruct (bool_decide_reflect (a < b)); lia. }
  set (inst := concat _). set (strat := IsValidValue _ _ _).
  destruct spec as [instances base above strategy]; simpl.
  destruct base as [base|]; destruct above as [above|]; simpl;
    rewrite ?Hlt;
    repeat match goal with
           | |- context [bool_decide ?P] => destruct (bool_decide P)
           end;
    simpl; rewrite ?app_nil_r, <- ?app_assoc; reflexivity.
Qed.

(** C9.  Mixed-instances policy: the errors are, in this order, those of
    the machine-type check of each listed instance type at the path
    .instances[i]; for a present onDemandBase, an Invalid error when it is
    negative and an Invalid error when it exceeds the maximum size of the
    instance group; for a present onDemandAboveBase, an Invalid error when
    it is below 0 and one when it is above 100; and the result of the
    enumeration check of spotAllocationStrategy against the table of
    strategies, which is empty for an absent value. *)
Theorem mixed_instances_policy_rule
        (strategies : list string) (path : field.Path)
        (spec : kops.MixedInstancesPolicySpec) (ig : kops.InstanceGroup)
        (cloud : option awsup.AWSCloud) :
  awsValidateMixedInstancesPolicy strategies path spec ig cloud
  = concat (imap (fun i x =>
      awsValidateInstanceType
        (field.Index (field.Child path "instances") (Z.of_nat i)) x cloud)
      (kops.Instances spec))
    ++ match kops.OnDemandBase spec with
       | Some base =>
         (if bool_decide (base < 0)
          then [field.Invalid (field.Child path "onDemandBase")
                  (field.VInt64Ptr (Some base)) "cannot be less than zero"]
          else [])
         ++ (if bool_decide (fi.Int32Value (kops.MaxSize (kops.ig_Spec ig)) < base)
             then [field.Invalid (field.Child path "onDemandBase")
                     (field.VInt64Ptr (Some base)) "cannot be greater than max size"]
             else [])
       | None => []
       end
    ++ match kops.OnDemandAboveBase spec with
       | Some above =>
         (if bool_decide (above < 0)
          then [field.Invalid (field.Child path "onDemandAboveBase")
                  (field.VInt64Ptr (Some above)) "cannot be less than 0"]
          else [])
         ++ (if bool_decide (100 < above)
             then [field.Invalid (field.Child path "onDemandAboveBase")
                     (field.VInt64Ptr (Some above)) "cannot be greater than 100"]
             else [])
       | None => []
       end
    ++ match kops.SpotAllocationStrategy spec with
       | Some strategy =>
         if bool_decide (strategy ∈ strategies) then []
         else [field.NotSupported (field.Child path "spotAllocationStrategy")
                 (field.VString strategy) strategies]
       | None => []
       end.
Proof.
  rewrite awsValidateMixedInstancesPolicy_parts. unfold mixedInstancesErrs.
  now rewrite IsValidValue_elem_of.
Qed.

(** ** The paths of the instance-group pass *)

Lemma awsValidateInstanceType_Field (fieldPath : field.Path) (instanceType : string)
      (cloud : option awsup.AWSCloud) :
  Forall (fun e => field.Field e = field.String fieldPath)
         (awsValidateInstanceType fieldPath instanceType cloud).
Proof.
  unfold awsValidateInstanceType. destruct cloud as [port|]; [| constructor].
  destruct (negb _); [| constructor].
  rewrite awsValidateInstanceType_range_filter. simpl.
  apply Forall_forall. intros e He. apply list_elem_of_In, in_map_iff in He.
  now destruct He as (typ & <- & _).
Qed.

Lemma IsValidValue_Field (fldPath : field.Path) (v : option string)
      (validValues : list string) :
  Forall (fun e => field.Field e = field.String fldPath)
         (IsValidValue fldPath v validValues).
Proof.
  rewrite IsValidValue_elem_of. destruct v as [s|]; [| constructor].
  destruct (bool_decide _); repeat constructor.
Qed.

Lemma awsValidateSpotDurationInMinute_Field (fieldPath : field.Path)
      (ig : kops.InstanceGroup) :
  Forall (fun e => field.Field e = field.String fieldPath)
         (awsValidateSpotDurationInMinute fieldPath ig).
Proof.
  unfold awsValidateSpotDurationInMinute.
  destruct (kops.SpotDurationInMinutes _); [| constructor].
  apply IsValidValue_Field.
Qed.

Lemma awsValidateInstanceInterruptionBehavior_Field (fieldPath : field.Path)
      (ig : kops.InstanceGroup) :
  Forall (fun e => field.Field e = field.String fieldPath)
         (awsValidateInstanceInterruptionBehavior fieldPath ig).
Proof.
  unfold awsValidateInstanceInterruptionBehavior.
  destruct (kops.InstanceInterruptionBehavior _); [| constructor].
  apply IsValidValue_Field.
Qed.

Lemma awsValidateAdditionalSecurityGroups_Field (fieldPath : field.Path)
      (groups : list string) :
  Forall (fun e => exists i : Z,
              field.Field e = field.String fieldPath +:+ "[" +:+ pretty i +:+ "]")
         (awsValidateAdditionalSecurityGroups fieldPath groups).
Proof.
  apply Forall_forall. intros e He.
  rewrite awsValidateAdditionalSecurityGroups_entries in He.
  apply elem_of_concat_imap in He as (k & s & _ & He).
  exists (Z.of_nat k). now apply securityGroupErrs_Field in He.
Qed.

Lemma below_Child (p : field.Path) (name : string) (e : field.Error) :
  name <> "" -> field.Field e = field.String (field.Child p name) -> below p e.
Proof. intros Hn He. exists name. now rewrite He, String_Child. Qed.

Lemma Forall_below_Child (p : field.Path) (name : string) (l : field.ErrorList) :
  name <> "" ->
  Forall (fun e => field.Field e = field.String (field.Child p name)) l ->
  Forall (below p) l.
Proof.
  intros Hn Hl. eapply Forall_impl; [exact Hl |].
  intros e. now apply below_Child.
Qed.

Lemma awsValidateInstanceMetadata_below (fieldPath : field.Path)
      (instanceMetadata : kops.InstanceMetadataOptions) :
  Forall (below fieldPath) (awsValidateInstanceMetadata fieldPath instanceMetadata).
Proof.
  rewrite awsValidateInstanceMetadata_parts. unfold metadataErrs.
  apply Forall_app. split.
  - destruct (kops.HTTPTokens _) as [tokens|]; [| constructor].
    destruct (bool_decide _); [constructor |]. repeat constructor.
    now apply (below_Child _ "httpTokens").
  - destruct (kops.HTTPPutResponseHopLimit _) as [h|]; [| constructor].
    destruct (bool_decide _); [constructor |]. repeat constructor.
    now apply (below_Child _ "httpPutResponseHopLimit").
Qed.

Lemma awsValidateMixedInstancesPolicy_below
      (strategies : list string) (path : field.Path)
      (spec : kops.MixedInstancesPolicySpec) (ig : kops.InstanceGroup)
      (cloud : option awsup.AWSCloud) :
  Forall (below path) (awsValidateMixedInstancesPolicy strategies path spec ig cloud).
Proof.
  rewrite awsValidateMixedInstancesPolicy_parts. unfold mixedInstancesErrs.
  assert (Hone : forall name v msg, name <> "" ->
             below path (field.Invalid (field.Child path name) v msg)).
  { intros name v msg Hn. now apply (below_Child _ name). }
  repeat (apply Forall_app; split).
  - apply Forall_forall. intros e He.
    apply elem_of_concat_imap in He as (k & x & _ & He).
    pose proof (awsValidateInstanceType_Field
                  (field.Index (field.Child path "instances") (Z.of_nat k))
                  x cloud) as Hf.
    rewrite Forall_forall in Hf. specialize (Hf e He).
    exists ("instances" +:+ "[" +:+ pretty (Z.of_nat k) +:+ "]").
    rewrite Hf, String_Index, String_Child by discriminate.
    now rewrite !append_assoc.
  - destruct (kops.OnDemandBase spec) as [base|]; [| constructor].
    apply Forall_app. split; destruct (bool_decide _); repeat constructor;
      now apply Hone.
  - destruct (kops.OnDemandAboveBase spec) as [above|]; [| constructor].
    apply Forall_app. split; destruct (bool_decide _); repeat constructor;
      now apply Hone.
  - apply (Forall_below_Child _ "spotAllocationStrategy"); [discriminate |].
    apply IsValidValue_Field.
Qed.

Lemma String_NewPath3 (name a b : string) :
  name <> "" -> a <> "" -> b <> "" ->
  field.String (field.NewPath name [a; b]) = name +:+ "." +:+ a +:+ "." +:+ b.
Proof.
  intros Hn Ha Hb. unfold field.NewPath. simpl.
  apply String.eqb_neq in Hn, Ha, Hb. rewrite Hn, Ha, Hb.
  now rewrite !append_assoc.
Qed.

(** C10.  The instance-group pass concatenates the errors of its six
    rules in a fixed order, and the rules do not share a root.  Every
    error of the machine-type, spot-duration and interruption-behavior
    rules is at the path that starts with the name of the instance group:
    <name>.spec.machineType, <name>.spec.spotDurationInMinutes and
    <name>.spec.instanceInterruptionBehavior (for a name that is not
    empty; the root element of the path is the name in any case).  Every
    error of the
    additional-security-groups, mixed-instances-policy and
    instance-metadata rules is at a path that starts with spec and does
    not mention the name: spec.additionalSecurityGroups[i],
    spec.mixedInstancesPolicy.<...> and spec.instanceMetadata.<...>. *)
Theorem instance_group_error_paths
        (strategies : list string) (ig : kops.InstanceGroup)
        (cloud : option awsup.AWSCloud) :
  let name := kops.GetName ig in
  let spec := kops.ig_Spec ig in
  let groups := awsValidateAdditionalSecurityGroups
                  (field.NewPath "spec" ["additionalSecurityGroups"])
                  (kops.AdditionalSecurityGroups spec) in
  let machine := awsValidateInstanceType
                   (field.NewPath name ["spec"; "machineType"])
                   (kops.MachineType spec) cloud in
  let spot := awsValidateSpotDurationInMinute
                (field.NewPath name ["spec"; "spotDurationInMinutes"]) ig in
  let behavior := awsValidateInstanceInterruptionBehavior
                    (field.NewPath name ["spec"; "instanceInterruptionBehavior"])
                    ig in
  let mixed := mixedInstancesPolicyErrs strategies ig cloud in
  let metadata := instanceMetadataErrs ig in
  awsValidateInstanceGroup strategies ig cloud
  = groups ++ machine ++ spot ++ behavior ++ mixed ++ metadata
  /\ Forall (fun e => field.Field e
                      = field.String (field.NewPath name ["spec"; "machineType"]))
            machine
  /\ Forall (fun e => field.Field e
                      = field.String
                          (field.NewPath name ["spec"; "spotDurationInMinutes"]))
            spot
  /\ Forall (fun e => field.Field e
                      = field.String
                          (field.NewPath name
                                         ["spec"; "instanceInterruptionBehavior"]))
            behavior
  /\ (name <> "" ->
      Forall (fun e => field.Field e = name +:+ ".spec.machineType") machine
      /\ Forall (fun e => field.Field e = name +:+ ".spec.spotDurationInMinutes")
                spot
      /\ Forall (fun e => field.Field e
                          = name +:+ ".spec.instanceInterruptionBehavior")
                behavior)
  /\ Forall (fun e => exists i : Z,
                 field.Field e
                 = "spec.additionalSecurityGroups[" +:+ pretty i +:+ "]") groups
  /\ Forall (fun e => exists suffix,
                 field.Field e = "spec.mixedInstancesPolicy." +:+ suffix) mixed
  /\ Forall (fun e => exists suffix,
                 field.Field e = "spec.instanceMetadata." +:+ suffix) metadata.
Proof.
  intros name spec groups machine spot behavior mixed metadata.
  split; [| split; [| split; [| split; [| split; [| split; [| split]]]]]].
  - unfold awsValidateInstanceGroup.
    subst groups machine spot behavior mixed metadata spec name.
    unfold mixedInstancesPolicyErrs, instanceMetadataErrs.
    destruct (kops.MixedInstancesPolicy _), (kops.InstanceMetadata _);
      rewrite ?app_nil_l, ?app_nil_r, <- ?app_assoc; reflexivity.
  - apply awsValidateInstanceType_Field.
  - apply awsValidateSpotDurationInMinute_Field.
  - apply awsValidateInstanceInterruptionBehavior_Field.
  - intros Hname. repeat split.
    + pose proof (awsValidateInstanceType_Field
                    (field.NewPath name ["spec"; "machineType"])
                    (kops.MachineType spec) cloud) as H.
      now rewrite String_NewPath3 in H by (assumption || discriminate).
    + pose proof (awsValidateSpotDurationInMinute_Field
                    (field.NewPath name ["spec"; "spotDurationInMinutes"]) ig) as H.
      now rewrite String_NewPath3 in H by (assumption || discriminate).
    + pose proof (awsValidateInstanceInterruptionBehavior_Field
                    (field.NewPath name ["spec"; "instanceInterruptionBehavior"])
                    ig) as H.
      now rewrite String_NewPath3 in H by (assumption || discriminate).
  - eapply Forall_impl; [apply awsValidateAdditionalSecurityGroups_Field |].
    intros e [i Hi]. exists i. rewrite Hi. reflexivity.
  - subst mixed. unfold mixedInstancesPolicyErrs.
    destruct (kops.MixedInstancesPolicy _) as [policy|]; [| constructor].
    eapply Forall_impl; [apply awsValidateMixedInstancesPolicy_below |].
    intros e [suffix He]. exists suffix. rewrite He. reflexivity.
  - subst metadata. unfold instanceMetadataErrs.
    destruct (kops.InstanceMetadata _) as [opts|]; [| constructor].
    eapply Forall_impl; [apply awsValidateInstanceMetadata_below |].
    intros e [suffix He]. exists suffix. rewrite He. reflexivity.
Qed.

Lemma instance_group_error_paths_witness :
  Forall (fun e => field.Field e = "test-nodes.spec.machineType")
         (awsValidateInstanceType
            (field.NewPath "test-nodes" ["spec"; "machineType"])
            "t2.invalidType" (Some mockCloud))
  /\ map errString (awsValidateInstanceGroup [] testNodes (Some mockCloud))
     = ["Invalid value::spec.additionalSecurityGroups[0]";
        "Invalid value::test-nodes.spec.machineType";
        "Unsupported value::test-nodes.spec.spotDurationInMinutes";
        "Unsupported value::test-nodes.spec.instanceInterruptionBehavior";
        "Unsupported value::spec.instanceMetadata.httpTokens"].
Proof.
  destruct (instance_group_error_paths [] testNodes (Some mockCloud))
    as (_ & _ & _ & _ & H & _).
  split; [| vm_compute; reflexivity].
  apply H. vm_compute. discriminate.
Defined.

(** ** Decimal strings *)

Lemma pretty_N_go_Forall (P : ascii -> Prop) :
  (forall n, P (pretty_N_char n)) ->
  forall (x : N) (s : string),
    Forall P (list_ascii_of_string s) ->
    Forall P (list_ascii_of_string (pretty_N_go x s)).
Proof.
  intros HP x. induction (N.lt_wf_0 x) as [x _ IH]. intros s Hs.
  assert (x = 0 \/ 0 < x)%N as [->|Hpos] by lia.
  - now rewrite pretty_N_go_0.
  - rewrite pretty_N_go_step by assumption. apply IH.
    + now apply N.div_lt.
    + simpl. constructor; [apply HP | assumption].
Qed.

Lemma pretty_Z_Forall (P : ascii -> Prop) :
  (forall n, P (pretty_N_char n)) -> P "-"%char ->
  forall i : Z, Forall P (list_ascii_of_string (pretty i)).
Proof.
  intros HP Hdash [|x|x]; unfold pretty, pretty_Z.
  - simpl. constructor; [apply (HP 0%N) | constructor].
  - unfold pretty, pretty_positive, pretty, pretty_N.
    destruct (decide (N.pos x = 0%N)); [discriminate |].
    apply pretty_N_go_Forall; [assumption | constructor].
  - rewrite append_cons, append_nil. simpl. constructor; [assumption |].
    unfold pretty, pretty_positive, pretty, pretty_N.
    destruct (decide (N.pos x = 0%N)); [discriminate |].
    apply pretty_N_go_Forall; [assumption | constructor].
Qed.

Lemma pretty_Z_no_bracket (i : Z) :
  Forall (fun c => c <> "]"%char) (list_ascii_of_string (pretty i)).
Proof.
  apply pretty_Z_Forall; [| discriminate].
  intros n. unfold pretty_N_char. repeat case_match; discriminate.
Qed.

(** Two strings without the byte [c], each followed by [c]: what is
    before the first [c] and what is after it are determined. *)
Lemma append_sep_inj (c : ascii) (s1 s2 r1 r2 : string) :
  Forall (fun x => x <> c) (list_ascii_of_string s1) ->
  Forall (fun x => x <> c) (list_ascii_of_string s2) ->
  s1 +:+ String c r1 = s2 +:+ String c r2 -> s1 = s2 /\ r1 = r2.
Proof.
  revert s2. induction s1 as [|a s1 IH]; intros [|b s2] H1 H2 Heq.
  - rewrite !append_nil in Heq. now injection Heq.
  - rewrite append_nil, append_cons in Heq. injection Heq as <- _.
    simpl in H2. inversion H2; contradiction.
  - rewrite append_nil, append_cons in Heq. injection Heq as -> _.
    simpl in H1. inversion H1; contradiction.
  - rewrite !append_cons in Heq. injection Heq as -> Heq.
    simpl in H1, H2. inversion H1; inversion H2; subst.
    destruct (IH s2) as [-> ->]; auto.
Qed.

(** Paths below different indices of one sequence have different
    strings. *)
Lemma String_Index_below_inj (p : field.Path) (i j : Z) (r1 r2 : string) :
  field.String (field.Index p i) +:+ r1 = field.String (field.Index p j) +:+ r2 ->
  i = j /\ r1 = r2.
Proof.
  rewrite !String_Index, !append_assoc. intros H.
  apply String.app_inj in H. rewrite !append_cons, !append_nil in H.
  injection H as H.
  apply append_sep_inj in H as [H ->]; try apply pretty_Z_no_bracket.
  split; [now apply pretty_Z_inj in H | reflexivity].
Qed.

(** ** Load-balancer subnets: the errors of one binding *)

Lemma awsValidateLoadBalancerSubnets_body_parts
      (fieldPath : field.Path) (spec : kops.ClusterSpec)
      (lbSpec : kops.LoadBalancerAccessSpec)
      (i : Z) (subnet : kops.LoadBalancerSubnetSpec) (allErrs : field.ErrorList) :
  awsValidateLoadBalancerSubnets_body fieldPath spec lbSpec i subnet allErrs
  = allErrs ++ bindingErrs fieldPath spec lbSpec i subnet.
Proof.
  unfold awsValidateLoadBalancerSubnets_body, bindingErrs, nameErrs, addressErrs,
    allocationErrs, resolvedSubnet, outsideCIDR, internalNetwork, publicNetwork.
  destruct subnet as [name address allocation]. cbn [kops.lbs_Name
    kops.lbs_PrivateIPv4Address kops.lbs_AllocationID].
  set (found := awsValidateLoadBalancerSubnets_find _ _).
  destruct (String.eqb name ""); [| destruct found as [cs|]];
    (destruct address as [address|];
     [destruct (String.eqb address ""); destruct (isIPv4 (net.ParseIP address)) |]);
    try (destruct (net.ParseCIDR (kops.cs_CIDR cs)) as [[ip0 ipNet]|];
         [destruct (net.Contains ipNet _) |]);
    destruct (String.eqb (kops.lb_Class lbSpec) kops.LoadBalancerClassNetwork);
    destruct (String.eqb (kops.lb_Type lbSpec) kops.LoadBalancerTypeInternal);
    (destruct allocation as [allocation|];
     [destruct (String.eqb allocation "") |]);
    cbn [negb orb andb app]; rewrite ?app_nil_r, <- ?app_assoc; reflexivity.
Qed.

Lemma awsValidateLoadBalancerSubnets_range_entries
      (fieldPath : field.Path) (spec : kops.ClusterSpec)
      (lbSpec : kops.LoadBalancerAccessSpec)
      (subnets : list kops.LoadBalancerSubnetSpec) :
  forall (n : nat) (allErrs : field.ErrorList),
    awsValidateLoadBalancerSubnets_range fieldPath spec lbSpec (Z.of_nat n)
                                         subnets allErrs
    = allErrs ++ concat (imap (fun k subnet =>
        bindingErrs fieldPath spec lbSpec (Z.of_nat (n + k)) subnet) subnets).
Proof.
  induction subnets as [|subnet subnets IH]; intros n allErrs.
  - simpl. now rewrite app_nil_r.
  - cbn [awsValidateLoadBalancerSubnets_range imap concat].
    replace (Z.of_nat n + 1) with (Z.of_nat (S n)) by lia.
    rewrite IH, awsValidateLoadBalancerSubnets_body_parts, Nat.add_0_r,
      <- app_assoc.
    f_equal. f_equal. f_equal. apply imap_ext. intros k y _. simpl.
    now replace (S (n + k)) with (n + S k)%nat by lia.
Qed.

(** The subnets rule on a cluster spec with a load balancer: the errors
    of the bindings, in the order of the bindings. *)
Lemma awsValidateLoadBalancerSubnets_entries
      (fieldPath : field.Path) (spec : kops.ClusterSpec)
      (api : kops.AccessSpec) (lbSpec : kops.LoadBalancerAccessSpec) :
  kops.API spec = Some api -> kops.LoadBalancer api = Some lbSpec ->
  awsValidateLoadBalancerSubnets fieldPath spec
  = Some (concat (imap (fun k subnet =>
      bindingErrs fieldPath spec lbSpec (Z.of_nat k) subnet)
      (kops.lb_Subnets lbSpec))).
Proof.
  intros Hapi Hlb. unfold awsValidateLoadBalancerSubnets.
  rewrite Hapi. simpl. rewrite Hlb. simpl.
  now rewrite (awsValidateLoadBalancerSubnets_range_entries _ _ _ _ 0%nat).
Qed.

Lemma atIndex_Child (p : field.Path) (i : Z) (name : string) (e : field.Error) :
  name <> "" ->
  field.Field e = field.String (field.Child (field.Index p i) name) ->
  atIndex p i e.
Proof.
  intros Hn He. exists ("." +:+ name). now rewrite He, String_Child.
Qed.

Lemma atIndex_inj (p : field.Path) (i j : Z) (e : field.Error) :
  atIndex p i e -> atIndex p j e -> i = j.
Proof.
  intros [r1 H1] [r2 H2]. rewrite H1 in H2.
  now apply String_Index_below_inj in H2.
Qed.

Lemma nameErrs_Field fieldPath spec i subnet e :
  e ∈ nameErrs fieldPath spec i subnet ->
  field.Field e = field.String (field.Child (field.Index fieldPath i) "name")
  /\ (field.Type_ e = field.ErrorTypeRequired
      \/ field.Type_ e = field.ErrorTypeNotFound).
Proof. unfold nameErrs. intros H. singleton_cases H; simpl; auto. Qed.

Lemma addressErrs_Field fieldPath spec lbSpec i subnet e :
  e ∈ addressErrs fieldPath spec lbSpec i subnet ->
  field.Field e
  = field.String (field.Child (field.Index fieldPath i) "privateIPv4Address").
Proof. unfold addressErrs. intros H. singleton_cases H; reflexivity. Qed.

Lemma allocationErrs_Field fieldPath lbSpec i subnet e :
  e ∈ allocationErrs fieldPath lbSpec i subnet ->
  field.Field e
  = field.String (field.Child (field.Index fieldPath i) "allocationID").
Proof. unfold allocationErrs. intros H. singleton_cases H; reflexivity. Qed.

Lemma bindingErrs_atIndex fieldPath spec lbSpec i subnet e :
  e ∈ bindingErrs fieldPath spec lbSpec i subnet -> atIndex fieldPath i e.
Proof.
  unfold bindingErrs. intros H.
  apply elem_of_app in H as [H|H]; [| apply elem_of_app in H as [H|H]].
  - apply nameErrs_Field in H as [H _]. now apply (atIndex_Child _ _ "name").
  - apply addressErrs_Field in H.
    now apply (atIndex_Child _ _ "privateIPv4Address").
  - apply allocationErrs_Field in H.
    now apply (atIndex_Child _ _ "allocationID").
Qed.

(** Among the errors of the subnets rule, those at or below [subnets[i]]
    are the errors of binding [i]. *)
Lemma awsValidateLoadBalancerSubnets_at
      (fieldPath : field.Path) (spec : kops.ClusterSpec)
      (api : kops.AccessSpec) (lbSpec : kops.LoadBalancerAccessSpec)
      (i : nat) (subnet : kops.LoadBalancerSubnetSpec) :
  kops.API spec = Some api -> kops.LoadBalancer api = Some lbSpec ->
  kops.lb_Subnets lbSpec !! i = Some subnet ->
  exists errs,
    awsValidateLoadBalancerSubnets fieldPath spec = Some errs
    /\ forall e, (e ∈ errs /\ atIndex fieldPath (Z.of_nat i) e)
                 <-> e ∈ bindingErrs fieldPath spec lbSpec (Z.of_nat i) subnet.
Proof.
  intros Hapi Hlb Hi. eexists. split.
  - now apply (awsValidateLoadBalancerSubnets_entries _ _ api lbSpec).
  - intros e. rewrite elem_of_concat_imap. split.
    + intros [(k & x & Hk & He) Hat].
      pose proof (bindingErrs_atIndex _ _ _ _ _ _ He) as Hat'.
      pose proof (atIndex_inj _ _ _ _ Hat Hat') as Heq.
      apply Nat2Z.inj in Heq. subst k. now replace subnet with x by congruence.
    + intros He. split; [now exists i, subnet |].
      now apply bindingErrs_atIndex in He.
Qed.

(** ** Address literals *)


Lemma parseIPv4_fields_IPv4 (todo : nat) :
  forall s i p ip,
    net.parseIPv4_fields s i todo p = Some ip ->
    exists a b c d, ip = net.IPv4 a b c d.
Proof.
  induction todo as [|todo IH]; intros s i p ip; simpl.
  - destruct (negb _); [discriminate |]. intros [= <-]. eauto.
  - destruct (Nat.eqb (String.length s) 0); [discriminate |].
    destruct (if Nat.ltb 0 i then _ else _) as [s'|]; [| discriminate].
    destruct (net.dtoi s') as [[n c] ok].
    destruct (negb ok || _); [discriminate |].
    destruct (Nat.ltb 1 c && _); [discriminate |]. apply IH.
Qed.

Lemma isIPv4_parseIPv4 (s : string) (ip : net.IP) :
  net.parseIPv4 s = Some ip -> isIPv4 (Some ip) = true.
Proof.
  intros H. apply parseIPv4_fields_IPv4 in H as (a & b & c & d & ->).
  reflexivity.
Qed.


Lemma dtoi_from_le (s : string) :
  forall n i n' c, net.dtoi_from s n i = (n', c, true) -> (i <= c)%nat.
Proof.
  induction s as [|ch s IH]; intros n i n' c; simpl.
  - destruct (Nat.eqb i 0); intros [= <- <-]. lia.
  - destruct (_ && _).
    + destruct (net.big <=? _); [discriminate |].
      intros H. apply IH in H. lia.
    + destruct (Nat.eqb i 0); intros [= <- <-]. lia.
Qed.

(** After the digits of a number comes the dot that selects the IPv4
    parser. *)
Lemma ParseIP_scan_dtoi (s0 s : string) :
  forall n i n' c,
    net.dtoi_from s n i = (n', c, true) ->
    byteIs (sdrop (c - i) s) 0 "." = true ->
    net.ParseIP_scan s0 s = net.parseIPv4 s0.
Proof.
  induction s as [|ch s IH]; intros n i n' c; simpl.
  - destruct (Nat.eqb i 0); intros [= <- <-].
    rewrite Nat.sub_diag. discriminate.
  - destruct ((48 <=? byte_of ch) && (byte_of ch <=? 57)) eqn:Hdigit.
    + destruct (net.big <=? _); [discriminate |].
      intros H Hdot. pose proof (dtoi_from_le _ _ _ _ _ H) as Hle.
      replace (c - i)%nat with (S (c - S i)) in Hdot by lia. simpl in Hdot.
      destruct (Ascii.eqb_spec ch ".") as [->|_]; [discriminate Hdigit |].
      destruct (Ascii.eqb_spec ch ":") as [->|_]; [discriminate Hdigit |].
      exact (IH _ _ _ _ H Hdot).
    + destruct (Nat.eqb i 0); intros [= <- <-].
      rewrite Nat.sub_diag. unfold byteIs. simpl.
      now intros ->.
Qed.

Lemma ParseIP_parseIPv4 (s : string) (ip : net.IP) :
  net.parseIPv4 s = Some ip -> net.ParseIP s = net.parseIPv4 s.
Proof.
  intros Hip. unfold net.ParseIP.
  unfold net.parseIPv4 in Hip. cbn [net.parseIPv4_fields net.IPv4len] in Hip.
  destruct (Nat.eqb (String.length s) 0); [discriminate |].
  cbn [Nat.ltb Nat.leb] in Hip.
  destruct (net.dtoi s) as [[n c] ok] eqn:Hd.
  destruct ok; [| discriminate]. cbn [negb orb] in Hip.
  destruct (0xFF <? n); [discriminate |].
  match type of Hip with
  | (if ?b then None else _) = _ => destruct b; [discriminate |]
  end.
  destruct (Nat.eqb (String.length (sdrop c s)) 0); [discriminate |].
  destruct (byteIs (sdrop c s) 0 ".") eqn:Hdot; [| discriminate].
  apply (ParseIP_scan_dtoi s s 0 0%nat n c Hd). now rewrite Nat.sub_0_r.
Qed.

(** A dotted-decimal literal passes the test of the validator. *)
Lemma dottedIPv4_isIPv4 (s : string) :
  dottedIPv4 s -> isIPv4 (net.ParseIP s) = true.
Proof.
  intros [ip Hip]. rewrite (ParseIP_parseIPv4 s ip Hip), Hip.
  now apply (isIPv4_parseIPv4 s).
Qed.

Lemma fieldRead_octet (n : nat) (rest : string) :
  (n < 256)%nat -> (rest = "" \/ exists r, rest = String "." r) ->
  fieldRead (Z.of_nat n) rest.
Proof.
  intros Hn Hrest.
  do 256 (destruct n as [|n];
          [destruct Hrest as [->|[r ->]]; repeat split; vm_compute; reflexivity |]).
  lia.
Qed.

Lemma append_nil_r (s : string) : s +:+ "" = s.
Proof.
  induction s as [|c s IH]; [reflexivity |]. now rewrite append_cons, IH.
Qed.

Lemma parseIPv4_fields_first (a : Z) (rest : string) (todo : nat) (p : list Z) :
  a <= 255 -> fieldRead a rest ->
  net.parseIPv4_fields (pretty a +:+ rest) 0 (S todo) p
  = net.parseIPv4_fields rest 1 todo (p ++ [a]).
Proof.
  intros Ha (Hd & Hs & Hz & Hlen). cbn [net.parseIPv4_fields].
  rewrite Hlen, Nat.ltb_irrefl, Hd. cbn [negb orb].
  replace (255 <? a) with false by (symmetry; apply Z.ltb_ge; lia).
  now rewrite Hz, Hs.
Qed.

Lemma parseIPv4_fields_next (a : Z) (rest : string) (i todo : nat) (p : list Z) :
  a <= 255 -> fieldRead a rest ->
  net.parseIPv4_fields (String "." (pretty a +:+ rest)) (S i) (S todo) p
  = net.parseIPv4_fields rest (S (S i)) todo (p ++ [a]).
Proof.
  intros Ha (Hd & Hs & Hz & Hlen). cbn [net.parseIPv4_fields].
  change (Nat.eqb (String.length (String "." (pretty a +:+ rest))) 0) with false.
  change (Nat.ltb 0 (S i)) with true.
  change (byteIs (String "." (pretty a +:+ rest)) 0 ".") with true.
  cbn [negb sdrop]. rewrite Hd. cbn [negb orb].
  replace (255 <? a) with false by (symmetry; apply Z.ltb_ge; lia).
  now rewrite Hz, Hs.
Qed.

Lemma fieldRead_Z (a : Z) (rest : string) :
  0 <= a <= 255 -> (rest = "" \/ exists r, rest = String "." r) ->
  fieldRead a rest.
Proof.
  intros Ha Hrest. rewrite <- (Z2Nat.id a) by lia.
  apply fieldRead_octet; [lia | assumption].
Qed.

(** Four numbers of at most 255, printed in decimal and joined by dots,
    are a dotted-decimal literal of the address they make. *)
Lemma parseIPv4_dotted (a b c d : Z) :
  0 <= a <= 255 -> 0 <= b <= 255 -> 0 <= c <= 255 -> 0 <= d <= 255 ->
  net.parseIPv4 (strconv.Itoa a +:+ "." +:+ strconv.Itoa b +:+ "."
                 +:+ strconv.Itoa c +:+ "." +:+ strconv.Itoa d)
  = Some (net.IPv4 a b c d).
Proof.
  intros Ha Hb Hc Hd. unfold net.parseIPv4, net.IPv4len, strconv.Itoa.
  rewrite parseIPv4_fields_first;
    [| lia | apply fieldRead_Z; [lia | right; eexists; reflexivity]].
  change ("." +:+ pretty b +:+ "." +:+ pretty c +:+ "." +:+ pretty d)
    with (String "." (pretty b +:+ "." +:+ pretty c +:+ "." +:+ pretty d)).
  rewrite parseIPv4_fields_next;
    [| lia | apply fieldRead_Z; [lia | right; eexists; reflexivity]].
  change ("." +:+ pretty c +:+ "." +:+ pretty d)
    with (String "." (pretty c +:+ "." +:+ pretty d)).
  rewrite parseIPv4_fields_next;
    [| lia | apply fieldRead_Z; [lia | right; eexists; reflexivity]].
  replace ("." +:+ pretty d) with (String "." (pretty d +:+ ""))
    by (now rewrite append_nil_r).
  rewrite parseIPv4_fields_next;
    [| lia | apply fieldRead_Z; [lia | left; reflexivity]].
  reflexivity.
Qed.

(** Such a literal passes the test of the validator. *)
Lemma dotted_quad_isIPv4 (a b c d : Z) :
  0 <= a <= 255 -> 0 <= b <= 255 -> 0 <= c <= 255 -> 0 <= d <= 255 ->
  isIPv4 (net.ParseIP (strconv.Itoa a +:+ "." +:+ strconv.Itoa b +:+ "."
                       +:+ strconv.Itoa c +:+ "." +:+ strconv.Itoa d)) = true.
Proof.
  intros Ha Hb Hc Hd. apply dottedIPv4_isIPv4. unfold dottedIPv4.
  rewrite parseIPv4_dotted by assumption. eauto.
Qed.

(** ** The search for the cluster subnet *)


Lemma awsValidateLoadBalancerSubnets_find_None
      (subnet : kops.LoadBalancerSubnetSpec)
      (subnets : list kops.ClusterSubnetSpec) :
  awsValidateLoadBalancerSubnets_find subnet subnets = None
  <-> forall cs, cs ∈ subnets -> kops.cs_Name cs <> kops.lbs_Name subnet.
Proof.
  induction subnets as [|x subnets IH]; simpl.
  - split; [| reflexivity]. intros _ cs H. now apply elem_of_nil in H.
  - destruct (String.eqb_spec (kops.lbs_Name subnet) (kops.cs_Name x)) as [Heq|Hne].
    + split; [discriminate |]. intros H. exfalso. apply (H x); [left | now symmetry].
    + rewrite IH. split.
      * intros H cs Hcs. apply elem_of_cons in Hcs as [->|Hcs]; [congruence | auto].
      * intros H cs Hcs. apply H. now right.
Qed.

Lemma String_Child_inj (p : field.Path) (a b : string) :
  a <> "" -> b <> "" ->
  field.String (field.Child p a) = field.String (field.Child p b) -> a = b.
Proof.
  intros Ha Hb. rewrite !String_Child by assumption. intros H.
  apply String.app_inj in H. rewrite !append_cons, !append_nil in H.
  now injection H.
Qed.

Lemma resolvedSubnet_None (spec : kops.ClusterSpec)
      (subnet : kops.LoadBalancerSubnetSpec) :
  resolvedSubnet spec subnet = None
  <-> kops.lbs_Name subnet = ""
      \/ forall cs, cs ∈ kops.Subnets spec ->
                    kops.cs_Name cs <> kops.lbs_Name subnet.
Proof.
  unfold resolvedSubnet.
  destruct (String.eqb_spec (kops.lbs_Name subnet) "") as [Heq|Hne].
  - split; auto.
  - rewrite awsValidateLoadBalancerSubnets_find_None. split; [auto |].
    intros [H|H]; [contradiction | assumption].
Qed.

(** ** Load-balancer subnets: names *)



(** ** Load-balancer subnets: private addresses *)




(** ** Load-balancer subnets: what is forbidden *)

(** C3.  For the binding at index [i]: a present private address gets the
    Forbidden error at .privateIPv4Address exactly when the load balancer
    is not both of class network and of type internal; a present
    allocation ID gets the Forbidden error at .allocationID exactly when
    the load balancer is not both of class network and of a type other
    than internal.  Each rule looks at its own field only, so a binding
    with both values is checked by both. *)
Theorem forbidden_rules
        (fieldPath : field.Path) (spec : kops.ClusterSpec)
        (api : kops.AccessSpec) (lbSpec : kops.LoadBalancerAccessSpec)
        (i : nat) (subnet : kops.LoadBalancerSubnetSpec) :
  kops.API spec = Some api -> kops.LoadBalancer api = Some lbSpec ->
  kops.lb_Subnets lbSpec !! i = Some subnet ->
  exists errs,
    awsValidateLoadBalancerSubnets fieldPath spec = Some errs
    /\ let addressPath :=
         field.Child (field.Index fieldPath (Z.of_nat i)) "privateIPv4Address" in
       let allocationPath :=
         field.Child (field.Index fieldPath (Z.of_nat i)) "allocationID" in
       let network := kops.lb_Class lbSpec = kops.LoadBalancerClassNetwork in
       let internal := kops.lb_Type lbSpec = kops.LoadBalancerTypeInternal in
       (is_Some (kops.lbs_PrivateIPv4Address subnet) ->
        ((exists e, e ∈ errs /\ field.Type_ e = field.ErrorTypeForbidden
                    /\ field.Field e = field.String addressPath)
         <-> ~ (network /\ internal))
        /\ (field.Forbidden addressPath msgInternalOnly ∈ errs
            <-> ~ (network /\ internal)))
       /\ (is_Some (kops.lbs_AllocationID subnet) ->
           ((exists e, e ∈ errs /\ field.Type_ e = field.ErrorTypeForbidden
                       /\ field.Field e = field.String allocationPath)
            <-> ~ (network /\ ~ internal))
           /\ (field.Forbidden allocationPath msgPublicOnly ∈ errs
               <-> ~ (network /\ ~ internal))).
Proof.
  intros Hapi Hlb Hi.
  destruct (awsValidateLoadBalancerSubnets_at fieldPath spec api lbSpec i subnet
              Hapi Hlb Hi) as (errs & Herrs & Hat).
  exists errs. split; [exact Herrs |].
  intros addressPath allocationPath network internal.
  assert (Hin : forall e, e ∈ bindingErrs fieldPath spec lbSpec (Z.of_nat i) subnet
                          -> e ∈ errs).
  { intros e He. now apply Hat in He. }
  assert (Hinternal : internalNetwork lbSpec = true <-> network /\ internal).
  { unfold internalNetwork, network, internal.
    rewrite andb_true_iff, !String.eqb_eq. tauto. }
  assert (Hpublic : publicNetwork lbSpec = true <-> network /\ ~ internal).
  { unfold publicNetwork, network, internal.
    rewrite andb_true_iff, negb_true_iff, String.eqb_eq, String.eqb_neq. tauto. }
  split.
  - intros [address Haddr].
    assert (Hfwd : forall e, e ∈ errs -> field.Type_ e = field.ErrorTypeForbidden ->
                             field.Field e = field.String addressPath ->
                             ~ (network /\ internal)).
    { intros e He Ht Hf.
      assert (He' : e ∈ bindingErrs fieldPath spec lbSpec (Z.of_nat i) subnet).
      { apply Hat. split; [assumption |].
        now apply (atIndex_Child _ _ "privateIPv4Address"). }
      unfold bindingErrs in He'.
      apply elem_of_app in He' as [He'|He'];
        [| apply elem_of_app in He' as [He'|He']].
      - apply nameErrs_Field in He' as [_ [Ht'|Ht']]; congruence.
      - unfold addressErrs in He'. rewrite Haddr in He'.
        destruct (internalNetwork lbSpec) eqn:Hint.
        + singleton_cases He'; discriminate.
        + rewrite <- Hinternal. congruence.
      - apply allocationErrs_Field in He'. rewrite He' in Hf.
        apply String_Child_inj in Hf; discriminate. }
    assert (Hbwd : ~ (network /\ internal) ->
                   field.Forbidden addressPath msgInternalOnly ∈ errs).
    { intros Hn. apply Hin. unfold bindingErrs, addressErrs. rewrite Haddr.
      destruct (internalNetwork lbSpec) eqn:Hint.
      - exfalso. now apply Hn, Hinternal.
      - elem_here. }
    split; split.
    + intros (e & He & Ht & Hf). now apply (Hfwd e).
    + intros Hn. exists (field.Forbidden addressPath msgInternalOnly).
      repeat split. now apply Hbwd.
    + intros He. now apply (Hfwd _ He).
    + exact Hbwd.
  - intros [allocation Halloc].
    assert (Hfwd : forall e, e ∈ errs -> field.Type_ e = field.ErrorTypeForbidden ->
                             field.Field e = field.String allocationPath ->
                             ~ (network /\ ~ internal)).
    { intros e He Ht Hf.
      assert (He' : e ∈ bindingErrs fieldPath spec lbSpec (Z.of_nat i) subnet).
      { apply Hat. split; [assumption |].
        now apply (atIndex_Child _ _ "allocationID"). }
      unfold bindingErrs in He'.
      apply elem_of_app in He' as [He'|He'];
        [| apply elem_of_app in He' as [He'|He']].
      - apply nameErrs_Field in He' as [_ [Ht'|Ht']]; congruence.
      - apply addressErrs_Field in He'. rewrite He' in Hf.
        apply String_Child_inj in Hf; discriminate.
      - unfold allocationErrs in He'. rewrite Halloc in He'.
        destruct (publicNetwork lbSpec) eqn:Hpub.
        + singleton_cases He'; discriminate.
        + rewrite <- Hpublic. congruence. }
    assert (Hbwd : ~ (network /\ ~ internal) ->
                   field.Forbidden allocationPath msgPublicOnly ∈ errs).
    { intros Hn. apply Hin. unfold bindingErrs, allocationErrs. rewrite Halloc.
      destruct (publicNetwork lbSpec) eqn:Hpub.
      - exfalso. now apply Hn, Hpublic.
      - elem_here. }
    split; split.
    + intros (e & He & Ht & Hf). now apply (Hfwd e).
    + intros Hn. exists (field.Forbidden allocationPath msgPublicOnly).
      repeat split. now apply Hbwd.
    + intros He. now apply (Hfwd _ He).
    + exact Hbwd.
Qed.

Lemma forbidden_rules_witness :
  let subnet := binding "a" (Some "10.0.0.10") (Some "eipalloc-222ghi789") in
  let classic := loadBalancerWith kops.LoadBalancerClassClassic
                                  kops.LoadBalancerTypeInternal [subnet] in
  let internal := loadBalancerWith kops.LoadBalancerClassNetwork
                                   kops.LoadBalancerTypeInternal [subnet] in
  let subnets := [clusterSubnet "a" "10.0.0.0/24"] in
  let addressPath := field.Child (field.Index subnetsPath 0) "privateIPv4Address" in
  let allocationPath := field.Child (field.Index subnetsPath 0) "allocationID" in
  (exists errs,
      awsValidateLoadBalancerSubnets subnetsPath (clusterWith subnets classic)
      = Some errs
      /\ field.Forbidden addressPath msgInternalOnly ∈ errs
      /\ field.Forbidden allocationPath msgPublicOnly ∈ errs)
  /\ (exists errs,
         awsValidateLoadBalancerSubnets subnetsPath (clusterWith subnets internal)
         = Some errs
         /\ (field.Forbidden addressPath msgInternalOnly ∉ errs)
         /\ field.Forbidden allocationPath msgPublicOnly ∈ errs).
Proof.
  intros subnet classic internal subnets addressPath allocationPath. split.
  - destruct (forbidden_rules subnetsPath (clusterWith subnets classic) _ classic
                0 subnet eq_refl eq_refl eq_refl)
      as (errs & Herrs & Haddr & Halloc).
    exists errs. split; [exact Herrs |]. split.
    + apply Haddr; [eexists; reflexivity |]. intros [Hn _]. discriminate Hn.
    + apply Halloc; [eexists; reflexivity |]. intros [Hn _]. discriminate Hn.
  - destruct (forbidden_rules subnetsPath (clusterWith subnets internal) _ internal
                0 subnet eq_refl eq_refl eq_refl)
      as (errs & Herrs & Haddr & Halloc).
    exists errs. split; [exact Herrs |]. split.
    + intros He. apply Haddr in He; [| eexists; reflexivity].
      apply He. split; reflexivity.
    + apply Halloc; [eexists; reflexivity |]. intros [_ Hn]. now apply Hn.
Defined.

(** ** The external cloud-controller-manager *)

Lemma awsValidateExternalCloudControllerManager_cases (c : kops.ClusterSpec) :
  (is_Some (kops.ExternalCloudControllerManager c)
   /\ ~ volumePluginIsAWS c /\ ~ csiDriverEnabled c
   /\ awsValidateExternalCloudControllerManager c
      = [field.Forbidden (field.NewPath "spec" ["externalCloudControllerManager"])
                         msgExternalCCM])
  \/ ((kops.ExternalCloudControllerManager c = None
       \/ volumePluginIsAWS c \/ csiDriverEnabled c)
      /\ awsValidateExternalCloudControllerManager c = []).
Proof.
  unfold awsValidateExternalCloudControllerManager, volumePluginIsAWS,
    csiDriverEnabled.
  destruct (kops.ExternalCloudControllerManager c) as [ccm|]; [| right; auto].
  destruct (kops.KubeControllerManager c) as [kcm|] eqn:Hkcm.
  - destruct (String.eqb_spec (kops.ExternalCloudVolumePlugin kcm) "aws")
      as [Haws|Hnaws]; cbn [negb].
    + right. split; [| reflexivity]. right. left. eauto.
    + destruct (kops.CloudConfig c) as [cc|] eqn:Hcc.
      * destruct (kops.cc_AWSEBSCSIDriver cc) as [driver|] eqn:Hdrv.
        -- destruct (kops.Enabled driver) as [[|]|] eqn:Hen; cbn [fi.BoolValue
             default negb].
           ++ right. split; [| reflexivity]. right. right. eauto.
           ++ left. repeat split; eauto.
              ** intros (k & [= <-] & Hk). contradiction.
              ** intros (cc' & d' & [= <-] & Hd & He). congruence.
           ++ left. repeat split; eauto.
              ** intros (k & [= <-] & Hk). contradiction.
              ** intros (cc' & d' & [= <-] & Hd & He). congruence.
        -- left. repeat split; eauto.
           ++ intros (k & [= <-] & Hk). contradiction.
           ++ intros (cc' & d' & [= <-] & Hd & He). congruence.
      * left. repeat split; eauto.
        -- intros (k & [= <-] & Hk). contradiction.
        -- intros (cc' & d' & Hc & _). discriminate.
  - destruct (kops.CloudConfig c) as [cc|] eqn:Hcc.
    + destruct (kops.cc_AWSEBSCSIDriver cc) as [driver|] eqn:Hdrv.
      * destruct (kops.Enabled driver) as [[|]|] eqn:Hen; cbn [fi.BoolValue
          default negb].
        -- right. split; [| reflexivity]. right. right. eauto.
        -- left. repeat split; eauto.
           ++ intros (k & Hk & _). discriminate.
           ++ intros (cc' & d' & [= <-] & Hd & He). congruence.
        -- left. repeat split; eauto.
           ++ intros (k & Hk & _). discriminate.
           ++ intros (cc' & d' & [= <-] & Hd & He). congruence.
      * left. repeat split; eauto.
        -- intros (k & Hk & _). discriminate.
        -- intros (cc' & d' & [= <-] & Hd & He). congruence.
    + left. repeat split; eauto.
      * intros (k & Hk & _). discriminate.
      * intros (cc' & d' & Hc & _). discriminate.
Qed.

Lemma awsValidateSSLPolicy_Field (fieldPath : field.Path)
      (spec : kops.LoadBalancerAccessSpec) :
  Forall (fun e => field.Field e = field.String fieldPath)
         (awsValidateSSLPolicy fieldPath spec).
Proof.
  unfold awsValidateSSLPolicy. destruct (kops.lb_SSLPolicy spec); [| constructor].
  destruct (negb _), (String.eqb _ _); repeat constructor.
Qed.

(** The cluster pass always returns: the errors of the load-balancer
    rules, when there is a load balancer, followed by those of the
    controller-manager rule. *)
Lemma awsValidateCluster_parts (c : kops.Cluster) :
  exists lbErrs,
    awsValidateCluster c
    = Some (lbErrs ++ awsValidateExternalCloudControllerManager (kops.c_Spec c))
    /\ Forall underLoadBalancer lbErrs.
Proof.
  unfold awsValidateCluster.
  destruct (kops.API (kops.c_Spec c)) as [api|] eqn:Hapi;
    [| exists []; split; [reflexivity | constructor]].
  destruct (kops.LoadBalancer api) as [lb|] eqn:Hlb;
    [| exists []; split; [reflexivity | constructor]].
  rewrite (awsValidateLoadBalancerSubnets_entries _ _ api lb Hapi Hlb).
  eexists. split; [reflexivity |]. rewrite app_nil_l.
  repeat (apply Forall_app; split).
  - eapply Forall_impl; [apply awsValidateAdditionalSecurityGroups_Field |].
    intros e [i Hi].
    exists ("additionalSecurityGroups" +:+ "[" +:+ pretty i +:+ "]").
    rewrite Hi. reflexivity.
  - eapply Forall_impl; [apply awsValidateSSLPolicy_Field |].
    intros e He. exists "sslPolicy". rewrite He. reflexivity.
  - apply Forall_forall. intros e He.
    apply elem_of_concat_imap in He as (k & x & _ & He).
    apply bindingErrs_atIndex in He as [suffix He].
    exists ("subnets" +:+ "[" +:+ pretty (Z.of_nat k) +:+ "]" +:+ suffix).
    rewrite He, String_Index, !append_assoc. reflexivity.
Qed.

(** C4.  The external cloud-controller-manager: when the cluster declares
    one while the controller manager does not name "aws" as its external
    volume plugin and the cloud configuration does not enable the EBS CSI
    driver, the rule gives exactly one error, the Forbidden error at
    spec.externalCloudControllerManager; when none is declared, or one of
    the two integrations is present, the rule gives no error.  The cluster
    pass returns the errors of this rule after those of the load-balancer
    rules, none of which is at that path. *)
Theorem external_ccm_rule (cluster : kops.Cluster) :
  let c := kops.c_Spec cluster in
  let path := field.NewPath "spec" ["externalCloudControllerManager"] in
  (is_Some (kops.ExternalCloudControllerManager c) ->
   ~ volumePluginIsAWS c -> ~ csiDriverEnabled c ->
   awsValidateExternalCloudControllerManager c
   = [field.Forbidden path msgExternalCCM]
   /\ map errString (awsValidateExternalCloudControllerManager c)
      = ["Forbidden::spec.externalCloudControllerManager"])
  /\ (kops.ExternalCloudControllerManager c = None
      \/ volumePluginIsAWS c \/ csiDriverEnabled c ->
      awsValidateExternalCloudControllerManager c = [])
  /\ exists lbErrs,
      awsValidateCluster cluster
      = Some (lbErrs ++ awsValidateExternalCloudControllerManager c)
      /\ Forall (fun e => field.Field e <> field.String path) lbErrs.
Proof.
  intros c path. split; [| split].
  - intros [ccm Hccm] Hplugin Hcsi.
    destruct (awsValidateExternalCloudControllerManager_cases c)
      as [(_ & _ & _ & Heq) | ([Hn | [Hp | Hd]] & _)];
      [| congruence | contradiction | contradiction].
    rewrite Heq. split; reflexivity.
  - intros Hsome.
    destruct (awsValidateExternalCloudControllerManager_cases c)
      as [([ccm Hccm] & Hp & Hd & _) | (_ & Heq)]; [| exact Heq].
    destruct Hsome as [Hn | [Hp' | Hd']]; [congruence | contradiction
                                          | contradiction].
  - destruct (awsValidateCluster_parts cluster) as (lbErrs & Heq & Hunder).
    exists lbErrs. split; [exact Heq |].
    eapply Forall_impl; [exact Hunder |].
    intros e [suffix He] Hf. rewrite He in Hf. discriminate Hf.
Qed.

Lemma external_ccm_rule_witness :
  awsValidateCluster (clusterWithCCM None None)
  = Some [field.Forbidden (field.NewPath "spec" ["externalCloudControllerManager"])
                          msgExternalCCM]
  /\ awsValidateExternalCloudControllerManager
       (kops.c_Spec (clusterWithCCM
          (Some {| kops.ExternalCloudVolumePlugin := "aws" |}) None)) = []
  /\ awsValidateExternalCloudControllerManager
       (kops.c_Spec (clusterWithCCM None
          (Some {| kops.cc_AWSEBSCSIDriver :=
                     Some {| kops.Enabled := Some true |} |}))) = [].
Proof.
  split; [| split].
  - destruct (external_ccm_rule (clusterWithCCM None None)) as (H & _ & _).
    destruct H as [Heq _].
    + eexists. reflexivity.
    + intros (kcm & Hk & _). discriminate Hk.
    + intros (cc & d & Hc & _). discriminate Hc.
    + unfold awsValidateCluster. cbn [clusterWithCCM kops.c_Spec kops.API mbind
        option_bind]. simpl in Heq |- *. now rewrite Heq.
  - destruct (external_ccm_rule (clusterWithCCM
        (Some {| kops.ExternalCloudVolumePlugin := "aws" |}) None)) as (_ & H & _).
    apply H. right. left. eexists. split; reflexivity.
  - destruct (external_ccm_rule (clusterWithCCM None
        (Some {| kops.cc_AWSEBSCSIDriver :=
                   Some {| kops.Enabled := Some true |} |}))) as (_ & H & _).
    apply H. right. right. do 2 eexists. repeat split; reflexivity.
Defined.

(** * Further properties *)

(** ** Strings that start with a byte that is not a space *)

Lemma DecodeRune_ascii (c : Z) (p : list Z) :
  c < utf8.RuneSelf -> utf8.DecodeRune (c :: p) = (c, 1%nat).
Proof.
  intros Hc. unfold utf8.DecodeRune, utf8.first, utf8.RuneSelf in *.
  replace (c <? 128) with true by (symmetry; apply Z.ltb_lt; lia).
  reflexivity.
Qed.

Lemma DecodeRune_size (p : list Z) :
  p <> [] -> (1 <= snd (utf8.DecodeRune p))%nat.
Proof.
  intros Hp. unfold utf8.DecodeRune. destruct p as [|s0 p1]; [contradiction |].
  repeat match goal with
         | |- context [if ?b then _ else _] => destruct b
         | |- context [match ?l with [] => _ | _ :: _ => _ end] => destruct l
         end; simpl; lia.
Qed.

Lemma lastStart_le (p : list Z) (lim : nat) (fuel : nat) :
  forall start, utf8.lastStart p lim start fuel <= start.
Proof.
  induction fuel as [|fuel IH]; intros start; simpl; [lia |].
  destruct (start <? Z.of_nat lim); [lia |].
  destruct (utf8.RuneStart _); [lia |].
  specialize (IH (start - 1)). lia.
Qed.

(** The last rune of a string that starts with an ASCII byte: it is at
    least one byte wide, and it takes the whole string only when the
    string is that one byte. *)
Lemma DecodeLastRune_head (c : Z) (q : list Z) :
  c < utf8.RuneSelf ->
  let '(r, size) := utf8.DecodeLastRune (c :: q) in
  (1 <= size <= S (length q))%nat /\ (size = S (length q) -> r = c /\ q = []).
Proof.
  intros Hc. unfold utf8.DecodeLastRune.
  cbn [length Nat.eqb].
  replace (S (length q) - 1)%nat with (length q) by lia.
  destruct (nth (length q) (c :: q) 0 <? utf8.RuneSelf) eqn:Hlast.
  - split; [lia |]. intros Hsize. destruct q; [simpl; auto | simpl in Hsize; lia].
  - destruct q as [|c1 q].
    { simpl in Hlast. apply Z.ltb_ge in Hlast. lia. }
    set (p := c :: c1 :: q).
    set (z := utf8.lastStart p _ _ _).
    assert (Hz : z <= Z.of_nat (S (length (c1 :: q))) - 2) by apply lastStart_le.
    set (start := if z <? 0 then 0%nat else Z.to_nat z).
    assert (Hstart : (start <= length q)%nat).
    { subst start. simpl length in Hz. destruct (z <? 0) eqn:Hneg; [lia |].
      apply Z.ltb_ge in Hneg. lia. }
    destruct (utf8.DecodeRune (drop start p)) as [r size] eqn:Hdec.
    destruct (Nat.eqb (start + size) (S (length (c1 :: q)))) eqn:Hend.
    + apply Nat.eqb_eq in Hend. simpl length in *.
      assert (Hsz : (1 <= size)%nat).
      { change size with (snd (r, size)). rewrite <- Hdec.
        apply DecodeRune_size. intros Hnil.
        apply (f_equal length) in Hnil. rewrite length_drop in Hnil.
        subst p. simpl in Hnil. lia. }
      split; [lia |]. intros Hsize.
      assert (start = 0%nat) by lia. subst start.
      rewrite H in Hdec. subst p. rewrite drop_0, DecodeRune_ascii in Hdec
        by assumption.
      injection Hdec as <- <-. lia.
    + simpl length. split; [lia |]. intros Hsize. lia.
Qed.

Lemma lastIndexFunc_head (f : Z -> bool) (c : Z) (q : list Z) :
  c < utf8.RuneSelf -> f c = false ->
  forall (fuel i : nat),
    (1 <= i <= S (length q))%nat -> (i <= fuel)%nat ->
    exists j, strings.lastIndexFunc f (c :: q) i fuel = Some j /\ (j < i)%nat.
Proof.
  intros Hc Hf. induction fuel as [|fuel IH]; intros i Hi Hfuel; [lia |].
  cbn [strings.lastIndexFunc].
  destruct (Nat.leb i 0) eqn:Hle; [apply Nat.leb_le in Hle; lia |].
  destruct i as [|i]; [lia |].
  change (take (S i) (c :: q)) with (c :: take i q).
  pose proof (DecodeLastRune_head c (take i q) Hc) as Hlast.
  destruct (utf8.DecodeLastRune (c :: take i q)) as [r size].
  rewrite length_take in Hlast.
  replace (i `min` length q)%nat with i in Hlast by lia.
  destruct Hlast as [Hsize Hwhole].
  destruct (f r) eqn:Hfr; cbn [negb].
  - assert (size <> S i).
    { intros Heq. destruct (Hwhole Heq) as [-> _]. congruence. }
    destruct (IH (S i - size)%nat) as (j & Hj & Hlt); [lia | lia |].
    exists j. split; [exact Hj | lia].
  - exists (S i - size)%nat. split; [reflexivity | lia].
Qed.

Lemma bytes_String (c : ascii) (s : string) :
  bytes (String c s) = byte_of c :: bytes s.
Proof. reflexivity. Qed.

Lemma TrimRightFunc_head (f : Z -> bool) (c : ascii) (s : string) :
  byte_of c < utf8.RuneSelf -> f (byte_of c) = false ->
  strings.TrimRightFunc (String c s) f <> "".
Proof.
  intros Hc Hf. unfold strings.TrimRightFunc. rewrite bytes_String.
  destruct (lastIndexFunc_head f (byte_of c) (bytes s) Hc Hf
              (String.length (String c s)) (String.length (String c s)))
    as (j & Hj & Hlt).
  { simpl. rewrite bytes_length. lia. }
  { lia. }
  rewrite Hj. destruct (utf8.RuneSelf <=? _).
  - destruct (utf8.DecodeRune _) as [r wid] eqn:Hdec.
    assert (Hw : (1 <= wid)%nat).
    { change wid with (snd (r, wid)). rewrite <- Hdec. apply DecodeRune_size.
      intros Hnil. apply (f_equal length) in Hnil.
      rewrite length_drop in Hnil. simpl in Hnil, Hlt.
      rewrite bytes_length in Hnil. lia. }
    unfold slice. rewrite Nat.sub_0_r.
    replace (j + wid)%nat with (S (j + wid - 1)) by lia.
    apply substring_nonempty. simpl. lia.
  - unfold slice. rewrite Nat.sub_0_r. replace (j + 1)%nat with (S j) by lia.
    apply substring_nonempty. simpl. lia.
Qed.

(** The backward scan stops before a byte that is not a space. *)
Lemma scanStop_last (c : Z) (rp : list Z) :
  c < utf8.RuneSelf -> strings.asciiSpace c = false ->
  forall stop, (length rp < stop)%nat ->
    exists k, (stop - length rp <= k)%nat
              /\ (strings.scanStop (rp ++ [c]) stop = strings.Stop k
                  \/ (strings.scanStop (rp ++ [c]) stop = strings.NonASCII k
                      /\ (stop - length rp < k)%nat)).
Proof.
  intros Hc Hsp. induction rp as [|x rp IH]; intros stop Hstop;
    simpl in Hstop |- *.
  - replace (utf8.RuneSelf <=? c) with false by (symmetry; apply Z.leb_gt; lia).
    rewrite Hsp. simpl. exists stop. split; [lia | now left].
  - destruct (utf8.RuneSelf <=? x).
    + exists stop. split; [lia |]. right. split; [reflexivity | lia].
    + destruct (strings.asciiSpace x); simpl.
      * destruct (IH (stop - 1)%nat) as (k & Hk & Hres); [lia |].
        exists k. split; [lia |].
        destruct Hres as [Hres | [Hres Hlt]]; [now left |].
        right. split; [assumption | lia].
      * exists stop. split; [lia | now left].
Qed.

Lemma substring_0_String (k : nat) (c : ascii) (s : string) :
  String.substring 0 (S k) (String c s) = String c (String.substring 0 k s).
Proof. reflexivity. Qed.

Lemma IsSpace_ascii (c : Z) :
  c < utf8.RuneSelf -> strings.asciiSpace c = false -> unicode.IsSpace c = false.
Proof.
  unfold unicode.IsSpace, unicode.MaxLatin1, strings.asciiSpace, utf8.RuneSelf.
  intros Hc Hsp.
  replace (c <=? 255) with true by (symmetry; apply Z.leb_le; lia).
  rewrite Hsp. simpl.
  replace (c =? 133) with false by (symmetry; apply Z.eqb_neq; lia).
  replace (c =? 160) with false by (symmetry; apply Z.eqb_neq; lia).
  reflexivity.
Qed.

(** A string whose first byte is an ASCII byte other than a space is not
    blank. *)
Lemma TrimSpace_head (c : ascii) (s : string) :
  byte_of c < utf8.RuneSelf -> strings.asciiSpace (byte_of c) = false ->
  strings.TrimSpace (String c s) <> "".
Proof.
  intros Hc Hsp. unfold strings.TrimSpace. rewrite bytes_String.
  cbn [strings.scanStart].
  replace (utf8.RuneSelf <=? byte_of c) with false
    by (symmetry; apply Z.leb_gt; lia).
  rewrite Hsp. cbn [negb]. rewrite drop_0.
  change (rev (byte_of c :: bytes s)) with (rev (bytes s) ++ [byte_of c]).
  destruct (scanStop_last (byte_of c) (rev (bytes s)) Hc Hsp
              (String.length (String c s))) as (k & Hk & Hres).
  { rewrite length_rev, bytes_length. simpl. lia. }
  rewrite length_rev, bytes_length in Hk. simpl String.length in Hk.
  destruct Hres as [-> | [-> Hlt]].
  - unfold slice. rewrite Nat.sub_0_r.
    replace k with (S (k - 1)) by lia. apply substring_nonempty. simpl. lia.
  - unfold slice. rewrite Nat.sub_0_r.
    replace k with (S (k - 1)) by lia. rewrite substring_0_String.
    apply TrimRightFunc_head; [assumption |]. now apply IsSpace_ascii.
Qed.

(** An entry with the prefix "sg-" is not blank. *)
Lemma HasPrefix_sg_not_blank (s : string) :
  strings.HasPrefix s "sg-" = true -> strings.TrimSpace s <> "".
Proof.
  unfold strings.HasPrefix. intros H. apply String.prefix_correct in H.
  destruct s as [|c s]; [discriminate H |].
  change (String.length "sg-") with 3%nat in H.
  rewrite substring_0_String in H. injection H as -> _.
  apply TrimSpace_head; vm_compute; reflexivity.
Qed.

(** ** Additional security groups: further properties *)

Lemma concat_imap_nil {A B : Type} (f : nat -> A -> list B) (l : list A) :
  concat (imap f l) = [] <-> forall k x, l !! k = Some x -> f k x = [].
Proof.
  split.
  - intros Hnil k x Hk. destruct (f k x) as [|e es] eqn:Hf; [reflexivity |].
    assert (He : e ∈ concat (imap f l)).
    { apply elem_of_concat_imap. exists k, x. rewrite Hf. split; [assumption | left]. }
    rewrite Hnil in He. now apply elem_of_nil in He.
  - intros Hall. destruct (concat (imap f l)) as [|e es] eqn:Hc; [reflexivity |].
    assert (He : e ∈ concat (imap f l)) by (rewrite Hc; left).
    apply elem_of_concat_imap in He as (k & x & Hk & He).
    rewrite (Hall k x Hk) in He. now apply elem_of_nil in He.
Qed.

Lemma NoDup_take {A : Type} (l : list A) :
  NoDup l <-> forall k x, l !! k = Some x -> x ∉ take k l.
Proof.
  rewrite NoDup_alt. split.
  - intros Hnd k x Hk Hin. apply list_elem_of_lookup in Hin as [j Hj].
    apply lookup_take_Some in Hj as [Hj Hlt].
    specialize (Hnd _ _ _ Hk Hj). lia.
  - intros Hall i j x Hi Hj.
    destruct (Nat.lt_trichotomy i j) as [Hlt | [Heq | Hlt]]; [| exact Heq |].
    + exfalso. apply (Hall j x Hj). apply list_elem_of_lookup. exists i.
      apply lookup_take_Some. split; assumption.
    + exfalso. apply (Hall i x Hi). apply list_elem_of_lookup. exists j.
      apply lookup_take_Some. split; assumption.
Qed.

Lemma securityGroupErrs_nil (fieldPath : field.Path) (i : Z)
      (earlier : list string) (s : string) :
  securityGroupErrs fieldPath i earlier s = []
  <-> (s ∉ earlier) /\ strings.HasPrefix s "sg-" = true.
Proof.
  unfold securityGroupErrs. split.
  - intros H. apply app_eq_nil in H as [Hdup Hinv].
    destruct (bool_decide_reflect (s ∈ earlier)); [discriminate Hdup |].
    split; [assumption |].
    destruct (String.eqb _ _); [discriminate Hinv |].
    destruct (strings.HasPrefix s "sg-"); [reflexivity | discriminate Hinv].
  - intros [Hnew Hprefix].
    rewrite bool_decide_eq_false_2 by assumption.
    pose proof (HasPrefix_sg_not_blank s Hprefix) as Hfilled.
    apply String.eqb_neq in Hfilled. now rewrite Hfilled, Hprefix.
Qed.

(** X1.  The rule accepts a list of security groups exactly when its
    entries are pairwise different and each starts with "sg-"; a blank
    entry never has that prefix. *)
Theorem security_groups_accepted (fieldPath : field.Path) (groups : list string) :
  awsValidateAdditionalSecurityGroups fieldPath groups = []
  <-> NoDup groups /\ Forall (fun s => strings.HasPrefix s "sg-" = true) groups.
Proof.
  rewrite awsValidateAdditionalSecurityGroups_entries.
  rewrite NoDup_take, Forall_lookup. split.
  - intros Hnil. pose proof (proj1 (concat_imap_nil _ _) Hnil) as Hall.
    split; intros k s Hk; specialize (Hall k s Hk);
      now apply securityGroupErrs_nil in Hall.
  - intros [Hnd Hpre]. apply concat_imap_nil. intros k s Hk.
    apply securityGroupErrs_nil.
    split; [now apply Hnd | now apply (Hpre k)].
Qed.

Lemma awsValidateAdditionalSecurityGroups_app
      (fieldPath : field.Path) (groups more : list string) :
  awsValidateAdditionalSecurityGroups fieldPath (groups ++ more)
  = awsValidateAdditionalSecurityGroups fieldPath groups
    ++ concat (imap (fun k s =>
         securityGroupErrs fieldPath (Z.of_nat (length groups + k))
                           (groups ++ take k more) s) more).
Proof.
  rewrite !awsValidateAdditionalSecurityGroups_entries, imap_app, concat_app.
  f_equal.
  - f_equal. apply imap_ext. intros k s Hk. simpl.
    rewrite take_app_le; [reflexivity |].
    apply lookup_lt_Some in Hk. lia.
  - f_equal. apply imap_ext. intros k s Hk. simpl.
    now rewrite take_app_add.
Qed.

(** X4.  Entries added at the end of the list add errors at the end of
    the result: the errors of a list are a prefix of the errors of any
    longer list that starts with it. *)
Theorem security_groups_prefix
        (fieldPath : field.Path) (groups more : list string) :
  awsValidateAdditionalSecurityGroups fieldPath groups
  `prefix_of` awsValidateAdditionalSecurityGroups fieldPath (groups ++ more).
Proof.
  rewrite awsValidateAdditionalSecurityGroups_app. eexists. reflexivity.
Qed.

(** X3.  Every error of the rule is a Duplicate or an Invalid error, sits
    at the path of an entry of the list and carries that entry as its
    value. *)
Theorem security_groups_errors
        (fieldPath : field.Path) (groups : list string) (e : field.Error) :
  e ∈ awsValidateAdditionalSecurityGroups fieldPath groups ->
  exists (i : nat) (s : string),
    groups !! i = Some s
    /\ field.Field e = field.String (field.Index fieldPath (Z.of_nat i))
    /\ field.BadValue e = field.VString s
    /\ (field.Type_ e = field.ErrorTypeDuplicate
        \/ field.Type_ e = field.ErrorTypeInvalid).
Proof.
  rewrite awsValidateAdditionalSecurityGroups_entries, elem_of_concat_imap.
  intros (k & s & Hk & He). exists k, s. split; [assumption |].
  unfold securityGroupErrs in He. singleton_cases He; simpl; auto.
Qed.

Lemma size_list_to_set_snoc (groups : list string) (s : string) :
  size (list_to_set (groups ++ [s]) : gset string)
  = (size (list_to_set groups : gset string)
     + (if bool_decide (s ∈ groups) then 0 else 1))%nat.
Proof.
  rewrite list_to_set_app_L. simpl. rewrite union_empty_r_L.
  destruct (bool_decide_reflect (s ∈ groups)) as [Hin|Hnin].
  - rewrite Nat.add_0_r. f_equal. rewrite (comm_L (∪)).
    apply subseteq_union_1_L.
    apply singleton_subseteq_l. now apply elem_of_list_to_set.
  - rewrite size_union, size_singleton; [reflexivity |].
    apply disjoint_singleton_r. now rewrite elem_of_list_to_set.
Qed.

Lemma securityGroupErrs_counts (fieldPath : field.Path) (i : Z)
      (earlier : list string) (s : string) :
  length (errorsOfType field.ErrorTypeDuplicate
                       (securityGroupErrs fieldPath i earlier s))
  = (if bool_decide (s ∈ earlier) then 1 else 0)%nat
  /\ length (errorsOfType field.ErrorTypeInvalid
                          (securityGroupErrs fieldPath i earlier s))
     = (if strings.HasPrefix s "sg-" then 0 else 1)%nat.
Proof.
  unfold securityGroupErrs, errorsOfType.
  destruct (strings.HasPrefix s "sg-") eqn:Hprefix.
  - pose proof (HasPrefix_sg_not_blank s Hprefix) as Hfilled.
    apply String.eqb_neq in Hfilled. rewrite Hfilled.
    destruct (bool_decide (s ∈ earlier)); split; reflexivity.
  - destruct (String.eqb _ _); destruct (bool_decide (s ∈ earlier));
      split; reflexivity.
Qed.

(** X2.  The number of Duplicate errors is the number of entries minus
    the number of different entries; the number of Invalid errors is the
    number of entries without the prefix "sg-", the blank ones among them;
    and there is no other error. *)
Theorem security_groups_counts (fieldPath : field.Path) (groups : list string) :
  let errs := awsValidateAdditionalSecurityGroups fieldPath groups in
  (length (errorsOfType field.ErrorTypeDuplicate errs)
   + size (list_to_set groups : gset string) = length groups)%nat
  /\ length (errorsOfType field.ErrorTypeInvalid errs)
     = length (List.filter (fun s => negb (strings.HasPrefix s "sg-")) groups)
  /\ (length errs
      = length (errorsOfType field.ErrorTypeDuplicate errs)
        + length (errorsOfType field.ErrorTypeInvalid errs))%nat.
Proof.
  induction groups as [|s groups IH] using rev_ind.
  - repeat split.
  - cbn zeta in IH |- *. destruct IH as (IHd & IHi & IHl).
    rewrite awsValidateAdditionalSecurityGroups_app.
    cbn [imap concat take]. rewrite !app_nil_r, Nat.add_0_r.
    destruct (securityGroupErrs_counts fieldPath (Z.of_nat (length groups))
                                       groups s) as [Hd Hi].
    unfold errorsOfType in *.
    rewrite !List.filter_app, !length_app, Hd, Hi, size_list_to_set_snoc.
    cbn [List.filter length].
    assert (Hone : length (securityGroupErrs fieldPath (Z.of_nat (length groups))
                                             groups s)
                   = ((if bool_decide (s ∈ groups) then 1 else 0)
                      + (if strings.HasPrefix s "sg-" then 0 else 1))%nat).
    { rewrite <- Hd, <- Hi. unfold securityGroupErrs.
      destruct (bool_decide (s ∈ groups)), (String.eqb _ _),
        (strings.HasPrefix s "sg-"); reflexivity. }
    rewrite Hone.
    destruct (bool_decide (s ∈ groups)), (strings.HasPrefix s "sg-");
      cbn [negb length app]; repeat split; lia.
Qed.

(** X5.  The path given to the rule decides where its errors sit and
    nothing else: for two paths the kinds, values and details of the
    errors are the same, one by one. *)
Theorem security_groups_path_independent
        (p1 p2 : field.Path) (groups : list string) :
  map errorContent (awsValidateAdditionalSecurityGroups p1 groups)
  = map errorContent (awsValidateAdditionalSecurityGroups p2 groups).
Proof.
  induction groups as [|s groups IH] using rev_ind; [reflexivity |].
  rewrite !awsValidateAdditionalSecurityGroups_app, !map_app, IH. f_equal.
  cbn [imap concat take]. rewrite !app_nil_r. unfold securityGroupErrs.
  destruct (bool_decide (s ∈ groups)); destruct (String.eqb _ _);
    try reflexivity; destruct (strings.HasPrefix s "sg-"); reflexivity.
Qed.

(** ** The TLS policy *)

(** X6.  The TLS policy is accepted exactly when it is absent, or the
    load balancer is of class network and has a certificate.  Every error
    is a Forbidden error at the path of the policy, and there are two of
    them exactly when the class is wrong and the certificate is missing. *)
Theorem ssl_policy_rule
        (fieldPath : field.Path) (spec : kops.LoadBalancerAccessSpec) :
  let errs := awsValidateSSLPolicy fieldPath spec in
  (errs = []
   <-> kops.lb_SSLPolicy spec = None
       \/ (kops.lb_Class spec = kops.LoadBalancerClassNetwork
           /\ kops.lb_SSLCertificate spec <> ""))
  /\ Forall (fun e => field.Type_ e = field.ErrorTypeForbidden
                      /\ field.Field e = field.String fieldPath) errs
  /\ (length errs = 2%nat
      <-> is_Some (kops.lb_SSLPolicy spec)
          /\ kops.lb_Class spec <> kops.LoadBalancerClassNetwork
          /\ kops.lb_SSLCertificate spec = "").
Proof.
  unfold awsValidateSSLPolicy. cbn zeta.
  destruct (kops.lb_SSLPolicy spec) as [policy|].
  - destruct (String.eqb_spec (kops.lb_Class spec) kops.LoadBalancerClassNetwork)
      as [Hclass|Hclass];
      destruct (String.eqb_spec (kops.lb_SSLCertificate spec) "") as [Hcert|Hcert];
      cbn [negb app length].
    + split; [| split].
      * split; [discriminate |]. intros [H | [_ H]]; [discriminate | contradiction].
      * repeat constructor.
      * split; [discriminate |]. intros (_ & H & _). contradiction.
    + split; [| split].
      * split; [auto | reflexivity].
      * constructor.
      * split; [discriminate |]. intros (_ & H & _). contradiction.
    + split; [| split].
      * split; [discriminate |]. intros [H | [H _]]; [discriminate | contradiction].
      * repeat constructor.
      * split; [eauto | reflexivity].
    + split; [| split].
      * split; [discriminate |]. intros [H | [H _]]; [discriminate | contradiction].
      * repeat constructor.
      * split; [discriminate |]. intros (_ & _ & H). contradiction.
  - split; [| split].
    + split; [auto | reflexivity].
    + constructor.
    + split; [discriminate |]. intros ([x Hx] & _). discriminate.
Qed.

(** ** The cluster pass: what it guards *)

(** X7.  The cluster pass always returns a list: the subnets rule, which
    on its own fails exactly when the spec has no API section or no load
    balancer, is only called behind the check of both.  For a cluster
    without a load balancer the pass gives the errors of the
    controller-manager rule and nothing else. *)
Theorem cluster_pass_guards_load_balancer (c : kops.Cluster) :
  is_Some (awsValidateCluster c)
  /\ (forall fieldPath spec,
         awsValidateLoadBalancerSubnets fieldPath spec = None
         <-> kops.API spec ≫= kops.LoadBalancer = None)
  /\ (kops.API (kops.c_Spec c) ≫= kops.LoadBalancer = None ->
      awsValidateCluster c
      = Some (awsValidateExternalCloudControllerManager (kops.c_Spec c))).
Proof.
  split; [| split].
  - destruct (awsValidateCluster_parts c) as (lbErrs & -> & _). eauto.
  - intros fieldPath spec. unfold awsValidateLoadBalancerSubnets.
    destruct (kops.API spec) as [api|]; simpl; [| tauto].
    destruct (kops.LoadBalancer api) as [lb|]; simpl; [| tauto].
    split; discriminate.
  - unfold awsValidateCluster.
    destruct (kops.API (kops.c_Spec c)) as [api|]; simpl; [| reflexivity].
    destruct (kops.LoadBalancer api) as [lb|]; simpl; [discriminate | reflexivity].
Qed.

(** X8.  Every error of the cluster pass sits at a path that starts with
    spec. *)
Theorem cluster_errors_under_spec (c : kops.Cluster) :
  exists errs,
    awsValidateCluster c = Some errs
    /\ Forall (fun e => exists suffix, field.Field e = "spec." +:+ suffix) errs.
Proof.
  destruct (awsValidateCluster_parts c) as (lbErrs & Heq & Hunder).
  eexists. split; [exact Heq |]. apply Forall_app. split.
  - eapply Forall_impl; [exact Hunder |]. intros e [suffix He].
    exists ("api.loadBalancer." +:+ suffix). rewrite He. reflexivity.
  - destruct (awsValidateExternalCloudControllerManager_cases (kops.c_Spec c))
      as [(_ & _ & _ & ->) | (_ & ->)]; [| constructor].
    repeat constructor. exists "externalCloudControllerManager". reflexivity.
Qed.

(** ** Load-balancer subnets: further properties *)



Lemma allocationErrs_nil fieldPath lbSpec i subnet :
  allocationErrs fieldPath lbSpec i subnet = []
  <-> forall allocationID,
      kops.lbs_AllocationID subnet = Some allocationID ->
      allocationID <> "" /\ publicNetwork lbSpec = true.
Proof.
  unfold allocationErrs.
  destruct (kops.lbs_AllocationID subnet) as [allocationID|];
    [| split; [intros _ a Ha; discriminate | reflexivity]].
  split.
  - intros H a [= <-]. apply app_eq_nil in H as [Hreq Hforb].
    destruct (String.eqb_spec allocationID ""); [discriminate Hreq |].
    destruct (publicNetwork lbSpec); [auto | discriminate Hforb].
  - intros H. destruct (H allocationID eq_refl) as [Hne Hpub].
    apply String.eqb_neq in Hne. now rewrite Hne, Hpub.
Qed.




Lemma internal_public_exclusive (lbSpec : kops.LoadBalancerAccessSpec) :
  internalNetwork lbSpec = true -> publicNetwork lbSpec = true -> False.
Proof.
  unfold internalNetwork, publicNetwork.
  destruct (String.eqb (kops.lb_Class lbSpec) _),
    (String.eqb (kops.lb_Type lbSpec) _); discriminate.
Qed.

(** X10.  A binding with both a private address and an allocation ID is
    never accepted: whatever the load balancer, one of the two Forbidden
    errors is reported for it. *)
Theorem address_and_allocation_conflict
        (fieldPath : field.Path) (spec : kops.ClusterSpec)
        (api : kops.AccessSpec) (lbSpec : kops.LoadBalancerAccessSpec)
        (i : nat) (subnet : kops.LoadBalancerSubnetSpec) :
  kops.API spec = Some api -> kops.LoadBalancer api = Some lbSpec ->
  kops.lb_Subnets lbSpec !! i = Some subnet ->
  is_Some (kops.lbs_PrivateIPv4Address subnet) ->
  is_Some (kops.lbs_AllocationID subnet) ->
  exists errs,
    awsValidateLoadBalancerSubnets fieldPath spec = Some errs
    /\ (field.Forbidden
          (field.Child (field.Index fieldPath (Z.of_nat i)) "privateIPv4Address")
          msgInternalOnly ∈ errs
        \/ field.Forbidden
             (field.Child (field.Index fieldPath (Z.of_nat i)) "allocationID")
             msgPublicOnly ∈ errs).
Proof.
  intros Hapi Hlb Hi [address Haddr] [allocation Halloc].
  destruct (awsValidateLoadBalancerSubnets_at fieldPath spec api lbSpec i subnet
              Hapi Hlb Hi) as (errs & Herrs & Hat).
  exists errs. split; [exact Herrs |].
  destruct (internalNetwork lbSpec) eqn:Hint.
  - right. apply Hat. unfold bindingErrs, allocationErrs. rewrite Halloc.
    destruct (publicNetwork lbSpec) eqn:Hpub.
    + destruct (internal_public_exclusive lbSpec Hint Hpub).
    + elem_here.
  - left. apply Hat. unfold bindingErrs, addressErrs. rewrite Haddr, Hint.
    elem_here.
Qed.

Lemma address_and_allocation_conflict_witness :
  let subnet := binding "a" (Some "10.0.0.10") (Some "eipalloc-222ghi789") in
  let lbSpec := loadBalancerWith kops.LoadBalancerClassNetwork
                                 kops.LoadBalancerTypePublic [subnet] in
  exists errs,
    awsValidateLoadBalancerSubnets subnetsPath
      (clusterWith [clusterSubnet "a" "10.0.0.0/24"] lbSpec) = Some errs
    /\ errs <> [].
Proof.
  intros subnet lbSpec.
  destruct (address_and_allocation_conflict subnetsPath
              (clusterWith [clusterSubnet "a" "10.0.0.0/24"] lbSpec) _ lbSpec
              0 subnet eq_refl eq_refl eq_refl)
    as (errs & Herrs & Hin).
  - eexists. reflexivity.
  - eexists. reflexivity.
  - exists errs. split; [exact Herrs |]. intros ->.
    destruct Hin as [Hin | Hin]; now apply elem_of_nil in Hin.
Defined.

(** X11.  The allocation ID of a binding: the Required error is reported
    exactly when the value is the empty string; there is no error at
    .allocationID exactly when the value is not empty and the load
    balancer is of class network and not of type internal; and a binding
    without allocation ID has no error there. *)
Theorem allocation_id_rule
        (fieldPath : field.Path) (spec : kops.ClusterSpec)
        (api : kops.AccessSpec) (lbSpec : kops.LoadBalancerAccessSpec)
        (i : nat) (subnet : kops.LoadBalancerSubnetSpec) :
  kops.API spec = Some api -> kops.LoadBalancer api = Some lbSpec ->
  kops.lb_Subnets lbSpec !! i = Some subnet ->
  exists errs,
    awsValidateLoadBalancerSubnets fieldPath spec = Some errs
    /\ let path :=
         field.Child (field.Index fieldPath (Z.of_nat i)) "allocationID" in
       (forall allocationID,
           kops.lbs_AllocationID subnet = Some allocationID ->
           (field.Required path "allocationID can't be empty" ∈ errs
            <-> allocationID = "")
           /\ ((forall e, e ∈ errs -> field.Field e <> field.String path)
               <-> allocationID <> ""
                   /\ kops.lb_Class lbSpec = kops.LoadBalancerClassNetwork
                   /\ kops.lb_Type lbSpec <> kops.LoadBalancerTypeInternal))
       /\ (kops.lbs_AllocationID subnet = None ->
           forall e, e ∈ errs -> field.Field e <> field.String path).
Proof.
  intros Hapi Hlb Hi.
  destruct (awsValidateLoadBalancerSubnets_at fieldPath spec api lbSpec i subnet
              Hapi Hlb Hi) as (errs & Herrs & Hat).
  exists errs. split; [exact Herrs |]. intros path.
  assert (Hpath : forall e,
             (e ∈ errs /\ field.Field e = field.String path)
             <-> e ∈ allocationErrs fieldPath lbSpec (Z.of_nat i) subnet).
  { intros e. split.
    - intros [He Hf].
      assert (He' : e ∈ bindingErrs fieldPath spec lbSpec (Z.of_nat i) subnet).
      { apply Hat. split; [assumption |].
        now apply (atIndex_Child _ _ "allocationID"). }
      unfold bindingErrs in He'.
      apply elem_of_app in He' as [He'|He'];
        [| apply elem_of_app in He' as [He'|He']].
      + apply nameErrs_Field in He' as [He' _]. rewrite He' in Hf.
        apply String_Child_inj in Hf; discriminate.
      + apply addressErrs_Field in He'. rewrite He' in Hf.
        apply String_Child_inj in Hf; discriminate.
      + exact He'.
    - intros He. split; [| now apply allocationErrs_Field in He].
      apply Hat. unfold bindingErrs. apply elem_of_app. right.
      apply elem_of_app. now right. }
  assert (Hnone : (forall e, e ∈ errs -> field.Field e <> field.String path)
                  <-> allocationErrs fieldPath lbSpec (Z.of_nat i) subnet = []).
  { split.
    - intros Hno.
      destruct (allocationErrs fieldPath lbSpec (Z.of_nat i) subnet)
        as [|e es] eqn:Hall; [reflexivity |].
      assert (He : e ∈ errs /\ field.Field e = field.String path).
      { apply Hpath. left. }
      destruct He as [He Hf]. now apply Hno in He.
    - intros Hnil e He Hf.
      assert (He' := proj1 (Hpath e) (conj He Hf)).
      rewrite Hnil in He'. now apply elem_of_nil in He'. }
  assert (Hpublic : publicNetwork lbSpec = true
                    <-> kops.lb_Class lbSpec = kops.LoadBalancerClassNetwork
                        /\ kops.lb_Type lbSpec <> kops.LoadBalancerTypeInternal).
  { unfold publicNetwork.
    rewrite andb_true_iff, negb_true_iff, String.eqb_eq, String.eqb_neq. tauto. }
  split.
  - intros allocationID Halloc. split.
    + split.
      * intros He.
        assert (He' := proj1 (Hpath _) (conj He eq_refl)).
        unfold allocationErrs in He'. rewrite Halloc in He'.
        destruct (String.eqb_spec allocationID ""); [assumption |].
        singleton_cases He'; discriminate.
      * intros ->. apply Hpath. unfold allocationErrs. rewrite Halloc.
        rewrite String.eqb_refl. elem_here.
    + split.
      * intros Hno. apply Hnone in Hno.
        destruct (proj1 (allocationErrs_nil _ _ _ _) Hno allocationID Halloc)
          as [Hne Hpub].
        apply Hpublic in Hpub. tauto.
      * intros (Hne & Hclass & Htype). apply Hnone, allocationErrs_nil.
        intros a Ha. replace a with allocationID by congruence.
        split; [assumption |]. apply Hpublic. tauto.
  - intros Hnoalloc. apply Hnone. apply allocationErrs_nil.
    intros a Ha. congruence.
Qed.

Lemma allocation_id_rule_witness :
  let path := field.Child (field.Index subnetsPath 0) "allocationID" in
  let spec lbSpec := clusterWith [clusterSubnet "a" "10.0.0.0/24"] lbSpec in
  let public subnet := loadBalancerWith kops.LoadBalancerClassNetwork
                         kops.LoadBalancerTypePublic [subnet] in
  (exists errs,
      awsValidateLoadBalancerSubnets subnetsPath
        (spec (public (binding "a" None (Some "")))) = Some errs
      /\ field.Required path "allocationID can't be empty" ∈ errs)
  /\ (exists errs,
         awsValidateLoadBalancerSubnets subnetsPath
           (spec (public (binding "a" None (Some "eipalloc-222ghi789"))))
         = Some errs
         /\ forall e, e ∈ errs -> field.Field e <> field.String path)
  /\ (exists errs,
         awsValidateLoadBalancerSubnets subnetsPath
           (spec (public (binding "a" None None))) = Some errs
         /\ forall e, e ∈ errs -> field.Field e <> field.String path).
Proof.
  intros path spec public. split; [| split].
  - destruct (allocation_id_rule subnetsPath _ _ _ 0 (binding "a" None (Some ""))
                (eq_refl : kops.API (spec (public (binding "a" None (Some ""))))
                           = Some _) eq_refl eq_refl)
      as (errs & Herrs & Hsome & _).
    exists errs. split; [exact Herrs |].
    apply (Hsome "" eq_refl). reflexivity.
  - destruct (allocation_id_rule subnetsPath _ _ _ 0
                (binding "a" None (Some "eipalloc-222ghi789"))
                (eq_refl : kops.API (spec (public
                             (binding "a" None (Some "eipalloc-222ghi789"))))
                           = Some _) eq_refl eq_refl)
      as (errs & Herrs & Hsome & _).
    exists errs. split; [exact Herrs |].
    apply (Hsome "eipalloc-222ghi789" eq_refl).
    split; [discriminate | split; [reflexivity | discriminate]].
  - destruct (allocation_id_rule subnetsPath _ _ _ 0 (binding "a" None None)
                (eq_refl : kops.API (spec (public (binding "a" None None)))
                           = Some _) eq_refl eq_refl)
      as (errs & Herrs & _ & Hnone).
    exists errs. split; [exact Herrs |]. apply Hnone. reflexivity.
Defined.

(** X12.  An empty private address is reported twice, as Required and as
    not a valid IPv4 address, and is never checked against the subnet. *)
Theorem empty_private_address
        (fieldPath : field.Path) (spec : kops.ClusterSpec)
        (api : kops.AccessSpec) (lbSpec : kops.LoadBalancerAccessSpec)
        (i : nat) (subnet : kops.LoadBalancerSubnetSpec) :
  kops.API spec = Some api -> kops.LoadBalancer api = Some lbSpec ->
  kops.lb_Subnets lbSpec !! i = Some subnet ->
  kops.lbs_PrivateIPv4Address subnet = Some "" ->
  exists errs,
    awsValidateLoadBalancerSubnets fieldPath spec = Some errs
    /\ let path :=
         field.Child (field.Index fieldPath (Z.of_nat i)) "privateIPv4Address" in
       field.Required path "privateIPv4Address can't be empty" ∈ errs
       /\ field.Invalid path (field.VSubnet subnet) msgNotIPv4 ∈ errs
       /\ forall v, field.Invalid path v msgNotInCIDR ∉ errs.
Proof.
  intros Hapi Hlb Hi Haddr.
  destruct (awsValidateLoadBalancerSubnets_at fieldPath spec api lbSpec i subnet
              Hapi Hlb Hi) as (errs & Herrs & Hat).
  exists errs. split; [exact Herrs |]. intros path.
  assert (Hv4 : isIPv4 (net.ParseIP "") = false) by reflexivity.
  split; [| split].
  - apply Hat. unfold bindingErrs, addressErrs.
    rewrite Haddr, String.eqb_refl. elem_here.
  - apply Hat. unfold bindingErrs, addressErrs. rewrite Haddr, Hv4. elem_here.
  - intros v Hv.
    assert (Hv' : field.Invalid path v msgNotInCIDR
                  ∈ bindingErrs fieldPath spec lbSpec (Z.of_nat i) subnet).
    { apply Hat. split; [assumption |].
      now apply (atIndex_Child _ _ "privateIPv4Address"). }
    unfold bindingErrs in Hv'.
    apply elem_of_app in Hv' as [Hv'|Hv'];
      [| apply elem_of_app in Hv' as [Hv'|Hv']].
    + apply nameErrs_Field in Hv' as [_ [Ht|Ht]]; discriminate Ht.
    + unfold addressErrs in Hv'. rewrite Haddr, Hv4 in Hv'.
      singleton_cases Hv'; discriminate.
    + unfold allocationErrs in Hv'. singleton_cases Hv'; discriminate.
Qed.

Lemma empty_private_address_witness :
  let subnet := binding "a" (Some "") None in
  let lbSpec := loadBalancerWith kops.LoadBalancerClassNetwork
                                 kops.LoadBalancerTypeInternal [subnet] in
  let path := field.Child (field.Index subnetsPath 0) "privateIPv4Address" in
  awsValidateLoadBalancerSubnets subnetsPath
    (clusterWith [clusterSubnet "a" "10.0.0.0/24"] lbSpec)
  = Some [field.Required path "privateIPv4Address can't be empty";
          field.Invalid path (field.VSubnet subnet) msgNotIPv4].
Proof.
  intros subnet lbSpec path.
  destruct (empty_private_address subnetsPath
              (clusterWith [clusterSubnet "a" "10.0.0.0/24"] lbSpec) _ lbSpec
              0 subnet eq_refl eq_refl eq_refl eq_refl)
    as (errs & Herrs & _).
  rewrite Herrs. vm_compute in Herrs. injection Herrs as <-. reflexivity.
Defined.



(** X14.  Every error of the subnets rule sits at the name, the private
    address or the allocation ID of a binding of the list; at the name it
    is a Required or NotFound error, and at one of the other two fields
    only when the binding has that field. *)
Theorem subnets_error_paths
        (fieldPath : field.Path) (spec : kops.ClusterSpec)
        (api : kops.AccessSpec) (lbSpec : kops.LoadBalancerAccessSpec) :
  kops.API spec = Some api -> kops.LoadBalancer api = Some lbSpec ->
  exists errs,
    awsValidateLoadBalancerSubnets fieldPath spec = Some errs
    /\ forall e, e ∈ errs ->
        exists (i : nat) (subnet : kops.LoadBalancerSubnetSpec),
          kops.lb_Subnets lbSpec !! i = Some subnet
          /\ let at_ name :=
                field.Field e
                = field.String (field.Child (field.Index fieldPath (Z.of_nat i))
                                            name) in
             (at_ "name"
              /\ (field.Type_ e = field.ErrorTypeRequired
                  \/ field.Type_ e = field.ErrorTypeNotFound))
             \/ (at_ "privateIPv4Address"
                 /\ is_Some (kops.lbs_PrivateIPv4Address subnet))
             \/ (at_ "allocationID" /\ is_Some (kops.lbs_AllocationID subnet)).
Proof.
  intros Hapi Hlb. eexists. split.
  - now apply (awsValidateLoadBalancerSubnets_entries _ _ api lbSpec).
  - intros e He. apply elem_of_concat_imap in He as (k & subnet & Hk & He).
    exists k, subnet. split; [assumption |]. cbn zeta.
    unfold bindingErrs in He.
    apply elem_of_app in He as [He|He]; [| apply elem_of_app in He as [He|He]].
    + left. now apply nameErrs_Field in He.
    + right. left. split; [now apply addressErrs_Field in He |].
      unfold addressErrs in He.
      destruct (kops.lbs_PrivateIPv4Address subnet); [eauto |].
      now apply elem_of_nil in He.
    + right. right. split; [now apply allocationErrs_Field in He |].
      unfold allocationErrs in He.
      destruct (kops.lbs_AllocationID subnet); [eauto |].
      now apply elem_of_nil in He.
Qed.

Lemma subnets_error_paths_witness :
  let lbSpec := loadBalancerWith kops.LoadBalancerClassClassic
                  kops.LoadBalancerTypePublic
                  [binding "" (Some "x") (Some "")] in
  exists errs,
    awsValidateLoadBalancerSubnets subnetsPath (clusterWith [] lbSpec) = Some errs
    /\ Forall (fun e => exists suffix,
                   field.Field e
                   = "spec.api.loadBalancer.subnets[0]." +:+ suffix) errs.
Proof.
  intros lbSpec.
  destruct (subnets_error_paths subnetsPath (clusterWith [] lbSpec) _ lbSpec
              eq_refl eq_refl) as (errs & Herrs & Hpaths).
  exists errs. split; [exact Herrs |]. apply Forall_forall. intros e He.
  destruct (Hpaths e He) as (i & subnet & Hi & Hat).
  destruct i as [|i]; [| discriminate Hi].
  destruct Hat as [[Hf _] | [[Hf _] | [Hf _]]]; rewrite Hf; eexists; reflexivity.
Defined.

(** ** Machine types: further properties *)

Lemma awsValidateInstanceType_filter
      (fieldPath : field.Path) (instanceType : string) (port : awsup.AWSCloud) :
  instanceType <> "" ->
  awsValidateInstanceType fieldPath instanceType (Some port)
  = map (fun typ => field.Invalid fieldPath (field.VString typ) msgMachineType)
        (List.filter (unresolvable port) (strings.Split1 instanceType ",")).
Proof.
  intros Hne. unfold awsValidateInstanceType. apply String.eqb_neq in Hne.
  rewrite Hne. cbn [negb]. now rewrite awsValidateInstanceType_range_filter.
Qed.

Lemma awsValidateInstanceType_empty
      (fieldPath : field.Path) (cloud : option awsup.AWSCloud) :
  awsValidateInstanceType fieldPath "" cloud = [].
Proof. now destruct cloud. Qed.

Lemma filter_nil_Forall {A : Type} (f : A -> bool) (l : list A) :
  List.filter f l = [] <-> Forall (fun x => f x = false) l.
Proof.
  induction l as [|x l IH]; simpl.
  - split; [constructor | reflexivity].
  - destruct (f x) eqn:Hf.
    + split; [discriminate |]. intros H. inversion H; congruence.
    + rewrite IH. split; [now constructor | intros H; now inversion H].
Qed.

(** X15.  The machine-type rule gives no error exactly when there is no
    port, or the value is empty, or the port resolves every candidate.
    It gives at most one error per candidate, and every error carries a
    candidate of the value. *)
Theorem machine_type_accepted
        (fieldPath : field.Path) (instanceType : string)
        (cloud : option awsup.AWSCloud) :
  let errs := awsValidateInstanceType fieldPath instanceType cloud in
  (errs = []
   <-> cloud = None \/ instanceType = ""
       \/ exists port, cloud = Some port
                       /\ Forall (fun typ => unresolvable port typ = false)
                                 (strings.Split1 instanceType ","))
  /\ (length errs <= length (strings.Split1 instanceType ","))%nat
  /\ forall e, e ∈ errs ->
               exists typ, typ ∈ strings.Split1 instanceType ","
                           /\ field.BadValue e = field.VString typ.
Proof.
  cbn zeta. destruct cloud as [port|];
    [| split; [split; [auto | reflexivity] | split; [simpl; lia |]];
       intros e He; now apply elem_of_nil in He].
  destruct (String.eqb_spec instanceType "") as [->|Hne].
  { split; [split; [auto | reflexivity] | split; [simpl; lia |]].
    intros e He. now apply elem_of_nil in He. }
  rewrite awsValidateInstanceType_filter by assumption. split; [| split].
  - split.
    + intros Hnil. right. right. exists port. split; [reflexivity |].
      apply filter_nil_Forall. now destruct (List.filter _ _).
    + intros [H | [H | (port' & [= <-] & Hall)]]; [discriminate | contradiction |].
      apply filter_nil_Forall in Hall. now rewrite Hall.
  - rewrite length_map. apply List.filter_length_le.
  - intros e He. apply list_elem_of_In, in_map_iff in He as (typ & <- & Htyp).
    apply filter_In in Htyp as [Htyp _]. exists typ.
    split; [now apply list_elem_of_In | reflexivity].
Qed.

Lemma Split1_app_sep (a b : string) (sep : ascii) :
  strings.Split1 (a +:+ String sep b) sep
  = strings.Split1 a sep ++ strings.Split1 b sep.
Proof.
  induction a as [|c a IH].
  - rewrite append_nil. simpl. now rewrite Ascii.eqb_refl.
  - rewrite append_cons. simpl. rewrite IH.
    destruct (Ascii.eqb c sep); [reflexivity |].
    pose proof (Split1_not_nil a sep) as Hnn.
    destruct (strings.Split1 a sep); [contradiction | reflexivity].
Qed.

(** X16.  Two non-empty machine-type values joined by a comma give the
    errors of the first followed by those of the second.  A value that
    ends with a comma has an empty last candidate, which is reported when
    the port does not resolve the empty name. *)
Theorem machine_types_compose
        (fieldPath : field.Path) (a b : string) (cloud : option awsup.AWSCloud) :
  (a <> "" -> b <> "" ->
   awsValidateInstanceType fieldPath (a +:+ "," +:+ b) cloud
   = awsValidateInstanceType fieldPath a cloud
     ++ awsValidateInstanceType fieldPath b cloud)
  /\ (forall port, cloud = Some port -> unresolvable port "" = true ->
                   field.Invalid fieldPath (field.VString "") msgMachineType
                   ∈ awsValidateInstanceType fieldPath (a +:+ ",") cloud).
Proof.
  assert (Hne : forall x y, x +:+ String "," y <> "").
  { intros [|c x] y; [rewrite append_nil | rewrite append_cons]; discriminate. }
  split.
  - intros Ha Hb. destruct cloud as [port|]; [| reflexivity].
    change ("," +:+ b) with (String "," b).
    rewrite !awsValidateInstanceType_filter by (assumption || apply Hne).
    now rewrite Split1_app_sep, List.filter_app, map_app.
  - intros port -> Hempty.
    rewrite awsValidateInstanceType_filter by apply Hne.
    rewrite Split1_app_sep, List.filter_app, map_app. simpl.
    rewrite Hempty. apply elem_of_app. right. left.
Qed.

Lemma machine_types_compose_witness :
  let p := field.NewPath "test-nodes" ["spec"; "machineType"] in
  awsValidateInstanceType p "bad1,t2.micro,bad2" (Some mockCloud)
  = awsValidateInstanceType p "bad1" (Some mockCloud)
    ++ awsValidateInstanceType p "t2.micro,bad2" (Some mockCloud)
  /\ field.Invalid p (field.VString "") msgMachineType
     ∈ awsValidateInstanceType p "t2.micro," (Some mockCloud).
Proof.
  intros p. split.
  - apply (proj1 (machine_types_compose p "bad1" "t2.micro,bad2" (Some mockCloud)));
      discriminate.
  - apply (proj2 (machine_types_compose p "t2.micro" "" (Some mockCloud))
                 mockCloud eq_refl).
    reflexivity.
Defined.

Lemma awsValidateMixedInstancesPolicy_range_None
      (path : field.Path) (instances : list string) :
  forall i errs,
    awsValidateMixedInstancesPolicy_range path None i instances errs = errs.
Proof.
  induction instances as [|x instances IH]; intros i errs; simpl; [reflexivity |].
  rewrite IH. apply app_nil_r.
Qed.

(** X17.  Without a port the instance-group pass never looks at machine
    types: it gives the errors that the same group with its machine type
    and the instance types of its mixed-instances policy removed gives
    with any port. *)
Theorem no_port_no_machine_type_check
        (strategies : list string) (ig : kops.InstanceGroup)
        (cloud : option awsup.AWSCloud) :
  awsValidateInstanceGroup strategies ig None
  = awsValidateInstanceGroup strategies (withoutMachineTypes ig) cloud.
Proof.
  unfold awsValidateInstanceGroup, withoutMachineTypes, kops.GetName.
  cbn [kops.ig_Spec kops.ObjectMeta_Name kops.MachineType
       kops.AdditionalSecurityGroups kops.MixedInstancesPolicy
       kops.InstanceMetadata].
  rewrite awsValidateInstanceType_empty.
  unfold awsValidateSpotDurationInMinute, awsValidateInstanceInterruptionBehavior.
  cbn [kops.ig_Spec kops.SpotDurationInMinutes kops.InstanceInterruptionBehavior].
  destruct (kops.MixedInstancesPolicy (kops.ig_Spec ig)) as [policy|];
    [| reflexivity].
  unfold awsValidateMixedInstancesPolicy.
  cbn [kops.Instances kops.OnDemandBase kops.OnDemandAboveBase
       kops.SpotAllocationStrategy kops.ig_Spec kops.MaxSize
       awsValidateMixedInstancesPolicy_range].
  now rewrite awsValidateMixedInstancesPolicy_range_None.
Qed.

Lemma security_groups_accepted_witness :
  awsValidateAdditionalSecurityGroups
    (field.NewPath "spec" ["additionalSecurityGroups"])
    ["sg-1234abcd"; "sg-5678efgh"] = []
  /\ ~ NoDup ["sg-1"; "sg-1"].
Proof.
  split.
  - apply security_groups_accepted. split.
    + apply NoDup_cons. split.
      * intros H. apply list_elem_of_singleton in H. discriminate H.
      * apply NoDup_singleton.
    + repeat constructor.
  - intros Hnd.
    assert (H : awsValidateAdditionalSecurityGroups
                  (field.NewPath "spec" ["additionalSecurityGroups"])
                  ["sg-1"; "sg-1"] = []).
    { apply security_groups_accepted. split; [exact Hnd | repeat constructor]. }
    vm_compute in H. discriminate H.
Defined.

Lemma security_groups_errors_witness :
  exists (i : nat) (s : string),
    ["sg-1"; "--invalid"] !! i = Some s
    /\ field.BadValue
         (field.Invalid (field.Index (field.NewPath "spec" []) 1)
                        (field.VString "--invalid") msgGroupFormat)
       = field.VString s.
Proof.
  destruct (security_groups_errors (field.NewPath "spec" [])
              ["sg-1"; "--invalid"]
              (field.Invalid (field.Index (field.NewPath "spec" []) 1)
                             (field.VString "--invalid") msgGroupFormat))
    as (i & s & Hi & _ & Hv & _).
  - vm_compute. apply list_elem_of_singleton. reflexivity.
  - exists i, s. split; assumption.
Defined.

Lemma ssl_policy_rule_witness :
  awsValidateSSLPolicy
    (field.NewPath "spec" ["api"; "loadBalancer"; "sslPolicy"])
    {| kops.lb_Class := kops.LoadBalancerClassNetwork;
       kops.lb_Type := kops.LoadBalancerTypePublic;
       kops.lb_AdditionalSecurityGroups := [];
       kops.lb_SSLCertificate := "arn:aws:acm:cert";
       kops.lb_SSLPolicy := Some "ELBSecurityPolicy-2016-08";
       kops.lb_Subnets := [] |} = []
  /\ length (awsValidateSSLPolicy
               (field.NewPath "spec" ["api"; "loadBalancer"; "sslPolicy"])
               {| kops.lb_Class := kops.LoadBalancerClassClassic;
                  kops.lb_Type := kops.LoadBalancerTypePublic;
                  kops.lb_AdditionalSecurityGroups := [];
                  kops.lb_SSLCertificate := "";
                  kops.lb_SSLPolicy := Some "ELBSecurityPolicy-2016-08";
                  kops.lb_Subnets := [] |}) = 2%nat.
Proof.
  split.
  - apply ssl_policy_rule. right. split; [reflexivity | discriminate].
  - apply ssl_policy_rule. split; [eexists; reflexivity |].
    split; [discriminate | reflexivity].
Defined.

Lemma cluster_pass_guards_load_balancer_witness :
  awsValidateCluster (clusterWithCCM None None)
  = Some (awsValidateExternalCloudControllerManager
            (kops.c_Spec (clusterWithCCM None None)))
  /\ awsValidateLoadBalancerSubnets subnetsPath
       (kops.c_Spec (clusterWithCCM None None)) = None.
Proof.
  destruct (cluster_pass_guards_load_balancer (clusterWithCCM None None))
    as (_ & Hpanic & Hccm).
  split.
  - apply Hccm. reflexivity.
  - apply Hpanic. reflexivity.
Defined.

Lemma machine_type_accepted_witness :
  let p := field.NewPath "test-nodes" ["spec"; "machineType"] in
  awsValidateInstanceType p "t2.micro,m5.large" (Some mockCloud) = []
  /\ exists typ, typ ∈ strings.Split1 "t2.micro,bad" ","
                 /\ field.VString "bad" = field.VString typ.
Proof.
  intros p. split.
  - apply machine_type_accepted. right. right. exists mockCloud.
    split; [reflexivity |]. repeat constructor.
  - destruct (machine_type_accepted p "t2.micro,bad" (Some mockCloud))
      as (_ & _ & Hcand).
    apply (Hcand (field.Invalid p (field.VString "bad") msgMachineType)).
    vm_compute. apply list_elem_of_singleton. reflexivity.
Defined.
